(** * CareerCraft API server (src/server/index.ts)

    A shallow embedding of the Express request handlers of the career-guidance
    backend: sign-up and login, the profile and psychometric stores, the two
    AI-backed endpoints with their cache on the user document, and the two
    catalogue queries.

    Conventions of the embedding.
    - A handler is a function from the request and the world (the three Mongo
      collections and the log of calls made to the completion service) to a
      response and the next world.  [await] is sequencing.
    - JavaScript strings are [string]s of 7-bit characters; [trim] and
      [toLowerCase] are the ASCII restrictions of the built-ins, and a
      statement that rests on a law of theirs says so with [seven_bit].
    - JavaScript objects used as maps ([req.query], [Record<string,...>],
      the objects produced by [JSON.parse]) are [gmap]s keyed by strings.
    - A Mongo collection is the list of its documents in natural order.
    - [handle] is the application: the JSON parser in front of the routes,
      then the handler of the route.  The [auth] middleware has run: a
      request carries the [userId] it has set.
    - Library code is a parameter: bcrypt, jsonwebtoken, [JSON.parse], zod's
      e-mail pattern and the completion service itself. *)

From Stdlib Require Import ZArith NArith QArith_base Ascii String.
From stdpp Require Import base option list strings pretty gmap.

Set Warnings "-register-all".
#[local] Open Scope string_scope.
#[local] Open Scope list_scope.

(** ** JavaScript strings *)

Definition is_upper (c : ascii) : bool :=
  let n := nat_of_ascii c in (65 <=? n)%nat && (n <=? 90)%nat.

Definition lower_char (c : ascii) : ascii :=
  if is_upper c then ascii_of_nat (nat_of_ascii c + 32) else c.

(** [String.prototype.toLowerCase] *)
Fixpoint toLowerCase (s : string) : string :=
  match s with
  | EmptyString => EmptyString
  | String c r => String (lower_char c) (toLowerCase r)
  end.

(** White space and line terminators below U+0080: TAB, LF, VT, FF, CR, SP. *)
Definition is_white (c : ascii) : bool :=
  let n := nat_of_ascii c in ((9 <=? n)%nat && (n <=? 13)%nat) || (n =? 32)%nat.

Fixpoint trimStart (s : string) : string :=
  match s with
  | EmptyString => EmptyString
  | String c r => if is_white c then trimStart r else s
  end.

Fixpoint trimEnd (s : string) : string :=
  match s with
  | EmptyString => EmptyString
  | String c r =>
      match trimEnd r with
      | EmptyString => if is_white c then EmptyString else String c EmptyString
      | r' => String c r'
      end
  end.

(** [String.prototype.trim] *)
Definition trim (s : string) : string := trimEnd (trimStart s).

(** [String.prototype.includes] *)
Fixpoint includes (needle hay : string) : bool :=
  String.prefix needle hay ||
  match hay with
  | EmptyString => false
  | String _ r => includes needle r
  end.

(** Truthiness of a string: only the empty string is falsy. *)
Definition truthy (s : string) : bool := negb (String.eqb s "").

(** Truthiness of [string | undefined | null]. *)
Definition truthy_opt (o : option string) : bool :=
  match o with Some s => truthy s | None => false end.

(** ** Identifiers and dates *)

(** A Mongo [ObjectId] is a 96-bit number. *)
Definition ObjectId : Type := N.
Bind Scope N_scope with ObjectId.

Definition hex_digit (n : N) : ascii :=
  match String.get (N.to_nat n) "0123456789abcdef" with
  | Some c => c
  | None => "0"%char
  end.

Fixpoint hex_digits (k : nat) (n : N) (acc : string) : string :=
  match k with
  | O => acc
  | S k' => hex_digits k' (n / 16)%N (String (hex_digit (n mod 16)%N) acc)
  end.

(** [ObjectId.prototype.toHexString]: 24 lower-case hexadecimal digits. *)
Definition toHexString (o : ObjectId) : string := hex_digits 24 o "".

(** A [Date] is its number of milliseconds since the epoch. *)
Definition Date : Type := Z.
Bind Scope Z_scope with Date.

(** ** JSON values *)

(** What [express.json] puts in [req.body] and what [JSON.parse] returns.
    Numbers are integers: no handler computes with a number, and the only
    schema that reads one asks for an integer. *)
Inductive jsval : Type :=
| JNull
| JBool (b : bool)
| JNum (n : Z)
| JStr (s : string)
| JArr (l : list jsval)
| JObj (m : gmap string jsval).

(** ** The types of the server *)

Inductive EducationLevel : Type :=
| MiddleSchool | HighSchool | Diploma | Undergraduate | Postgraduate.

Definition EducationLevel_str (e : EducationLevel) : string :=
  match e with
  | MiddleSchool => "Middle School"
  | HighSchool => "High School"
  | Diploma => "Diploma"
  | Undergraduate => "Undergraduate"
  | Postgraduate => "Postgraduate"
  end.

Record UserProfile : Type := {
  fullName : string;
  age : Z;
  educationLevel : EducationLevel;
  interests : list string
}.

Record PsychometricSubmission : Type := {
  answers : gmap string string;
  submittedAt : Date
}.

Record CourseRecommendation : Type := {
  course : string;
  reason : string
}.

Record AiAnalyzeResult : Type := {
  primaryDomain : string;
  recommendedCourses : list CourseRecommendation
}.

Record AiPortfolio : Type := {
  strengthSummary : string;
  recommendedSkills : list string;
  learningFocusAreas : list string;
  suggestedProjects : list string
}.

Record AiRoadmapStage : Type := {
  stage : string;
  whatToStudy : list string;
  skillsToLearn : list string;
  certifications : list string;
  projects : list string;
  internships : list string
}.

Record AiRoadmap : Type := {
  roadmap_primaryDomain : string;
  stages : list AiRoadmapStage;
  notes : string
}.

Inductive DemandLevel : Type := Low | Medium | High.

Record JobRoleDoc : Type := {
  role_id : ObjectId;
  title : string;
  domain : string;
  salaryRangeInr : Z * Z;
  requiredSkills : list string;
  demandLevel : DemandLevel;
  role_courseTags : option (list string)
}.

(** The collection stores [academicLevel] as a string; the handler compares
    it with a query parameter that is cast, not checked, to the enumeration. *)
Record ScholarshipDoc : Type := {
  sch_id : ObjectId;
  name : string;
  url : string;
  courseTags : list string;
  category : option string;
  academicLevel : string;
  deadline : option string;
  amountInr : option (option Z * option Z);
  eligibility : option string
}.

(** A cached slot of the AI bundle: [{ data, createdAt, model }]. *)
Record Cached (T : Type) : Type := {
  data : T;
  cached_createdAt : Date;
  model : string
}.
Arguments Build_Cached {T} _ _ _.
Arguments data {T} _.
Arguments cached_createdAt {T} _.
Arguments model {T} _.

Record AiBundle : Type := {
  analysis : option AiAnalyzeResult;
  portfolio : option (Cached AiPortfolio);
  roadmap : option (Cached AiRoadmap);
  ai_createdAt : option Date;
  ai_model : option string
}.

Record UserDoc : Type := {
  _id : ObjectId;
  email : string;
  passwordHash : string;
  createdAt : Date;
  updatedAt : Date;
  profile : option UserProfile;
  psychometric : option PsychometricSubmission;
  ai : option AiBundle
}.

(** [env], as far as the handlers read it. *)
Record Env : Type := {
  JWT_SECRET : string;
  OPENAI_API_KEY : option string
}.

Definition AI_MODEL : string := "gpt-4-turbo-preview".

(** ** zod: [safeParse] with issue collection *)

Inductive ZodIssueCode : Type :=
| invalid_type
| too_small
| too_big
| custom (message : string).

Inductive PathSegment : Type :=
| key (k : string)
| index (i : nat).

Record ZodIssue : Type := {
  code : ZodIssueCode;
  path : list PathSegment
}.

(** The result of [safeParse]: [{ success: true, data }] or
    [{ success: false, error }].  The error is kept as its list of issues;
    [error.flatten()] only regroups them by the first path segment. *)
Inductive SafeParse (T : Type) : Type :=
| success (parsed : T)
| failure (issues : list ZodIssue).
Arguments success {T} _.
Arguments failure {T} _.

Definition is_success {T} (r : SafeParse T) : bool :=
  match r with success _ => true | failure _ => false end.

Definition sp_map {A B} (f : A → B) (r : SafeParse A) : SafeParse B :=
  match r with
  | success a => success (f a)
  | failure i => failure i
  end.

(** Object and array schemas validate every member and report all issues. *)
Definition sp_ap {A B} (f : SafeParse (A → B)) (x : SafeParse A) : SafeParse B :=
  match f, x with
  | success g, success a => success (g a)
  | success _, failure i => failure i
  | failure i, success _ => failure i
  | failure i, failure j => failure (i ++ j)
  end.

#[global] Instance SafeParse_fmap : FMap SafeParse := @sp_map.
Notation "f <*> x" := (sp_ap f x) (at level 61, left associativity).

(** A schema reads the value found at a path ([None] is [undefined]). *)
Definition Schema (T : Type) : Type :=
  list PathSegment → option jsval → SafeParse T.

Definition issue (c : ZodIssueCode) (p : list PathSegment) : ZodIssue :=
  {| code := c; path := p |}.

(** [z.string().min(n)] *)
Definition z_string_min (n : nat) : Schema string := λ p v,
  match v with
  | Some (JStr s) =>
      if (n <=? String.length s)%nat then success s
      else failure [issue too_small p]
  | _ => failure [issue invalid_type p]
  end.

Fixpoint parse_items {T} (elem : Schema T) (p : list PathSegment)
    (i : nat) (l : list jsval) : SafeParse (list T) :=
  match l with
  | [] => success []
  | x :: r =>
      cons <$> elem (p ++ [index i]) (Some x) <*> parse_items elem p (S i) r
  end.

Definition length_issues (lo : nat) (hi : option nat) (n : nat)
    (p : list PathSegment) : list ZodIssue :=
  (if (n <? lo)%nat then [issue too_small p] else []) ++
  match hi with
  | Some h => if (h <? n)%nat then [issue too_big p] else []
  | None => []
  end.

(** [z.array(elem).min(lo).max(hi)]; [lo = 0] and [hi = None] when absent. *)
Definition z_array {T} (elem : Schema T) (lo : nat) (hi : option nat)
    : Schema (list T) := λ p v,
  match v with
  | Some (JArr l) =>
      match length_issues lo hi (length l) p, parse_items elem p 0 l with
      | [], r => r
      | i, success _ => failure i
      | i, failure j => failure (i ++ j)
      end
  | _ => failure [issue invalid_type p]
  end.

(** The entries of [z.record(elem)], in the order of the map's keys. *)
Fixpoint parse_entries {T} (elem : Schema T) (p : list PathSegment)
    (l : list (string * jsval)) : SafeParse (list (string * T)) :=
  match l with
  | [] => success []
  | (k, x) :: r =>
      (λ y t, (k, y) :: t) <$> elem (p ++ [key k]) (Some x)
        <*> parse_entries elem p r
  end.

(** [z.record(elem)]: an object whose every value satisfies [elem].  Every
    entry is checked, but zod leaves the key [__proto__] out of the object
    it returns. *)
Definition z_record {T} (elem : Schema T) : Schema (gmap string T) := λ p v,
  match v with
  | Some (JObj m) =>
      (λ l, delete "__proto__" (list_to_map l))
        <$> parse_entries elem p (map_to_list m)
  | _ => failure [issue invalid_type p]
  end.

(** *** The schemas of the server *)

Record Credentials : Type := {
  cred_email : string;
  cred_password : string
}.

Section Schemas.

(** zod's e-mail pattern, [z.string().email()]. *)
Variable is_email : string → bool.

Definition z_string_email : Schema string := λ p v,
  match v with
  | Some (JStr s) =>
      if is_email s then success s
      else failure [issue (custom "Invalid email") p]
  | _ => failure [issue invalid_type p]
  end.

Definition signupSchema (body : jsval) : SafeParse Credentials :=
  match body with
  | JObj m =>
      Build_Credentials
        <$> z_string_email [key "email"] (m !! "email")
        <*> z_string_min 6 [key "password"] (m !! "password")
  | _ => failure [issue invalid_type []]
  end.

Definition loginSchema (body : jsval) : SafeParse Credentials :=
  match body with
  | JObj m =>
      Build_Credentials
        <$> z_string_email [key "email"] (m !! "email")
        <*> z_string_min 6 [key "password"] (m !! "password")
  | _ => failure [issue invalid_type []]
  end.

End Schemas.

(** [psychometricSchema]: the object schema, then the [superRefine] on the
    number of keys of the parsed [answers].  The refinement is modelled on a
    successfully parsed object; whether zod also reports it next to the
    issues of the values changes the details of a 400, not its status. *)
Definition psychometricSchema (body : jsval) : SafeParse (gmap string string) :=
  match body with
  | JObj m =>
      match z_record (z_string_min 1) [key "answers"] (m !! "answers") with
      | success ans =>
          let n := size ans in
          if (n <? 8)%nat || (10 <? n)%nat
          then failure
                 [issue (custom "answers must contain 8–10 entries")
                    [key "answers"]]
          else success ans
      | failure i => failure i
      end
  | _ => failure [issue invalid_type []]
  end.

Definition aiPortfolioSchema (json : jsval) : SafeParse AiPortfolio :=
  match json with
  | JObj m =>
      Build_AiPortfolio
        <$> z_string_min 1 [key "strengthSummary"] (m !! "strengthSummary")
        <*> z_array (z_string_min 1) 3 (Some 12) [key "recommendedSkills"]
              (m !! "recommendedSkills")
        <*> z_array (z_string_min 1) 3 (Some 12) [key "learningFocusAreas"]
              (m !! "learningFocusAreas")
        <*> z_array (z_string_min 1) 2 (Some 10) [key "suggestedProjects"]
              (m !! "suggestedProjects")
  | _ => failure [issue invalid_type []]
  end.

Definition roadmapStageSchema : Schema AiRoadmapStage := λ p v,
  match v with
  | Some (JObj m) =>
      Build_AiRoadmapStage
        <$> z_string_min 1 (p ++ [key "stage"]) (m !! "stage")
        <*> z_array (z_string_min 1) 1 (Some 10) (p ++ [key "whatToStudy"])
              (m !! "whatToStudy")
        <*> z_array (z_string_min 1) 1 (Some 10) (p ++ [key "skillsToLearn"])
              (m !! "skillsToLearn")
        <*> z_array (z_string_min 1) 0 (Some 10) (p ++ [key "certifications"])
              (m !! "certifications")
        <*> z_array (z_string_min 1) 1 (Some 10) (p ++ [key "projects"])
              (m !! "projects")
        <*> z_array (z_string_min 1) 0 (Some 10) (p ++ [key "internships"])
              (m !! "internships")
  | _ => failure [issue invalid_type p]
  end.

Definition aiRoadmapSchema (json : jsval) : SafeParse AiRoadmap :=
  match json with
  | JObj m =>
      Build_AiRoadmap
        <$> z_string_min 1 [key "primaryDomain"] (m !! "primaryDomain")
        <*> z_array roadmapStageSchema 3 (Some 8) [key "stages"] (m !! "stages")
        <*> z_string_min 1 [key "notes"] (m !! "notes")
  | _ => failure [issue invalid_type []]
  end.

(** ** Requests and responses *)

(** A value of [req.query]: a string, an array of strings (a repeated
    parameter) or a nested object. *)
Inductive qval : Type :=
| QString (s : string)
| QArray (l : list string)
| QObject.

(** The request after the [auth] middleware: [userId] is the subject of the
    verified token, the hexadecimal form of an [ObjectId] as [signToken]
    wrote it, read back by [new ObjectId(req.userId)]. *)
Record AuthRequest : Type := {
  userId : ObjectId;
  query : gmap string qval;
  body : jsval
}.

Record JobRoleView : Type := {
  jr_id : string;
  jr_title : string;
  jr_domain : string;
  jr_salaryRangeInr : Z * Z;
  jr_requiredSkills : list string;
  jr_demandLevel : DemandLevel
}.

Record ScholarshipView : Type := {
  sv_id : string;
  sv_name : string;
  sv_url : string;
  sv_category : option string;
  sv_academicLevel : string;
  sv_deadline : option string;
  sv_amountInr : option (option Z * option Z);
  sv_eligibility : option string
}.

Record ScholarshipFilters : Type := {
  filters_course : option string;
  filters_category : option string;
  filters_academicLevel : string
}.

(** The JSON bodies the handlers send; [None] stands for [null]. *)
Inductive Body : Type :=
| ErrorBody (error : string)
| ErrorDetails (error : string) (details : list ZodIssue)
| ErrorRaw (error : string) (raw : string)
| OkBody
| AuthBody (token : string) (id : string) (user_email : string)
| MeBody (id : string) (user_email : string)
    (user_profile : option UserProfile) (psychometric_submittedAt : option Date)
| PortfolioBody (body_model : string) (body_createdAt : Date)
    (body_portfolio : AiPortfolio)
| RoadmapBody (body_model : string) (body_createdAt : Date)
    (body_roadmap : AiRoadmap)
| JobRolesBody (body_domain : option string) (count : nat)
    (jobRoles : list JobRoleView)
| ScholarshipsBody (filters : ScholarshipFilters) (count : nat)
    (scholarships : list ScholarshipView).

Record Response : Type := {
  status : nat;
  payload : Body
}.

(** [res.status(s).json(b)]; [res.json(b)] alone sends status 200. *)
Definition json (s : nat) (b : Body) : Response := {| status := s; payload := b |}.

(** [qString] *)
Definition qString (v : option qval) : option string :=
  match v with
  | Some (QString s) => if truthy (trim s) then Some (trim s) else None
  | _ => None
  end.

(** [normalizeTag] *)
Definition normalizeTag (s : string) : string := toLowerCase (trim s).

(** ** The completion service *)

Inductive PromptKind : Type := PortfolioPrompt | RoadmapPrompt.

(** The object passed to [JSON.stringify]; [outputJsonShape] and
    [constraints] are constants of each endpoint.  Its [psychometric] is the
    transcript [buildAnswerContext] writes, one [Q:]/[A:] pair per entry of
    the stored answers in the order the stored object has them; a map keeps
    no such order, so the prompt is modelled with the answers themselves. *)
Record Prompt : Type := {
  prompt_kind : PromptKind;
  prompt_profile : UserProfile;
  prompt_psychometric : gmap string string;
  prompt_analysis : AiAnalyzeResult
}.

Record ChatRequest : Type := {
  chat_model : string;
  temperature : Q;
  system : string;
  user : Prompt
}.

(** What a [catch] clause may receive. *)
Inductive Thrown : Type :=
| ErrorInstance (message : string)
| OtherValue.

(** The outcome of [await client.chat.completions.create(...)]: a rejection,
    or a completion of which the handler reads
    [choices[0]?.message?.content]. *)
Inductive Completion : Type :=
| rejected (err : Thrown)
| resolved (content : option string).

(** *** The SDK behind [create]

    [getOpenAIClient] builds the client with [new OpenAI({ apiKey })] and
    the handlers pass no request options, so [maxRetries] has the SDK's
    default: a request that fails in a way the SDK takes for transient (a
    connection error, a status 408, 409, 429 or 500 and above) is sent
    again, up to [DEFAULT_MAX_RETRIES] times, before [create] rejects. *)





(** ** The world *)

Record World : Type := {
  users : list UserDoc;
  job_roles : list JobRoleDoc;
  scholarships_col : list ScholarshipDoc;
  completions : list ChatRequest
}.

Definition with_users (us : list UserDoc) (w : World) : World :=
  {| users := us; job_roles := job_roles w;
     scholarships_col := scholarships_col w; completions := completions w |}.

(** One more call to [chat.completions.create]. *)
Definition call (r : ChatRequest) (w : World) : World :=
  {| users := users w; job_roles := job_roles w;
     scholarships_col := scholarships_col w;
     completions := completions w ++ [r] |}.

(** *** Mongo operations on [users] *)

(** [users.findOne({ _id })] *)
Definition findOne_id (id : ObjectId) (us : list UserDoc) : option UserDoc :=
  List.find (λ u, N.eqb (_id u) id) us.

(** [users.findOne({ email })] *)
Definition findOne_email (e : string) (us : list UserDoc) : option UserDoc :=
  List.find (λ u, String.eqb (email u) e) us.

(** [users.updateOne({ _id }, { $set })]: the first matching document is
    rewritten; the result carries [matchedCount]. *)
Fixpoint updateOne (id : ObjectId) (set : UserDoc → UserDoc)
    (us : list UserDoc) : nat * list UserDoc :=
  match us with
  | [] => (0, [])
  | u :: r =>
      if N.eqb (_id u) id then (1, set u :: r)
      else let '(n, r') := updateOne id set r in (n, u :: r')
  end.

Definition E11000 : string :=
  "E11000 duplicate key error collection: careercraft.users".

(** [users.insertOne(doc)] under the unique indexes on [_id] and [email]:
    the driver rejects with a [MongoServerError] whose message starts with
    the code [E11000]. *)
Definition insertOne (d : UserDoc) (us : list UserDoc)
    : string + list UserDoc :=
  if existsb (λ u, N.eqb (_id u) (_id d) || String.eqb (email u) (email d)) us
  then inl E11000
  else inr (us ++ [d]).

(** [new ObjectId()]: the driver's identifiers are unique; the model takes
    the successor of the largest one stored. *)
Definition new_ObjectId (us : list UserDoc) : ObjectId :=
  N.succ (foldr (λ u m, N.max (_id u) m) 0%N us).

(** [$set] of the three sub-documents. *)
Definition set_profile (p : UserProfile) (now : Date) (u : UserDoc) : UserDoc :=
  {| _id := _id u; email := email u; passwordHash := passwordHash u;
     createdAt := createdAt u; updatedAt := now;
     profile := Some p; psychometric := psychometric u; ai := ai u |}.

Definition set_psychometric (s : PsychometricSubmission) (now : Date)
    (u : UserDoc) : UserDoc :=
  {| _id := _id u; email := email u; passwordHash := passwordHash u;
     createdAt := createdAt u; updatedAt := now;
     profile := profile u; psychometric := Some s; ai := ai u |}.

Definition empty_bundle : AiBundle :=
  {| analysis := None; portfolio := None; roadmap := None;
     ai_createdAt := None; ai_model := None |}.

(** [$set: { "ai.portfolio": c, updatedAt: now }] *)
Definition set_ai_portfolio (c : Cached AiPortfolio) (now : Date)
    (u : UserDoc) : UserDoc :=
  let b := default empty_bundle (ai u) in
  {| _id := _id u; email := email u; passwordHash := passwordHash u;
     createdAt := createdAt u; updatedAt := now;
     profile := profile u; psychometric := psychometric u;
     ai := Some {| analysis := analysis b; portfolio := Some c;
                   roadmap := roadmap b; ai_createdAt := ai_createdAt b;
                   ai_model := ai_model b |} |}.

(** [$set: { "ai.roadmap": c, updatedAt: now }] *)
Definition set_ai_roadmap (c : Cached AiRoadmap) (now : Date)
    (u : UserDoc) : UserDoc :=
  let b := default empty_bundle (ai u) in
  {| _id := _id u; email := email u; passwordHash := passwordHash u;
     createdAt := createdAt u; updatedAt := now;
     profile := profile u; psychometric := psychometric u;
     ai := Some {| analysis := analysis b; portfolio := portfolio b;
                   roadmap := Some c; ai_createdAt := ai_createdAt b;
                   ai_model := ai_model b |} |}.

(** *** Mongo queries on the catalogues *)

Definition mem (t : string) (l : list string) : bool :=
  existsb (String.eqb t) l.

(** [{ domain?: d, $or?: [{ courseTags: { $in: tags } }] }] *)
Record RoleFilter : Type := {
  filter_domain : option string;
  filter_or : option (list string)
}.

Definition role_matches (f : RoleFilter) (r : JobRoleDoc) : bool :=
  match filter_domain f with
  | Some d => String.eqb (domain r) d
  | None => true
  end &&
  match filter_or f with
  | Some tags =>
      match role_courseTags r with
      | Some ts => existsb (λ t, mem t tags) ts
      | None => false
      end
  | None => true
  end.

(** [{ academicLevel, category?: c, courseTags?: { $in: [tag] } }] *)
Record ScholarshipFilter : Type := {
  filter_academicLevel : string;
  filter_category : option string;
  filter_courseTags : option (list string)
}.

Definition scholarship_matches (f : ScholarshipFilter) (s : ScholarshipDoc)
    : bool :=
  String.eqb (academicLevel s) (filter_academicLevel f) &&
  match filter_category f with
  | Some c =>
      match category s with Some c' => String.eqb c' c | None => false end
  | None => true
  end &&
  match filter_courseTags f with
  | Some tags => existsb (λ t, mem t tags) (courseTags s)
  | None => true
  end.

(** [col.find(filter).limit(n).toArray()] *)
Definition find_limit {D} (matches : D → bool) (n : nat) (col : list D) : list D :=
  take n (List.filter matches col).

(** [.filter((x): x is string => Boolean(x))] *)
Fixpoint filter_Boolean (l : list (option string)) : list string :=
  match l with
  | [] => []
  | Some s :: r => if truthy s then s :: filter_Boolean r else filter_Boolean r
  | None :: r => filter_Boolean r
  end.

(** [profileSchema] *)
Definition z_string_trim_min (n : nat) : Schema string := λ p v,
  match v with
  | Some (JStr s) =>
      if (n <=? String.length (trim s))%nat then success (trim s)
      else failure [issue too_small p]
  | _ => failure [issue invalid_type p]
  end.

(** [z.number().int().min(lo).max(hi)]; the numbers of [jsval] are integers. *)
Definition z_int_range (lo hi : Z) : Schema Z := λ p v,
  match v with
  | Some (JNum n) =>
      if (n <? lo)%Z then failure [issue too_small p]
      else if (hi <? n)%Z then failure [issue too_big p]
      else success n
  | _ => failure [issue invalid_type p]
  end.

Definition z_educationLevel : Schema EducationLevel := λ p v,
  match v with
  | Some (JStr s) =>
      match List.find (λ e, String.eqb (EducationLevel_str e) s)
              [MiddleSchool; HighSchool; Diploma; Undergraduate; Postgraduate]
      with
      | Some e => success e
      | None => failure [issue (custom "Invalid enum value") p]
      end
  | _ => failure [issue invalid_type p]
  end.

Definition profileSchema (body : jsval) : SafeParse UserProfile :=
  match body with
  | JObj m =>
      Build_UserProfile
        <$> z_string_trim_min 2 [key "fullName"] (m !! "fullName")
        <*> z_int_range 12 100 [key "age"] (m !! "age")
        <*> z_educationLevel [key "educationLevel"] (m !! "educationLevel")
        <*> z_array (z_string_trim_min 1) 1 None [key "interests"]
              (m !! "interests")
  | _ => failure [issue invalid_type []]
  end.

(** ** Prompt construction *)

(** [Array.prototype.join] *)
Fixpoint join (sep : string) (l : list string) : string :=
  match l with
  | [] => ""
  | [x] => x
  | x :: r => x +:+ sep +:+ join sep r
  end.

Definition portfolio_system : string :=
  join " "
    [ "You are CareerCraft AI.";
      "Generate a student portfolio section based on profile + psychometric answers + the chosen domain.";
      "Return ONLY valid JSON. No markdown.";
      "Keep content beginner-friendly and directly renderable in a UI." ].

Definition roadmap_system : string :=
  join " "
    [ "You are CareerCraft AI.";
      "Create a step-by-step beginner-friendly career roadmap for a student in India.";
      "Make it stage-wise/year-wise, actionable, and realistic.";
      "Return ONLY valid JSON (no markdown)." ].

(** ** The handlers *)

Section Server.

Variable env : Env.

(** [bcrypt.hash(password, rounds)]; the salt it draws is an argument. *)
Variable bcrypt_hash : string → nat → string → string.
(** [bcrypt.compare(password, hash)] *)
Variable bcrypt_compare : string → string → bool.
(** [jwt.sign({ sub, email }, secret, { expiresIn })] *)
Variable jwt_sign : string → string → string → string → string.
(** [JSON.parse]; [None] when it throws. *)
Variable JSON_parse : string → option jsval.
Variable is_email : string → bool.

(** [signToken] *)
Definition signToken (id : ObjectId) (e : string) : string :=
  jwt_sign (toHexString id) e (JWT_SECRET env) "7d".

(** [getOpenAIClient]: the message of the error it throws, or the client
    (its key). *)
Definition getOpenAIClient : string + string :=
  match OPENAI_API_KEY env with
  | Some k => if truthy k then inr k else inl "OpenAI API key not configured"
  | None => inl "OpenAI API key not configured"
  end.

(** [POST /auth/signup] *)
Definition post_auth_signup (salt : string) (now : Date) (body : jsval)
    (w : World) : Response * World :=
  match signupSchema is_email body with
  | failure i => (json 400 (ErrorDetails "Invalid input" i), w)
  | success parsed =>
      let email := cred_email parsed in
      let password := cred_password parsed in
      let passwordHash := bcrypt_hash password 10 salt in
      let oid := new_ObjectId (users w) in
      match insertOne
              {| _id := oid; email := toLowerCase email;
                 passwordHash := passwordHash;
                 createdAt := now; updatedAt := now;
                 profile := None; psychometric := None; ai := None |}
              (users w)
      with
      | inr us =>
          let token := signToken oid (toLowerCase email) in
          (json 201 (AuthBody token (toHexString oid) (toLowerCase email)),
           with_users us w)
      | inl msg =>
          if includes "E11000" msg
          then (json 409 (ErrorBody "Email already exists"), w)
          else (json 500 (ErrorBody "Failed to create user"), w)
      end
  end.

(** [POST /auth/login] *)
Definition post_auth_login (body : jsval) (w : World) : Response * World :=
  match loginSchema is_email body with
  | failure i => (json 400 (ErrorDetails "Invalid input" i), w)
  | success parsed =>
      match findOne_email (toLowerCase (cred_email parsed)) (users w) with
      | None => (json 401 (ErrorBody "Invalid email or password"), w)
      | Some user =>
          if negb (bcrypt_compare (cred_password parsed) (passwordHash user))
          then (json 401 (ErrorBody "Invalid email or password"), w)
          else
            let token := signToken (_id user) (email user) in
            (json 200 (AuthBody token (toHexString (_id user)) (email user)), w)
      end
  end.

(** The document [findOne] returns under
    [{ projection: { passwordHash: 0 } }]. *)
Record ProjectedUser : Type := {
  pu_id : ObjectId;
  pu_email : string;
  pu_createdAt : Date;
  pu_updatedAt : Date;
  pu_profile : option UserProfile;
  pu_psychometric : option PsychometricSubmission;
  pu_ai : option AiBundle
}.

Definition project_passwordHash_0 (u : UserDoc) : ProjectedUser :=
  {| pu_id := _id u; pu_email := email u; pu_createdAt := createdAt u;
     pu_updatedAt := updatedAt u; pu_profile := profile u;
     pu_psychometric := psychometric u; pu_ai := ai u |}.

(** [GET /me] *)
Definition get_me (req : AuthRequest) (w : World) : Response * World :=
  match project_passwordHash_0 <$> findOne_id (userId req) (users w) with
  | None => (json 404 (ErrorBody "User not found"), w)
  | Some user =>
      (json 200
         (MeBody (toHexString (pu_id user)) (pu_email user) (pu_profile user)
            (submittedAt <$> pu_psychometric user)),
       w)
  end.

(** [POST /user/profile] *)
Definition post_user_profile (now : Date) (req : AuthRequest) (w : World)
    : Response * World :=
  match profileSchema (body req) with
  | failure i => (json 400 (ErrorDetails "Invalid input" i), w)
  | success parsed =>
      let '(matchedCount, us) :=
        updateOne (userId req) (set_profile parsed now) (users w) in
      if (matchedCount =? 0)%nat
      then (json 404 (ErrorBody "User not found"), with_users us w)
      else (json 200 OkBody, with_users us w)
  end.

(** [POST /user/psychometric] *)
Definition post_user_psychometric (now : Date) (req : AuthRequest)
    (w : World) : Response * World :=
  match psychometricSchema (body req) with
  | failure i => (json 400 (ErrorDetails "Invalid input" i), w)
  | success parsed =>
      let '(matchedCount, us) :=
        updateOne (userId req)
          (set_psychometric {| answers := parsed; submittedAt := now |} now)
          (users w) in
      if (matchedCount =? 0)%nat
      then (json 404 (ErrorBody "User not found"), with_users us w)
      else (json 200 OkBody, with_users us w)
  end.

(** The message a [catch (err: unknown)] clause of the AI handlers sends. *)
Definition thrown_message (err : Thrown) : string :=
  match err with
  | ErrorInstance msg => msg
  | OtherValue => "OpenAI request failed"
  end.

(** [GET /ai/portfolio].  [completion] is what the completion service
    answers if the handler calls it. *)
Definition get_ai_portfolio (now : Date) (completion : Completion)
    (req : AuthRequest) (w : World) : Response * World :=
  let refresh := bool_decide (qString (query req !! "refresh") = Some "1") in
  match findOne_id (userId req) (users w) with
  | None => (json 404 (ErrorBody "User not found"), w)
  | Some user =>
  match (if refresh then None else ai user ≫= portfolio) with
  | Some cached =>
      (json 200
         (PortfolioBody (model cached) (cached_createdAt cached) (data cached)),
       w)
  | None =>
  match profile user with
  | None =>
      (json 400 (ErrorBody "Profile is missing. Save /user/profile first."), w)
  | Some user_profile =>
  match psychometric user with
  | None =>
      (json 400
         (ErrorBody
            "Psychometric answers are missing. Save /user/psychometric first."),
       w)
  | Some user_psychometric =>
  match ai user ≫= analysis with
  | None =>
      (json 400
         (ErrorBody "AI analysis is missing. Run POST /ai/analyze first."), w)
  | Some user_analysis =>
  match getOpenAIClient with
  | inl msg => (json 500 (ErrorBody msg), w)
  | inr client =>
      let answerContext := answers user_psychometric in
      let prompt :=
        {| prompt_kind := PortfolioPrompt; prompt_profile := user_profile;
           prompt_psychometric := answerContext;
           prompt_analysis := user_analysis |} in
      let w1 :=
        call {| chat_model := AI_MODEL; temperature := Qmake 3 10;
                system := portfolio_system; user := prompt |} w in
      match completion with
      | rejected err => (json 502 (ErrorBody (thrown_message err)), w1)
      | resolved content =>
      match content with
      | None => (json 502 (ErrorBody "AI returned an empty response"), w1)
      | Some content =>
      if negb (truthy content)
      then (json 502 (ErrorBody "AI returned an empty response"), w1)
      else
      match JSON_parse content with
      | None => (json 502 (ErrorRaw "AI returned non-JSON output" content), w1)
      | Some json_value =>
      match aiPortfolioSchema json_value with
      | failure i =>
          (json 502
             (ErrorDetails "AI output did not match expected schema" i), w1)
      | success parsed =>
          let '(_, us) :=
            updateOne (_id user)
              (set_ai_portfolio
                 {| data := parsed; cached_createdAt := now;
                    model := AI_MODEL |} now)
              (users w1) in
          (json 200 (PortfolioBody AI_MODEL now parsed), with_users us w1)
      end end end end end end end end end end.

(** [GET /ai/career-roadmap] *)
Definition get_ai_career_roadmap (now : Date) (completion : Completion)
    (req : AuthRequest) (w : World) : Response * World :=
  let refresh := bool_decide (qString (query req !! "refresh") = Some "1") in
  match findOne_id (userId req) (users w) with
  | None => (json 404 (ErrorBody "User not found"), w)
  | Some user =>
  match (if refresh then None else ai user ≫= roadmap) with
  | Some cached =>
      (json 200
         (RoadmapBody (model cached) (cached_createdAt cached) (data cached)),
       w)
  | None =>
  match profile user with
  | None =>
      (json 400 (ErrorBody "Profile is missing. Save /user/profile first."), w)
  | Some user_profile =>
  match psychometric user with
  | None =>
      (json 400
         (ErrorBody
            "Psychometric answers are missing. Save /user/psychometric first."),
       w)
  | Some user_psychometric =>
  match ai user ≫= analysis with
  | None =>
      (json 400
         (ErrorBody "AI analysis is missing. Run POST /ai/analyze first."), w)
  | Some user_analysis =>
  match getOpenAIClient with
  | inl msg => (json 500 (ErrorBody msg), w)
  | inr client =>
      let answerContext := answers user_psychometric in
      let prompt :=
        {| prompt_kind := RoadmapPrompt; prompt_profile := user_profile;
           prompt_psychometric := answerContext;
           prompt_analysis := user_analysis |} in
      let w1 :=
        call {| chat_model := AI_MODEL; temperature := Qmake 35 100;
                system := roadmap_system; user := prompt |} w in
      match completion with
      | rejected err => (json 502 (ErrorBody (thrown_message err)), w1)
      | resolved content =>
      match content with
      | None => (json 502 (ErrorBody "AI returned an empty response"), w1)
      | Some content =>
      if negb (truthy content)
      then (json 502 (ErrorBody "AI returned an empty response"), w1)
      else
      match JSON_parse content with
      | None => (json 502 (ErrorRaw "AI returned non-JSON output" content), w1)
      | Some json_value =>
      match aiRoadmapSchema json_value with
      | failure i =>
          (json 502
             (ErrorDetails "AI output did not match expected schema" i), w1)
      | success parsed =>
          let '(_, us) :=
            updateOne (_id user)
              (set_ai_roadmap
                 {| data := parsed; cached_createdAt := now;
                    model := AI_MODEL |} now)
              (users w1) in
          (json 200 (RoadmapBody AI_MODEL now parsed), with_users us w1)
      end end end end end end end end end end.

Definition job_role_view (r : JobRoleDoc) : JobRoleView :=
  {| jr_id := toHexString (role_id r); jr_title := title r;
     jr_domain := domain r; jr_salaryRangeInr := salaryRangeInr r;
     jr_requiredSkills := requiredSkills r;
     jr_demandLevel := demandLevel r |}.

(** The Mongo filter [GET /ai/job-roles] builds. *)
Definition job_roles_filter (domain : option string)
    (courseTags : list string) : RoleFilter :=
  {| filter_domain := if truthy_opt domain then domain else None;
     filter_or :=
       if (0 <? length courseTags)%nat then Some courseTags else None |}.

(** [GET /ai/job-roles] *)
Definition get_ai_job_roles (req : AuthRequest) (w : World)
    : Response * World :=
  let explicitDomain := qString (query req !! "domain") in
  let explicitCourse := qString (query req !! "course") in
  match findOne_id (userId req) (users w) with
  | None => (json 404 (ErrorBody "User not found"), w)
  | Some user =>
      let analysis := ai user ≫= analysis in
      if negb (bool_decide (is_Some analysis)) && negb (truthy_opt explicitDomain)
         && negb (truthy_opt explicitCourse)
      then
        (json 400
           (ErrorBody
              "AI analysis missing. Run POST /ai/analyze or pass ?domain= / ?course=."),
         w)
      else
        let domain :=
          match explicitDomain with
          | Some d => Some d
          | None => primaryDomain <$> analysis
          end in
        let courseTags :=
          normalizeTag <$>
            filter_Boolean
              (explicitCourse ::
               (match analysis with
                | Some a => (λ x, Some (course x)) <$> recommendedCourses a
                | None => []
                end)) in
        let roles :=
          find_limit (role_matches (job_roles_filter domain courseTags)) 30
            (job_roles w) in
        (json 200
           (JobRolesBody domain (length roles) (job_role_view <$> roles)),
         w)
  end.

Definition scholarship_view (s : ScholarshipDoc) : ScholarshipView :=
  {| sv_id := toHexString (sch_id s); sv_name := name s; sv_url := url s;
     sv_category := category s; sv_academicLevel := academicLevel s;
     sv_deadline := deadline s; sv_amountInr := amountInr s;
     sv_eligibility := eligibility s |}.

(** The Mongo filter [GET /scholarships] builds. *)
Definition scholarships_filter (academicLevel : string)
    (explicitCategory course : option string) : ScholarshipFilter :=
  {| filter_academicLevel := academicLevel;
     filter_category :=
       if truthy_opt explicitCategory then explicitCategory else None;
     filter_courseTags :=
       match course with
       | Some c => if truthy c then Some [normalizeTag c] else None
       | None => None
       end |}.

(** [GET /scholarships] *)
Definition get_scholarships (req : AuthRequest) (w : World)
    : Response * World :=
  let explicitCourse := qString (query req !! "course") in
  let explicitCategory := qString (query req !! "category") in
  let explicitAcademicLevel := qString (query req !! "academicLevel") in
  match findOne_id (userId req) (users w) with
  | None => (json 404 (ErrorBody "User not found"), w)
  | Some user =>
      let analysis := ai user ≫= analysis in
      let profile := profile user in
      let course :=
        match explicitCourse with
        | Some c => Some c
        | None => analysis ≫= λ a, course <$> head (recommendedCourses a)
        end in
      let academicLevel :=
        match explicitAcademicLevel with
        | Some l => Some l
        | None => (λ p, EducationLevel_str (educationLevel p)) <$> profile
        end in
      match academicLevel with
      | None =>
          (json 400
             (ErrorBody
                "Academic level missing. Save /user/profile or pass ?academicLevel=."),
           w)
      | Some academicLevel =>
          if negb (truthy academicLevel)
          then
            (json 400
               (ErrorBody
                  "Academic level missing. Save /user/profile or pass ?academicLevel=."),
             w)
          else
            let items :=
              find_limit
                (scholarship_matches
                   (scholarships_filter academicLevel explicitCategory course))
                50 (scholarships_col w) in
            (json 200
               (ScholarshipsBody
                  {| filters_course := course;
                     filters_category := explicitCategory;
                     filters_academicLevel := academicLevel |}
                  (length items) (scholarship_view <$> items)),
             w)
      end
  end.

(** *** The router *)

Inductive Request : Type :=
| PostSignup (salt : string) (now : Date) (body : jsval)
| PostLogin (body : jsval)
| GetMe (req : AuthRequest)
| PostProfile (now : Date) (req : AuthRequest)
| PostPsychometric (now : Date) (req : AuthRequest)
| GetPortfolio (now : Date) (completion : Completion) (req : AuthRequest)
| GetRoadmap (now : Date) (completion : Completion) (req : AuthRequest)
| GetJobRoles (req : AuthRequest)
| GetScholarships (req : AuthRequest).

(** The routes: a request whose body the JSON parser has accepted goes to
    its handler. *)
Definition route (r : Request) (w : World) : Response * World :=
  match r with
  | PostSignup salt now body => post_auth_signup salt now body w
  | PostLogin body => post_auth_login body w
  | GetMe req => get_me req w
  | PostProfile now req => post_user_profile now req w
  | PostPsychometric now req => post_user_psychometric now req w
  | GetPortfolio now c req => get_ai_portfolio now c req w
  | GetRoadmap now c req => get_ai_career_roadmap now c req w
  | GetJobRoles req => get_ai_job_roles req w
  | GetScholarships req => get_scholarships req w
  end.

(** The JSON value of the body a request arrives with; an absent body is
    [{}]. *)
Definition request_body (r : Request) : jsval :=
  match r with
  | PostSignup _ _ body | PostLogin body => body
  | GetMe req | PostProfile _ req | PostPsychometric _ req
  | GetPortfolio _ _ req | GetRoadmap _ _ req
  | GetJobRoles req | GetScholarships req => body req
  end.

(** [express.json()] is strict: it reads objects and arrays, and raises an
    error on any other JSON text. *)
Definition strict (v : jsval) : bool :=
  match v with
  | JObj _ | JArr _ => true
  | _ => false
  end.

(** The [message] of the error the JSON parser raises on a body it
    refuses. *)
Variable parser_message : jsval → string.

(** The application: the JSON parser runs in front of every route; its
    error goes to the global error handler, which answers 500 with the
    message. *)
Definition handle (r : Request) (w : World) : Response * World :=
  if strict (request_body r) then route r w
  else (json 500 (ErrorBody (parser_message (request_body r))), w).

(** The world after serving a sequence of requests one after the other. *)
Definition serve (rs : list Request) (w : World) : World :=
  foldl (λ w r, (handle r w).2) w rs.

End Server.

(** * Specification

    The vocabulary of the statements below: the declared contracts, the
    order of the prerequisite gates, and what a handler's result has to look
    like in each case. *)

(** ** The declared output schemas *)



(** ** The AI endpoints *)

(** What [GET /ai/portfolio] and [GET /ai/career-roadmap] differ in: the slot
    of the bundle they read and write, the schema, the request they send and
    the body they answer with.  The rest of the two handlers is the same
    text, which [ai_endpoint] spells once for the proofs. *)
Record Slot (T : Type) : Type := {
  slot_get : AiBundle → option (Cached T);
  slot_set : Cached T → Date → UserDoc → UserDoc;
  slot_schema : jsval → SafeParse T;
  slot_body : string → Date → T → Body;
  slot_request :
    UserProfile → gmap string string → AiAnalyzeResult → ChatRequest
}.
Arguments slot_get {T} _ _.
Arguments slot_set {T} _ _ _ _.
Arguments slot_schema {T} _ _.
Arguments slot_body {T} _ _ _ _.
Arguments slot_request {T} _ _ _ _.

Definition portfolio_slot : Slot AiPortfolio :=
  {| slot_get := portfolio; slot_set := set_ai_portfolio;
     slot_schema := aiPortfolioSchema; slot_body := PortfolioBody;
     slot_request := λ p t a,
       {| chat_model := AI_MODEL; temperature := Qmake 3 10;
          system := portfolio_system;
          user := {| prompt_kind := PortfolioPrompt; prompt_profile := p;
                     prompt_psychometric := t; prompt_analysis := a |} |} |}.

Definition roadmap_slot : Slot AiRoadmap :=
  {| slot_get := roadmap; slot_set := set_ai_roadmap;
     slot_schema := aiRoadmapSchema; slot_body := RoadmapBody;
     slot_request := λ p t a,
       {| chat_model := AI_MODEL; temperature := Qmake 35 100;
          system := roadmap_system;
          user := {| prompt_kind := RoadmapPrompt; prompt_profile := p;
                     prompt_psychometric := t; prompt_analysis := a |} |} |}.

Definition ai_endpoint {T} (s : Slot T) (env : Env)
    (JSON_parse : string → option jsval) (now : Date)
    (completion : Completion) (req : AuthRequest) (w : World)
    : Response * World :=
  let refresh := bool_decide (qString (query req !! "refresh") = Some "1") in
  match findOne_id (userId req) (users w) with
  | None => (json 404 (ErrorBody "User not found"), w)
  | Some user =>
  match (if refresh then None else ai user ≫= slot_get s) with
  | Some cached =>
      (json 200
         (slot_body s (model cached) (cached_createdAt cached) (data cached)),
       w)
  | None =>
  match profile user with
  | None =>
      (json 400 (ErrorBody "Profile is missing. Save /user/profile first."), w)
  | Some user_profile =>
  match psychometric user with
  | None =>
      (json 400
         (ErrorBody
            "Psychometric answers are missing. Save /user/psychometric first."),
       w)
  | Some user_psychometric =>
  match ai user ≫= analysis with
  | None =>
      (json 400
         (ErrorBody "AI analysis is missing. Run POST /ai/analyze first."), w)
  | Some user_analysis =>
  match getOpenAIClient env with
  | inl msg => (json 500 (ErrorBody msg), w)
  | inr client =>
      let w1 :=
        call (slot_request s user_profile
                (answers user_psychometric) user_analysis)
          w in
      match completion with
      | rejected err => (json 502 (ErrorBody (thrown_message err)), w1)
      | resolved content =>
      match content with
      | None => (json 502 (ErrorBody "AI returned an empty response"), w1)
      | Some content =>
      if negb (truthy content)
      then (json 502 (ErrorBody "AI returned an empty response"), w1)
      else
      match JSON_parse content with
      | None => (json 502 (ErrorRaw "AI returned non-JSON output" content), w1)
      | Some json_value =>
      match slot_schema s json_value with
      | failure i =>
          (json 502
             (ErrorDetails "AI output did not match expected schema" i), w1)
      | success parsed =>
          let '(_, us) :=
            updateOne (_id user)
              (slot_set s
                 {| data := parsed; cached_createdAt := now;
                    model := AI_MODEL |} now)
              (users w1) in
          (json 200 (slot_body s AI_MODEL now parsed), with_users us w1)
      end end end end end end end end end end.

(** What a [$set] of a slot must respect. *)
Record SlotLaws {T} (s : Slot T) : Prop := {
  set_id : ∀ c now u, _id (slot_set s c now u) = _id u;
  set_email : ∀ c now u, email (slot_set s c now u) = email u;
  get_set : ∀ c now u, ai (slot_set s c now u) ≫= slot_get s = Some c
}.

Inductive Gate : Type :=
| ProfileGate | PsychometricGate | AnalysisGate | ProviderGate.

(** The order of the checks. *)
Definition gate_order : list Gate :=
  [ProfileGate; PsychometricGate; AnalysisGate; ProviderGate].

Definition gate_passes (env : Env) (u : UserDoc) (g : Gate) : bool :=
  match g with
  | ProfileGate => bool_decide (is_Some (profile u))
  | PsychometricGate => bool_decide (is_Some (psychometric u))
  | AnalysisGate => bool_decide (is_Some (ai u ≫= analysis))
  | ProviderGate => truthy_opt (OPENAI_API_KEY env)
  end.

Definition first_failing_gate (env : Env) (u : UserDoc) : option Gate :=
  List.find (λ g, negb (gate_passes env u g)) gate_order.

(** The answer to a failed gate. *)
Definition gate_error (g : Gate) : Response :=
  match g with
  | ProfileGate =>
      json 400 (ErrorBody "Profile is missing. Save /user/profile first.")
  | PsychometricGate =>
      json 400
        (ErrorBody
           "Psychometric answers are missing. Save /user/psychometric first.")
  | AnalysisGate =>
      json 400 (ErrorBody "AI analysis is missing. Run POST /ai/analyze first.")
  | ProviderGate => json 500 (ErrorBody "OpenAI API key not configured")
  end.

(** The handler does not serve the slot from the cache: a refresh was asked
    for, or the slot is empty. *)
Definition generation_attempt {T} (s : Slot T) (req : AuthRequest)
    (u : UserDoc) : Prop :=
  qString (query req !! "refresh") = Some "1" ∨ ai u ≫= slot_get s = None.

(** The result of a generation attempt as far as the gates decide it: the
    first failed gate answers and nothing changes; with no failed gate the
    completion service is called, once. *)
Definition gate_outcome (env : Env) (u : UserDoc) (w : World)
    (result : Response * World) : Prop :=
  match first_failing_gate env u with
  | Some g => result = (gate_error g, w)
  | None =>
      (∀ g, gate_passes env u g = true) ∧
      ∃ r, completions result.2 = completions w ++ [r]
  end.

(** The completion carries non-empty content that parses as JSON and that
    the schema accepts as [p]. *)
Definition accepted {T} (schema : jsval → SafeParse T)
    (JSON_parse : string → option jsval) (completion : Completion) (p : T)
    : Prop :=
  ∃ c j, completion = resolved (Some c) ∧ c ≠ "" ∧
         JSON_parse c = Some j ∧ schema j = success p.


(** The new result was sent and is what the user's slot now holds. *)
Definition overwritten {T} (s : Slot T) (req : AuthRequest) (now : Date)
    (p : T) (result : Response * World) : Prop :=
  result.1 = json 200 (slot_body s AI_MODEL now p) ∧
  (findOne_id (userId req) (users result.2) ≫= ai) ≫= slot_get s =
    Some {| data := p; cached_createdAt := now; model := AI_MODEL |}.






(** The slot is written on a successful generation and on nothing else:
    an answer other than 200 leaves [users] alone; [users] changes only when
    the gates passed and the completion was accepted; and then the result,
    stamped with the time and the model, is what the slot holds and what
    every later read without a refresh returns. *)
Definition written_on_success_only {T} (s : Slot T) (env : Env)
    (JSON_parse : string → option jsval)
    (handler : Date → Completion → AuthRequest → World → Response * World)
    (now : Date) (completion : Completion) (req : AuthRequest) (w : World)
    : Prop :=
  let result := handler now completion req w in
  (status result.1 ≠ 200 → users result.2 = users w) ∧
  (users result.2 ≠ users w →
   ∃ u p, findOne_id (userId req) (users w) = Some u ∧
          generation_attempt s req u ∧ first_failing_gate env u = None ∧
          accepted (slot_schema s) JSON_parse completion p) ∧
  (∀ u p, findOne_id (userId req) (users w) = Some u →
          generation_attempt s req u → first_failing_gate env u = None →
          accepted (slot_schema s) JSON_parse completion p →
          overwritten s req now p result ∧
          ∀ now' completion' req',
            userId req' = userId req →
            qString (query req' !! "refresh") ≠ Some "1" →
            handler now' completion' req' result.2 =
              (json 200 (slot_body s AI_MODEL now p), result.2)).

(** ** Accounts *)

(** The document [POST /auth/signup] inserts. *)
Definition new_account (id : ObjectId) (e hash : string) (now : Date) : UserDoc :=
  {| _id := id; email := e; passwordHash := hash;
     createdAt := now; updatedAt := now;
     profile := None; psychometric := None; ai := None |}.

(** The same document under another password hash. *)
Definition with_passwordHash (h : string) (u : UserDoc) : UserDoc :=
  {| _id := _id u; email := email u; passwordHash := h;
     createdAt := createdAt u; updatedAt := updatedAt u;
     profile := profile u; psychometric := psychometric u; ai := ai u |}.

(** ** Request bodies *)

(** The JSON values the parser lets through as a body. *)
Definition object_or_array (v : jsval) : Prop :=
  (∃ m, v = JObj m) ∨ (∃ l, v = JArr l).

(** ** The psychometric submission *)

(** The body is [{ answers }] where [answers] is an object whose values are
    all non-empty strings and which has 8 to 10 entries, one keyed
    [__proto__] not counted; [ans] is that object without such an entry. *)
Definition psychometric_contract (body : jsval) (ans : gmap string string)
    : Prop :=
  ∃ m sent,
    body = JObj m ∧
    m !! "answers" = Some (JObj (JStr <$> sent)) ∧
    (∀ k s, sent !! k = Some s → s ≠ "") ∧
    ans = delete "__proto__" sent ∧
    (8 ≤ size ans ≤ 10)%nat.

(** ** The catalogues *)

Definition analysis_courses (an : option AiAnalyzeResult) : list string :=
  match an with
  | Some a => course <$> recommendedCourses a
  | None => []
  end.

(** The domain [GET /ai/job-roles] resolves: the parameter, else the
    analysis's primary domain. *)
Definition effective_domain (explicitDomain : option string)
    (an : option AiAnalyzeResult) : option string :=
  match explicitDomain with
  | Some d => Some d
  | None => primaryDomain <$> an
  end.

(** The course tags as C8 words them: the course parameter and every course
    name of the analysis, trimmed and lower-cased. *)
Definition claimed_course_tags (explicitCourse : option string)
    (an : option AiAnalyzeResult) : list string :=
  normalizeTag <$> (option_list explicitCourse ++ analysis_courses an).

(** The course tags the handler uses: as above, of the non-empty names. *)
Definition effective_course_tags (explicitCourse : option string)
    (an : option AiAnalyzeResult) : list string :=
  normalizeTag <$>
    List.filter truthy (option_list explicitCourse ++ analysis_courses an).

(** A resolved string counts when it is not empty. *)
Definition nonempty (o : option string) : option string :=
  if truthy_opt o then o else None.

(** The role is of the domain, if there is one, and carries one of the
    tags, if there are any. *)
Definition role_satisfies (dom : option string) (tags : list string)
    (r : JobRoleDoc) : Prop :=
  (∀ d, dom = Some d → domain r = d) ∧
  (tags ≠ [] → ∃ ts t, role_courseTags r = Some ts ∧ t ∈ ts ∧ t ∈ tags).

(** The course [GET /scholarships] resolves: the parameter, else the first
    course of the analysis. *)
Definition effective_course (explicitCourse : option string)
    (an : option AiAnalyzeResult) : option string :=
  match explicitCourse with
  | Some c => Some c
  | None => an ≫= λ a, course <$> head (recommendedCourses a)
  end.

(** The academic level [GET /scholarships] resolves: the parameter, else the
    education level of the profile. *)
Definition effective_level (explicitAcademicLevel : option string)
    (p : option UserProfile) : option string :=
  match explicitAcademicLevel with
  | Some l => Some l
  | None => (λ p, EducationLevel_str (educationLevel p)) <$> p
  end.

(** The scholarship is of the level, of the category if one is given, and
    tagged with the normalised course if there is one. *)
Definition scholarship_satisfies (level : string) (cat crs : option string)
    (s : ScholarshipDoc) : Prop :=
  academicLevel s = level ∧
  (∀ c, cat = Some c → category s = Some c) ∧
  (∀ c, crs = Some c → normalizeTag c ∈ courseTags s).

(** The answer with a page of [items]: at most [n] documents of the
    collection, in its order, all of them satisfying [P], and all the
    collection's documents that satisfy [P] when the page is not full. *)
Definition page_of {D} (P : D → Prop) (n : nat) (col items : list D) : Prop :=
  (length items ≤ n)%nat ∧ sublist items col ∧
  (∀ x, x ∈ items → P x) ∧
  ((length items < n)%nat → ∀ x, x ∈ col → P x → x ∈ items).

(** ** A small deployment, for the examples *)

Module Sample.

Definition env : Env :=
  {| JWT_SECRET := "0123456789abcdef"; OPENAI_API_KEY := Some "sk-sample" |}.

Definition env_unconfigured : Env :=
  {| JWT_SECRET := "0123456789abcdef"; OPENAI_API_KEY := None |}.

Definition asha_profile : UserProfile :=
  {| fullName := "Asha Rao"; age := 19; educationLevel := Undergraduate;
     interests := ["coding"] |}.

Definition eight_answers : gmap string string :=
  list_to_map
    [("q1", "a"); ("q2", "b"); ("q3", "c"); ("q4", "d");
     ("q5", "a"); ("q6", "b"); ("q7", "c"); ("q8", "d")].

(** Ten answers and an entry keyed [__proto__], eleven in all. *)
Definition eleven_with_proto : gmap string string :=
  <["__proto__" := "x"]> (<["q9" := "a"]> (<["q10" := "b"]> eight_answers)).

(** Seven answers and an entry keyed [__proto__], eight in all. *)
Definition eight_with_proto : gmap string string :=
  <["__proto__" := "x"]> (delete "q8" eight_answers).

Definition asha_analysis : AiAnalyzeResult :=
  {| primaryDomain := "Engineering";
     recommendedCourses :=
       [ {| course := "Mechanical"; reason := "likes building things" |};
         {| course := " Civil "; reason := "likes structures" |} ] |}.

Definition old_portfolio : AiPortfolio :=
  {| strengthSummary := "Practical and curious.";
     recommendedSkills := ["CAD"; "Statics"; "Python"];
     learningFocusAreas := ["Mechanics"; "Materials"; "Design"];
     suggestedProjects := ["Bridge model"; "Gearbox"] |}.

Definition new_portfolio : AiPortfolio :=
  {| strengthSummary := "Builds and debugs patiently.";
     recommendedSkills := ["CAD"; "Thermodynamics"; "Matlab"];
     learningFocusAreas := ["Mechanics"; "Control"; "Design"];
     suggestedProjects := ["Line follower"; "Wind turbine"] |}.

Definition a_stage (n : string) : AiRoadmapStage :=
  {| stage := n; whatToStudy := ["Mathematics"]; skillsToLearn := ["CAD"];
     certifications := []; projects := ["Bridge model"]; internships := [] |}.

Definition old_roadmap : AiRoadmap :=
  {| roadmap_primaryDomain := "Engineering";
     stages := [a_stage "0-3 months"; a_stage "3-6 months"; a_stage "Year 2"];
     notes := "Revise every term." |}.

Definition asha_bundle : AiBundle :=
  {| analysis := Some asha_analysis;
     portfolio :=
       Some {| data := old_portfolio; cached_createdAt := 1000;
               model := "gpt-4-turbo-preview" |};
     roadmap :=
       Some {| data := old_roadmap; cached_createdAt := 1000;
               model := "gpt-4-turbo-preview" |};
     ai_createdAt := None; ai_model := None |}.

(** A user who went through every step. *)
Definition asha : UserDoc :=
  {| _id := 1; email := "asha@x.com";
     passwordHash := "$2a$10$saltsaltsalt$secret1";
     createdAt := 10; updatedAt := 1000;
     profile := Some asha_profile;
     psychometric := Some {| answers := eight_answers; submittedAt := 500 |};
     ai := Some asha_bundle |}.

(** A user who saved a profile only. *)
Definition ravi : UserDoc :=
  {| _id := 2; email := "ravi@x.com";
     passwordHash := "$2a$10$pepperpepper$secret2";
     createdAt := 20; updatedAt := 20;
     profile := Some asha_profile; psychometric := None; ai := None |}.

(** A user whose analysis names no course. *)
Definition kiran : UserDoc :=
  {| _id := 3; email := "kiran@x.com";
     passwordHash := "$2a$10$gingerginger$secret3";
     createdAt := 30; updatedAt := 30;
     profile := Some asha_profile; psychometric := None;
     ai :=
       Some {| analysis :=
                 Some {| primaryDomain := "Engineering";
                         recommendedCourses :=
                           [ {| course := ""; reason := "undecided" |} ] |};
               portfolio := None; roadmap := None;
               ai_createdAt := None; ai_model := None |} |}.

Definition mechanical_engineer : JobRoleDoc :=
  {| role_id := 101; title := "Mechanical Engineer"; domain := "Engineering";
     salaryRangeInr := (400000, 900000)%Z; requiredSkills := ["CAD"];
     demandLevel := High; role_courseTags := Some ["mechanical"] |}.

Definition site_supervisor : JobRoleDoc :=
  {| role_id := 102; title := "Site Supervisor"; domain := "Engineering";
     salaryRangeInr := (300000, 600000)%Z; requiredSkills := ["Planning"];
     demandLevel := Medium; role_courseTags := None |}.

Definition nurse : JobRoleDoc :=
  {| role_id := 103; title := "Nurse"; domain := "Healthcare";
     salaryRangeInr := (300000, 700000)%Z; requiredSkills := ["Care"];
     demandLevel := High; role_courseTags := Some ["nursing"] |}.

Definition merit_grant : ScholarshipDoc :=
  {| sch_id := 201; name := "Merit Grant"; url := "https://example.org/merit";
     courseTags := ["mechanical"]; category := Some "Merit";
     academicLevel := "Undergraduate"; deadline := None; amountInr := None;
     eligibility := None |}.

Definition arts_grant : ScholarshipDoc :=
  {| sch_id := 202; name := "Arts Grant"; url := "https://example.org/arts";
     courseTags := ["fine arts"]; category := None;
     academicLevel := "Undergraduate"; deadline := None; amountInr := None;
     eligibility := None |}.

Definition world : World :=
  {| users := [asha; ravi; kiran];
     job_roles := [mechanical_engineer; site_supervisor; nurse];
     scholarships_col := [merit_grant; arts_grant];
     completions := [] |}.

Definition request (id : ObjectId) (q : list (string * qval)) : AuthRequest :=
  {| userId := id; query := list_to_map q; body := JObj ∅ |}.

Definition refresh_request : AuthRequest :=
  request 1 [("refresh", QString "1")].

Definition answers_request (id : ObjectId) (ans : gmap string string)
    : AuthRequest :=
  {| userId := id; query := ∅;
     body := JObj {[ "answers" := JObj (JStr <$> ans) ]} |}.

Definition strings (l : list string) : jsval := JArr (JStr <$> l).

Definition portfolio_json (p : AiPortfolio) : jsval :=
  JObj (list_to_map
          [("strengthSummary", JStr (strengthSummary p));
           ("recommendedSkills", strings (recommendedSkills p));
           ("learningFocusAreas", strings (learningFocusAreas p));
           ("suggestedProjects", strings (suggestedProjects p))]).

(** A stand-in for [JSON.parse], defined on the texts the examples use. *)
Definition parse (s : string) : option jsval :=
  if String.eqb s "{new portfolio}" then Some (portfolio_json new_portfolio)
  else if String.eqb s "[]" then Some (JArr [])
  else None.

(** A stand-in for zod's e-mail pattern. *)
Definition is_email (s : string) : bool := includes "@" s.

(** A stand-in for bcrypt: the salt is kept in the hash, as bcrypt does. *)
Definition bcrypt_hash (password : string) (rounds : nat) (salt : string)
    : string :=
  "$2a$10$" +:+ salt +:+ "$" +:+ password.

Definition bcrypt_compare (password hash : string) : bool :=
  String.eqb (bcrypt_hash password 10 (String.substring 7 12 hash)) hash.

Definition jwt_sign (sub e secret expiresIn : string) : string :=
  sub +:+ "." +:+ e.


(** A stand-in for the message of the JSON parser. *)
Definition parser_message (v : jsval) : string := "Unexpected token in JSON".

Definition credentials (e p : string) : jsval :=
  JObj (list_to_map [("email", JStr e); ("password", JStr p)]).

End Sample.

(** * The rest of the server

    The [auth] middleware, the reading of an [ObjectId] from its hexadecimal
    form, and the vocabulary of the account invariants. *)

(** ** The [auth] middleware *)

(** [String.prototype.startsWith] *)
Definition startsWith (p s : string) : bool := String.prefix p s.

(** [s.slice(n)] for a start [n] that is not negative. *)
Definition slice (n : nat) (s : string) : string :=
  String.substring n (String.length s - n) s.

Section Auth.

Variable env : Env.

(** [jwt.verify(token, secret)]: [None] when it throws (a malformed or
    expired token, a wrong signature); else the [sub] of the decoded payload
    when that is a string, [Some None] when it is not. *)
Variable jwt_verify : string → string → option (option string).

(** [auth], on [req.header("authorization")]: the 401 it answers with, or
    the [req.userId] it sets before calling [next]. *)
Definition auth (h : option string) : Response + string :=
  match h with
  | Some h =>
      if startsWith "Bearer " h
      then
        let token := slice (String.length "Bearer ") h in
        match jwt_verify token (JWT_SECRET env) with
        | Some (Some sub) =>
            if truthy sub then inr sub
            else inl (json 401 (ErrorBody "Invalid token"))
        | Some None => inl (json 401 (ErrorBody "Invalid token"))
        | None => inl (json 401 (ErrorBody "Invalid token"))
        end
      else inl (json 401 (ErrorBody "Missing Authorization header"))
  | None => inl (json 401 (ErrorBody "Missing Authorization header"))
  end.

End Auth.

(** ** Hexadecimal identifiers *)

Definition hex_value (c : ascii) : option N :=
  let n := N_of_ascii c in
  if (48 <=? n)%N && (n <=? 57)%N then Some (n - 48)%N
  else if (97 <=? n)%N && (n <=? 102)%N then Some (n - 87)%N
  else if (65 <=? n)%N && (n <=? 70)%N then Some (n - 55)%N
  else None.

Fixpoint hex_number (s : string) (acc : N) : option N :=
  match s with
  | EmptyString => Some acc
  | String c r =>
      match hex_value c with
      | Some d => hex_number r (16 * acc + d)%N
      | None => None
      end
  end.

(** [new ObjectId(hex)] on a string of 24 hexadecimal digits, which is what
    [auth] passes on for a token that [signToken] made; [None] on any other
    string, which the constructor does not read as hexadecimal. *)
Definition ObjectId_of_hex (s : string) : option ObjectId :=
  if (String.length s =? 24)%nat then hex_number s 0 else None.

(** ** Accounts over time *)

(** What identifies an account and what it logs in with. *)
Definition identity (u : UserDoc) : ObjectId * string * string * Date :=
  (_id u, email u, passwordHash u, createdAt u).

(** The account on whose behalf a request is served, if it is an
    authenticated one. *)
Definition caller (r : Request) : option ObjectId :=
  match r with
  | PostSignup _ _ _ | PostLogin _ => None
  | GetMe req | PostProfile _ req | PostPsychometric _ req
  | GetPortfolio _ _ req | GetRoadmap _ _ req
  | GetJobRoles req | GetScholarships req => Some (userId req)
  end.

(** ** More of the small deployment *)

Module Demo.

(** A stand-in for [jwt.verify] that reads the tokens of [Sample.jwt_sign]:
    24 digits of subject, a dot, the e-mail. *)
Definition jwt_verify (token secret : string) : option (option string) :=
  if (24 <? String.length token)%nat
  then Some (Some (String.substring 0 24 token))
  else None.

Definition profile_body (n : string) (a : Z) (l : string) (i : list string)
    : jsval :=
  JObj (list_to_map
          [("fullName", JStr n); ("age", JNum a); ("educationLevel", JStr l);
           ("interests", JArr (JStr <$> i))]).

Definition profile_request (id : ObjectId) (b : jsval) : AuthRequest :=
  {| userId := id; query := ∅; body := b |}.

End Demo.

(** ** The request bodies the schemas accept *)

(** The body carries an [email] string that the e-mail pattern accepts and
    a [password] string of at least 6 characters, namely those of [c]. *)
Definition credentials_contract (is_email : string → bool) (body : jsval)
    (c : Credentials) : Prop :=
  ∃ m, body = JObj m ∧
       m !! "email" = Some (JStr (cred_email c)) ∧
       is_email (cred_email c) = true ∧
       m !! "password" = Some (JStr (cred_password c)) ∧
       (6 ≤ String.length (cred_password c))%nat.

(** The body carries a [fullName] of at least 2 characters once trimmed, an
    [age] from 12 to 100, an [educationLevel] of the enumeration and a
    non-empty array of [interests], none blank; [p] is what is stored: the
    name and the interests trimmed. *)
Definition profile_contract (body : jsval) (p : UserProfile) : Prop :=
  ∃ m name raw,
    body = JObj m ∧
    m !! "fullName" = Some (JStr name) ∧ fullName p = trim name ∧
    (2 ≤ String.length (trim name))%nat ∧
    m !! "age" = Some (JNum (age p)) ∧ (12 ≤ age p ≤ 100)%Z ∧
    m !! "educationLevel" =
      Some (JStr (EducationLevel_str (educationLevel p))) ∧
    m !! "interests" = Some (JArr (JStr <$> raw)) ∧ raw ≠ [] ∧
    Forall (λ s, trim s ≠ "") raw ∧ interests p = trim <$> raw.

(** * The client library (src/lib/careercraft-api)

    What the pages call the server through.  [fetch] is a parameter: the
    answer of the network to the request it is given.  The requests made are
    returned beside the result, in order. *)

Module Client.

Definition TOKEN_KEY : string := "careercraft:token".

(** Where the library runs: the environment variable of the build, and
    [window.localStorage], [None] where there is no [window]. *)
Record Browser : Type := {
  NEXT_PUBLIC_API_BASE_URL : option string;
  localStorage : option (gmap string string)
}.

(** [s.replace(/\/+$/, "")] *)
Fixpoint strip_trailing_slashes (s : string) : string :=
  match s with
  | EmptyString => EmptyString
  | String c r =>
      match strip_trailing_slashes r with
      | EmptyString =>
          if Ascii.eqb c "/" then EmptyString else String c EmptyString
      | r' => String c r'
      end
  end.

Definition getBaseUrl (b : Browser) : string :=
  match NEXT_PUBLIC_API_BASE_URL b with
  | Some base =>
      if negb (truthy base) then "http://localhost:4000"
      else strip_trailing_slashes base
  | None => "http://localhost:4000"
  end.

Definition getToken (b : Browser) : option string :=
  match localStorage b with
  | None => None
  | Some storage => storage !! TOKEN_KEY
  end.

(** [setToken] and [clearToken] do not test for [window]: [None] is the
    [ReferenceError] they throw where there is none. *)
Definition setToken (token : string) (b : Browser) : option Browser :=
  match localStorage b with
  | None => None
  | Some storage =>
      Some {| NEXT_PUBLIC_API_BASE_URL := NEXT_PUBLIC_API_BASE_URL b;
              localStorage := Some (<[TOKEN_KEY := token]> storage) |}
  end.

Definition clearToken (b : Browser) : option Browser :=
  match localStorage b with
  | None => None
  | Some storage =>
      Some {| NEXT_PUBLIC_API_BASE_URL := NEXT_PUBLIC_API_BASE_URL b;
              localStorage := Some (delete TOKEN_KEY storage) |}
  end.

(** [RequestInit & { auth?: boolean }], as far as the library fills it.
    [headers] is what [new Headers(opts.headers)] holds, names in lower
    case. *)
Record Options : Type := {
  method : option string;
  body : option string;
  auth : bool;
  headers : gmap string string
}.

(** What [fetch] is called with. *)
Record HttpRequest : Type := {
  url : string;
  http_method : option string;
  http_body : option string;
  http_headers : gmap string string
}.

(** What [await fetch(...)] and [await res.text()] give: a rejection, or
    the status and the text of the response. *)
Inductive FetchOutcome : Type :=
| rejects (err : Thrown)
| responds (res_status : nat) (text : string).

(** What a call of the library throws: [new Error(message)], the
    [SyntaxError] of [JSON.parse], or what [fetch] rejected with. *)
Inductive Failure : Type :=
| new_Error (message : jsval)
| JSON_SyntaxError
| rejection (err : Thrown).

(** How a call of the library ends. *)
Inductive Result : Type :=
| returns (data : jsval)
| throws (e : Failure).

(** The errors the engine itself throws in the pages. *)
Inductive EngineError : Type := SyntaxError | TypeError | ReferenceError.

Section Catch.

(** [String(v)] for a value that is not a string. *)
Variable String_of : jsval → string.
(** The [message] of an error of the engine. *)
Variable engine_message : EngineError → string.

(** [String(v)], [None] for [undefined]. *)
Definition to_String (v : option jsval) : string :=
  match v with
  | Some (JStr s) => s
  | Some v => String_of v
  | None => "undefined"
  end.

(** [err instanceof Error ? err.message : fallback] in the [catch] clause
    around a call of the library. *)
Definition message (fallback : string) (e : Failure) : string :=
  match e with
  | new_Error m => to_String (Some m)
  | JSON_SyntaxError => engine_message SyntaxError
  | rejection (ErrorInstance msg) => msg
  | rejection OtherValue => fallback
  end.

End Catch.

(** [res.ok] *)
Definition ok (res_status : nat) : bool :=
  (200 <=? res_status)%nat && (res_status <=? 299)%nat.

(** [data?.error], [None] for [undefined]. *)
Definition data_error (data : jsval) : option jsval :=
  match data with
  | JObj m => m !! "error"
  | _ => None
  end.

(** [x ?? y] *)
Definition nullish_or (x : option jsval) (y : jsval) : jsval :=
  match x with
  | None | Some JNull => y
  | Some v => v
  end.

Section Library.

Variable JSON_parse : string → option jsval.
Variable JSON_stringify : jsval → string.
Variable fetch : HttpRequest → FetchOutcome.
Variable b : Browser.

Definition fetchJson (path : string) (opts : Options)
    : Result * list HttpRequest :=
  let url :=
    getBaseUrl b +:+ (if startsWith "/" path then path else "/" +:+ path) in
  let headers := <["content-type" := "application/json"]> (headers opts) in
  let authorized :=
    if auth opts then
      match getToken b with
      | Some token =>
          if negb (truthy token) then None
          else Some (<["authorization" := "Bearer " +:+ token]> headers)
      | None => None
      end
    else Some headers in
  match authorized with
  | None => (throws (new_Error (JStr "Not authenticated")), [])
  | Some headers =>
      let request :=
        {| url := url; http_method := method opts; http_body := body opts;
           http_headers := headers |} in
      match fetch request with
      | rejects err => (throws (rejection err), [request])
      | responds res_status text =>
          match (if truthy text then JSON_parse text else Some JNull) with
          | None => (throws JSON_SyntaxError, [request])
          | Some data =>
              if negb (ok res_status) then
                let msg :=
                  nullish_or (data_error data)
                    (JStr ("Request failed (" +:+ pretty res_status +:+ ")")) in
                (throws (new_Error msg), [request])
              else (returns data, [request])
          end
      end
  end.

Definition credentials_json (email password : string) : jsval :=
  JObj {[ "email" := JStr email; "password" := JStr password ]}.

Definition apiSignup (email password : string) : Result * list HttpRequest :=
  fetchJson "/auth/signup"
    {| method := Some "POST";
       body := Some (JSON_stringify (credentials_json email password));
       auth := false; headers := ∅ |}.

Definition apiLogin (email password : string) : Result * list HttpRequest :=
  fetchJson "/auth/login"
    {| method := Some "POST";
       body := Some (JSON_stringify (credentials_json email password));
       auth := false; headers := ∅ |}.

Definition apiSavePsychometric (answers : gmap string string)
    : Result * list HttpRequest :=
  fetchJson "/user/psychometric"
    {| method := Some "POST";
       body :=
         Some (JSON_stringify (JObj {[ "answers" := JObj (JStr <$> answers) ]}));
       auth := true; headers := ∅ |}.

Definition apiAnalyze : Result * list HttpRequest :=
  fetchJson "/ai/analyze"
    {| method := Some "POST"; body := Some (JSON_stringify (JObj ∅));
       auth := true; headers := ∅ |}.

Definition apiGetPortfolio (refresh : bool) : Result * list HttpRequest :=
  let q := if refresh then "?refresh=1" else "" in
  fetchJson ("/ai/portfolio" +:+ q)
    {| method := None; body := None; auth := true; headers := ∅ |}.

Definition apiGetRoadmap (refresh : bool) : Result * list HttpRequest :=
  let q := if refresh then "?refresh=1" else "" in
  fetchJson ("/ai/career-roadmap" +:+ q)
    {| method := None; body := None; auth := true; headers := ∅ |}.

End Library.

(** A call with these options reaches [fetch]: it asks for no
    authentication, or a token is stored. *)
Definition reaches_fetch (b : Browser) (opts : Options) : Prop :=
  auth opts = false ∨ ∃ token, getToken b = Some token ∧ token ≠ "".

(** What [fetchJson] makes of the answer of the network. *)
Definition settle (JSON_parse : string → option jsval) (o : FetchOutcome)
    : Result :=
  match o with
  | rejects err => throws (rejection err)
  | responds res_status text =>
      match (if truthy text then JSON_parse text else Some JNull) with
      | None => throws JSON_SyntaxError
      | Some data =>
          if ok res_status then returns data
          else
            throws
              (new_Error
                 (nullish_or (data_error data)
                    (JStr ("Request failed (" +:+ pretty res_status +:+ ")"))))
      end
  end.

(** The call made with request [q] returns. *)
Definition returned (JSON_parse : string → option jsval)
    (fetch : HttpRequest → FetchOutcome) (q : HttpRequest) : Prop :=
  ∃ data, settle JSON_parse (fetch q) = returns data.

(** A non-empty token is stored. *)
Definition has_token (b : Browser) : Prop :=
  ∃ token, getToken b = Some token ∧ token ≠ "".

(** The last character of a string is a slash. *)
Fixpoint ends_with_slash (s : string) : bool :=
  match s with
  | EmptyString => false
  | String c EmptyString => Ascii.eqb c "/"
  | String _ r => ends_with_slash r
  end.

End Client.

(** * The questionnaire page

    The state of [PsychometricTestPage] and its event handlers.  An event is
    handled on the state of the latest render, as React does for clicks. *)

Module PsychometricTestPage.

Record Choice : Type := {
  choice_id : string;
  label : string
}.

Record Question : Type := {
  id : string;
  title : string;
  subtitle : option string;
  choices : list Choice
}.

Definition questions : list Question :=
  [
    {| id := "q1";
       title := "Which activity feels most fun to you?";
       subtitle := Some "Pick the option you'd naturally choose on a free day.";
       choices :=
       [ {| choice_id := "a";
           label := "Building or fixing things (gadgets, models, DIY)" |};
         {| choice_id := "b"; label := "Solving puzzles or logic games" |};
         {| choice_id := "c";
           label := "Creating art/designs or writing something original" |};
         {| choice_id := "d"; label := "Helping or guiding people" |} ] |};
    {| id := "q2";
       title := "When you face a difficult problem, you usually…";
       subtitle := None;
       choices :=
       [ {| choice_id := "a";
           label := "Break it into steps and solve it systematically" |};
         {| choice_id := "b";
           label := "Try a creative approach and experiment" |};
         {| choice_id := "c";
           label := "Ask someone and discuss possible solutions" |};
         {| choice_id := "d";
           label := "Look up examples and learn from them" |} ] |};
    {| id := "q3";
       title := "Which subject area do you feel most confident in?";
       subtitle := None;
       choices :=
       [ {| choice_id := "a"; label := "Math / Logical reasoning" |};
         {| choice_id := "b"; label := "Science / Experiments" |};
         {| choice_id := "c"; label := "Language / Communication" |};
         {| choice_id := "d"; label := "Art / Creativity" |} ] |};
    {| id := "q4";
       title := "How do you prefer to work?";
       subtitle := None;
       choices :=
       [ {| choice_id := "a"; label := "Independently with deep focus" |};
         {| choice_id := "b"; label := "In a team with shared ideas" |};
         {| choice_id := "c";
           label := "A mix of both, depending on the task" |};
         {| choice_id := "d"; label := "Leading or organizing people" |} ] |};
    {| id := "q5";
       title := "You're given a new tool/app. What do you do first?";
       subtitle := None;
       choices :=
       [ {| choice_id := "a";
           label := "Explore settings and features immediately" |};
         {| choice_id := "b";
           label := "Watch a quick tutorial and follow along" |};
         {| choice_id := "c"; label := "Try it and learn by doing" |};
         {| choice_id := "d"; label := "Ask friends how they use it" |} ] |};
    {| id := "q6";
       title := "Which describes you best?";
       subtitle := None;
       choices :=
       [ {| choice_id := "a";
           label := "I enjoy patterns, rules, and accuracy" |};
         {| choice_id := "b";
           label := "I enjoy ideas, stories, and imagination" |};
         {| choice_id := "c";
           label := "I enjoy people, teamwork, and support" |};
         {| choice_id := "d";
           label := "I enjoy planning, goals, and results" |} ] |};
    {| id := "q7";
       title := "When learning something new, you prefer…";
       subtitle := None;
       choices :=
       [ {| choice_id := "a"; label := "Examples + practice problems" |};
         {| choice_id := "b"; label := "Projects that build something real" |};
         {| choice_id := "c"; label := "Group activities and discussions" |};
         {| choice_id := "d"; label := "Reading and taking notes" |} ] |};
    {| id := "q8";
       title := "Which type of challenge excites you more?";
       subtitle := None;
       choices :=
       [ {| choice_id := "a"; label := "Coding/tech challenges" |};
         {| choice_id := "b"; label := "Design/creative challenges" |};
         {| choice_id := "c"; label := "Leadership/people challenges" |};
         {| choice_id := "d";
           label := "Hands-on engineering/build challenges" |} ] |};
    {| id := "q9";
       title := "How comfortable are you with presenting or speaking?";
       subtitle := None;
       choices :=
       [ {| choice_id := "a"; label := "Very comfortable" |};
         {| choice_id := "b"; label := "Somewhat comfortable" |};
         {| choice_id := "c"; label := "I prefer small groups" |};
         {| choice_id := "d"; label := "I prefer not to present" |} ] |};
    {| id := "q10";
       title := "Pick a future environment you'd enjoy most:";
       subtitle := None;
       choices :=
       [ {| choice_id := "a";
           label := "Tech-focused office/lab with problem solving" |};
         {| choice_id := "b"; label := "Creative studio/media environment" |};
         {| choice_id := "c";
           label := "People-focused workplace (teaching/counseling/team)" |};
         {| choice_id := "d";
           label := "Field/site environment with practical work" |} ] |}
  ].

Definition total : nat := length questions.

(** The four pieces of state the handlers below read and write. *)
Record State : Type := {
  index : nat;
  answers : gmap string string;
  touched : bool;
  done : bool
}.

(** The state of the first render. *)
Definition initial : State :=
  {| index := 0; answers := ∅; touched := false; done := false |}.

(** [const q = questions[index]] *)
Definition q (st : State) : option Question := questions !! index st.

(** [choose] *)
Definition choose (choiceId : string) (st : State) : State :=
  match q st with
  | None => st
  | Some qq =>
      {| index := index st; answers := <[id qq := choiceId]> (answers st);
         touched := false; done := done st |}
  end.

(** [next] *)
Definition next (st : State) : State :=
  match q st with
  | None => st
  | Some qq =>
      if negb (truthy_opt (answers st !! id qq))
      then {| index := index st; answers := answers st; touched := true;
              done := done st |}
      else if (index st =? total - 1)%nat
      then {| index := index st; answers := answers st;
              touched := touched st; done := true |}
      else {| index := Nat.min (index st + 1) (total - 1);
              answers := answers st; touched := touched st;
              done := done st |}
  end.

(** [back] *)
Definition back (st : State) : State :=
  {| index := Nat.max (index st - 1) 0; answers := answers st;
     touched := false; done := false |}.

(** [restart] *)
Definition restart (st : State) : State :=
  {| index := 0; answers := ∅; touched := false; done := false |}.

Inductive Event : Type :=
| Choose (choiceId : string)
| Next
| Back
| Restart.

Definition handle_event (st : State) (e : Event) : State :=
  match e with
  | Choose c => choose c st
  | Next => next st
  | Back => back st
  | Restart => restart st
  end.

(** The state after a sequence of events, from the first render. *)
Definition run (es : list Event) : State := foldl handle_event initial es.

(** The choice made by an event, if it makes one. *)
Definition chosen (e : Event) : option string :=
  match e with Choose c => Some c | _ => None end.

(** The body [continueToResults] posts through [apiSavePsychometric]:
    [JSON.stringify({ answers })], as the server's JSON parser reads it. *)
Definition submission (st : State) : jsval :=
  JObj {[ "answers" := JObj (JStr <$> answers st) ]}.

(** What [continueToResults] leaves behind once it has run to its end: the
    two state cells it sets, the requests made and the address navigated
    to. *)
Record Outcome : Type := {
  submitting : bool;
  submitError : option string;
  requests : list Client.HttpRequest;
  location_href : option string
}.

Section Submit.

Variable JSON_parse : string → option jsval.
Variable JSON_stringify : jsval → string.
Variable fetch : Client.HttpRequest → Client.FetchOutcome.
Variable String_of : jsval → string.
Variable engine_message : Client.EngineError → string.
Variable b : Client.Browser.

Definition continueToResults (st : State) : Outcome :=
  let caught (err : Client.Failure) (requests : list Client.HttpRequest) :=
    {| submitting := false;
       submitError :=
         Some (Client.message String_of engine_message
                 "Failed to generate results" err);
       requests := requests; location_href := None |} in
  let '(saved, requests1) :=
    Client.apiSavePsychometric JSON_parse JSON_stringify fetch b (answers st) in
  match saved with
  | Client.throws err => caught err requests1
  | Client.returns _ =>
      let '(analyzed, requests2) :=
        Client.apiAnalyze JSON_parse JSON_stringify fetch b in
      match analyzed with
      | Client.throws err => caught err (requests1 ++ requests2)
      | Client.returns _ =>
          {| submitting := false; submitError := None;
             requests := requests1 ++ requests2;
             location_href := Some "/results" |}
      end
  end.

End Submit.

(** Question [j] has an answer, and not the empty one. *)
Definition answered (st : State) (j : nat) : Prop :=
  ∃ qq v, questions !! j = Some qq ∧ answers st !! id qq = Some v ∧ v ≠ "".

(** What every reachable state satisfies. *)
Definition invariant (st : State) : Prop :=
  (index st < total)%nat ∧
  (∀ j, (j < index st)%nat → answered st j) ∧
  (done st = true → index st = (total - 1)%nat ∧ answered st (index st)) ∧
  map_Forall (λ k v, v ≠ "" ∧ k ∈ id <$> questions) (answers st).

(** Ten answers, one after the other. *)
Definition all_a : list Event :=
  [Choose "a"; Next; Choose "b"; Next; Choose "c"; Next; Choose "d"; Next;
   Choose "a"; Next; Choose "b"; Next; Choose "c"; Next; Choose "d"; Next;
   Choose "a"; Next; Choose "b"; Next].

End PsychometricTestPage.

(** Every character of the string is below U+0080: the strings on which
    [trim] and [toLowerCase] are the built-ins of JavaScript. *)
Fixpoint seven_bit (s : string) : bool :=
  match s with
  | EmptyString => true
  | String c r => (nat_of_ascii c <? 128)%nat && seven_bit r
  end.

(** The strings of a query are all of 7-bit characters. *)
Definition seven_bit_query (q : gmap string qval) : Prop :=
  ∀ k raw, q !! k = Some (QString raw) → seven_bit raw = true.

(** A string that does not begin with white space. *)
Definition starts_black (s : string) : Prop :=
  match s with
  | EmptyString => True
  | String c _ => is_white c = false
  end.

(** The [error] of a body the server sends, if it has one. *)
Definition body_error (b : Body) : option string :=
  match b with
  | ErrorBody e | ErrorDetails e _ | ErrorRaw e _ => Some e
  | _ => None
  end.

(** [k] slashes. *)
Fixpoint slashes (k : nat) : string :=
  match k with
  | O => EmptyString
  | S k' => String "/" (slashes k')
  end.

(** The status codes of each route: those its handler writes, and the 500
    of the global error handler. *)
Definition route_statuses (r : Request) : list nat :=
  match r with
  | PostSignup _ _ _ => [201; 400; 409; 500]
  | PostLogin _ => [200; 400; 401; 500]
  | GetMe _ => [200; 404; 500]
  | PostProfile _ _ | PostPsychometric _ _ => [200; 400; 404; 500]
  | GetPortfolio _ _ _ | GetRoadmap _ _ _ => [200; 400; 404; 500; 502]
  | GetJobRoles _ | GetScholarships _ => [200; 400; 404; 500]
  end.

(** * The login page (src/app/results/page.tsx, [LoginPage])

    ** Regular expressions

    The patterns of the page use character classes, sequence and [+] between
    [^] and [$]: testing one is deciding whether the whole string is in its
    language, done here by derivatives. *)

Module Regex.

Inductive regex : Type :=
| Never
| Empty
| Class (p : ascii → bool)
| Seq (r s : regex)
| Alt (r s : regex)
| Star (r : regex).

(** [r+] *)
Definition Plus (r : regex) : regex := Seq r (Star r).

Fixpoint nullable (r : regex) : bool :=
  match r with
  | Never => false
  | Empty => true
  | Class _ => false
  | Seq r s => nullable r && nullable s
  | Alt r s => nullable r || nullable s
  | Star _ => true
  end.

Fixpoint derive (c : ascii) (r : regex) : regex :=
  match r with
  | Never => Never
  | Empty => Never
  | Class p => if p c then Empty else Never
  | Seq r s =>
      if nullable r then Alt (Seq (derive c r) s) (derive c s)
      else Seq (derive c r) s
  | Alt r s => Alt (derive c r) (derive c s)
  | Star r => Seq (derive c r) (Star r)
  end.

(** [/^r$/.test(s)] *)
Fixpoint test (r : regex) (s : string) : bool :=
  match s with
  | EmptyString => nullable r
  | String c s' => test (derive c r) s'
  end.

(** The language of a pattern. *)
Inductive Matches : regex → string → Prop :=
| MEmpty : Matches Empty ""
| MClass p c : p c = true → Matches (Class p) (String c "")
| MSeq r s x y : Matches r x → Matches s y → Matches (Seq r s) (x +:+ y)
| MAltL r s x : Matches r x → Matches (Alt r s) x
| MAltR r s x : Matches s x → Matches (Alt r s) x
| MStar0 r : Matches (Star r) ""
| MStarS r x y : Matches r x → Matches (Star r) y → Matches (Star r) (x +:+ y).

(** Every character of the string satisfies [p]. *)
Fixpoint all_chars (p : ascii → bool) (s : string) : bool :=
  match s with
  | EmptyString => true
  | String c s' => p c && all_chars p s'
  end.

End Regex.

Module LoginPage.

Record LoginValues : Type := {
  email : string;
  password : string
}.

(** [Partial<Record<keyof LoginValues, string>>] *)
Record LoginErrors : Type := {
  email_error : option string;
  password_error : option string
}.

(** [[^\s@]] *)
Definition not_space_or_at (c : ascii) : bool :=
  negb (is_white c || Ascii.eqb c "@").

(** [/^[^\s@]+@[^\s@]+\.[^\s@]+$/] *)
Definition email_pattern : Regex.regex :=
  Regex.Seq (Regex.Plus (Regex.Class not_space_or_at))
    (Regex.Seq (Regex.Class (Ascii.eqb "@"))
       (Regex.Seq (Regex.Plus (Regex.Class not_space_or_at))
          (Regex.Seq (Regex.Class (Ascii.eqb "."))
             (Regex.Plus (Regex.Class not_space_or_at))))).

Definition isValidEmail (email : string) : bool :=
  Regex.test email_pattern (trim email).

(** The [errors] memo. *)
Definition errors (values : LoginValues) : LoginErrors :=
  {| email_error :=
       if negb (truthy (trim (email values))) then Some "Email is required."
       else if negb (isValidEmail (email values))
       then Some "Enter a valid email address."
       else None;
     password_error :=
       if negb (truthy (password values)) then Some "Password is required."
       else if (String.length (password values) <? 6)%nat
       then Some "Password must be at least 6 characters."
       else None |}.

(** [Object.keys(errors)] *)
Definition keys (e : LoginErrors) : list string :=
  match email_error e with Some _ => ["email"] | None => [] end ++
  match password_error e with Some _ => ["password"] | None => [] end.

Record State : Type := {
  values : LoginValues;
  touched : gmap string bool;
  submitted : bool;
  apiError : option string;
  loading : bool
}.

(** What [onSubmit] leaves behind once it has run to its end: the state, the
    browser's storage, the requests made and the address navigated to. *)
Record Outcome : Type := {
  state : State;
  browser : Client.Browser;
  requests : list Client.HttpRequest;
  location_href : option string
}.

Section Page.

Variable JSON_parse : string → option jsval.
Variable JSON_stringify : jsval → string.
Variable fetch : Client.HttpRequest → Client.FetchOutcome.
(** [String(v)] for a value that is not a string. *)
Variable String_of : jsval → string.
(** The [message] of an error of the engine. *)
Variable engine_message : Client.EngineError → string.

Definition onSubmit (st : State) (b : Client.Browser) : Outcome :=
  let st := {| values := values st;
               touched := {[ "email" := true; "password" := true ]};
               submitted := submitted st; apiError := None;
               loading := loading st |} in
  if (0 <? length (keys (errors (values st))))%nat
  then {| state := st; browser := b; requests := []; location_href := None |}
  else
    let '(result, requests) :=
      Client.apiLogin JSON_parse JSON_stringify fetch b
        (trim (email (values st))) (password (values st)) in
    let caught (msg : string) : Outcome :=
      {| state := {| values := values st; touched := touched st;
                     submitted := submitted st; apiError := Some msg;
                     loading := false |};
         browser := b; requests := requests; location_href := None |} in
    match result with
    | Client.returns JNull => caught (engine_message Client.TypeError)
    | Client.returns resp =>
        let token :=
          match resp with JObj m => m !! "token" | _ => None end in
        match Client.setToken (Client.to_String String_of token) b with
        | None => caught (engine_message Client.ReferenceError)
        | Some b' =>
            {| state := {| values := values st; touched := touched st;
                           submitted := submitted st; apiError := None;
                           loading := false |};
               browser := b'; requests := requests;
               location_href := Some "/test" |}
        end
    | Client.throws err =>
        caught (Client.message String_of engine_message "Login failed" err)
    end.

End Page.

(** The address has the shape the page asks for: no white space, one [@]
    after at least one character, and after it a dot with at least one
    character on each side. *)
Definition well_formed_address (s : string) : Prop :=
  ∃ l d t,
    s = l +:+ "@" +:+ d +:+ "." +:+ t ∧
    l ≠ "" ∧ d ≠ "" ∧ t ≠ "" ∧
    Regex.all_chars not_space_or_at l = true ∧
    Regex.all_chars not_space_or_at d = true ∧
    Regex.all_chars not_space_or_at t = true.

End LoginPage.

Module ClientDemo.

(** The token [Sample.jwt_sign] makes for [Sample.asha]. *)
Definition token : string := "000000000000000000000001.asha@x.com".

Definition browser : Client.Browser :=
  {| Client.NEXT_PUBLIC_API_BASE_URL := Some "https://api.example.org//";
     Client.localStorage := Some {[ Client.TOKEN_KEY := token ]} |}.

(** The same during server-side rendering, where there is no [window]. *)
Definition server_side : Client.Browser :=
  {| Client.NEXT_PUBLIC_API_BASE_URL := Some "https://api.example.org//";
     Client.localStorage := None |}.

Definition get : Client.Options :=
  {| Client.method := None; Client.body := None; Client.auth := true;
     Client.headers := ∅ |}.

(** A stand-in for [JSON.parse], defined on the texts of two responses. *)
Definition parse (s : string) : option jsval :=
  if String.eqb s "{error: User not found}"
  then Some (JObj {[ "error" := JStr "User not found" ]})
  else if String.eqb s "{token: asha}"
  then Some (JObj {[ "token" := JStr token ]})
  else None.

Definition stringify (v : jsval) : string := "{credentials}".

Definition String_of (v : jsval) : string := "[object Object]".

Definition engine_message (e : Client.EngineError) : string :=
  "Cannot read properties of null".

(** The browser before anybody has logged in. *)
Definition logged_out : Client.Browser :=
  {| Client.NEXT_PUBLIC_API_BASE_URL := Some "https://api.example.org//";
     Client.localStorage := Some ∅ |}.

(** The form as [Sample.asha] fills it. *)
Definition form : LoginPage.State :=
  {| LoginPage.values :=
       {| LoginPage.email := " asha@x.com "; LoginPage.password := "secret1" |};
     LoginPage.touched := ∅; LoginPage.submitted := false;
     LoginPage.apiError := None; LoginPage.loading := false |}.

(** A network that answers every request with the same response. *)
Definition answers (res_status : nat) (text : string)
    (q : Client.HttpRequest) : Client.FetchOutcome :=
  Client.responds res_status text.

End ClientDemo.

(** The [token] of a body the server sends, if it has one. *)
Definition body_token (b : Body) : option string :=
  match b with
  | AuthBody token _ _ => Some token
  | _ => None
  end.

(** * Properties *)

(** ** The store *)

Lemma findOne_id_Some id us u :
  findOne_id id us = Some u → _id u = id ∧ In u us.
Proof.
  unfold findOne_id. intros H. apply find_some in H as [Hin Heq].
  apply N.eqb_eq in Heq. done.
Qed.

Lemma findOne_email_Some e us u :
  findOne_email e us = Some u → email u = e ∧ In u us.
Proof.
  unfold findOne_email. intros H. apply find_some in H as [Hin Heq].
  apply String.eqb_eq in Heq. done.
Qed.

Lemma findOne_email_None e us :
  findOne_email e us = None ↔ ¬ In e (email <$> us).
Proof.
  unfold findOne_email. induction us as [|u r IH]; simpl.
  - split; [intros _ [] | done].
  - destruct (String.eqb_spec (email u) e) as [->|Hne].
    + split; [done | intros H; destruct H; by left].
    + rewrite IH. split.
      * intros H [?|?]; [done | by apply H].
      * intros H ?. apply H. by right.
Qed.

(** An update of a stored document is seen by the next [findOne], as long as
    [$set] leaves [_id] alone. *)
Lemma updateOne_found id set us u :
  findOne_id id us = Some u →
  _id (set u) = _id u →
  ∃ us', updateOne id set us = (1, us') ∧
         findOne_id id us' = Some (set u) ∧
         length us' = length us.
Proof.
  unfold findOne_id. intros Hf Hid.
  induction us as [|v r IH]; simpl in *; [done|].
  destruct (N.eqb (_id v) id) eqn:E.
  - injection Hf as ->. eexists. split; [done|]. simpl.
    rewrite Hid, E. done.
  - destruct (IH Hf) as (us' & -> & Hf' & Hl).
    eexists. split; [done|]. simpl. rewrite E. split; [done | by rewrite Hl].
Qed.

Lemma updateOne_missing id set us :
  findOne_id id us = None → updateOne id set us = (0, us).
Proof.
  unfold findOne_id. induction us as [|v r IH]; simpl; [done|].
  destruct (N.eqb (_id v) id); [done|]. intros H. by rewrite (IH H).
Qed.

(** No [$set] of the server touches [email]. *)
Lemma updateOne_emails id set us :
  (∀ u, email (set u) = email u) →
  email <$> (updateOne id set us).2 = email <$> us.
Proof.
  intros Hset. induction us as [|v r IH]; simpl; [done|].
  destruct (N.eqb (_id v) id); simpl.
  - by rewrite Hset.
  - destruct (updateOne id set r) as [n r']. simpl in *. by f_equal.
Qed.

Lemma new_ObjectId_above us u :
  In u us → (_id u < new_ObjectId us)%N.
Proof.
  unfold new_ObjectId. induction us as [|v r IH]; simpl; [done|].
  intros [->|Hin]; [lia|]. specialize (IH Hin). lia.
Qed.

(** [insertOne] of a document with a new identifier fails exactly on a
    stored e-mail. *)
Lemma insertOne_new d us :
  _id d = new_ObjectId us →
  insertOne d us =
    if bool_decide (findOne_email (email d) us = None)
    then inr (us ++ [d]) else inl E11000.
Proof.
  intros Hid. unfold insertOne.
  destruct (existsb _ us) eqn:E.
  - apply existsb_exists in E as (u & Hin & Hu).
    apply orb_true_iff in Hu as [Hu|Hu].
    + apply N.eqb_eq in Hu. pose proof (new_ObjectId_above us u Hin). lia.
    + apply String.eqb_eq in Hu. rewrite bool_decide_eq_false_2; [done|].
      rewrite findOne_email_None. intros Hn. apply Hn.
      rewrite <- Hu. apply in_map_iff. eauto.
  - rewrite bool_decide_eq_true_2; [done|].
    rewrite findOne_email_None. intros Hin.
    apply in_map_iff in Hin as (u & Hu & Hin).
    assert (existsb (λ u0, (_id u0 =? _id d)%N || (email u0 =? email d)%string) us
            = true) as Hex; [|congruence].
    apply existsb_exists. exists u. split; [done|].
    apply orb_true_iff. right. by apply String.eqb_eq.
Qed.

Lemma includes_E11000 : includes "E11000" E11000 = true.
Proof. reflexivity. Qed.

(** ** zod *)

Arguments z_string_min : simpl never.
Arguments z_array : simpl never.
Arguments z_record : simpl never.

Lemma length_nonempty (s : string) : (1 ≤ String.length s)%nat ↔ s ≠ "".
Proof. destruct s; simpl; split; (done || lia). Qed.

Lemma truthy_nonempty (s : string) : truthy s = true ↔ s ≠ "".
Proof. destruct s; simpl; split; done. Qed.

Lemma sp_ap_success {A B} (f : SafeParse (A → B)) (x : SafeParse A) r :
  f <*> x = success r ↔ ∃ g a, f = success g ∧ x = success a ∧ r = g a.
Proof.
  split.
  - destruct f, x; simpl; intros H; try done. injection H as <-. eauto.
  - intros (g & a & -> & -> & ->). done.
Qed.

Lemma sp_map_success {A B} (f : A → B) (x : SafeParse A) r :
  f <$> x = success r ↔ ∃ a, x = success a ∧ r = f a.
Proof.
  split.
  - destruct x; simpl; intros H; try done. injection H as <-. eauto.
  - intros (a & -> & ->). done.
Qed.

Lemma z_string_min_success n p v s :
  z_string_min n p v = success s ↔
  v = Some (JStr s) ∧ (n ≤ String.length s)%nat.
Proof.
  unfold z_string_min. split.
  - destruct v as [[]|]; try done.
    destruct (Nat.leb_spec n (String.length s0)) as [Hle|Hgt]; [|done].
    intros Heq. injection Heq as ->. done.
  - intros [-> H]. apply Nat.leb_le in H. by rewrite H.
Qed.



Lemma length_issues_nil lo hi n p :
  length_issues lo (Some hi) n p = [] ↔ (lo ≤ n ≤ hi)%nat.
Proof.
  unfold length_issues.
  destruct (Nat.ltb_spec n lo), (Nat.ltb_spec hi n); simpl; split;
    (done || lia).
Qed.

Lemma length_issues_nil_unbounded lo n p :
  length_issues lo None n p = [] ↔ (lo ≤ n)%nat.
Proof.
  unfold length_issues.
  destruct (Nat.ltb_spec n lo); simpl; split; (done || lia).
Qed.

(** An array schema accepts exactly the arrays within the length bounds
    whose every element its element schema accepts. *)
Lemma z_array_success {T} (elem : Schema T) lo hi p v l' :
  z_array elem lo hi p v = success l' ↔
  ∃ l, v = Some (JArr l) ∧ length_issues lo hi (length l) p = [] ∧
       parse_items elem p 0 l = success l'.
Proof.
  unfold z_array. split.
  - destruct v as [[]|]; try done.
    destruct (length_issues lo hi (length l) p) eqn:E.
    + intros H. eauto.
    + destruct (parse_items elem p 0 l); done.
  - intros (l & -> & -> & H). done.
Qed.



Lemma z_array_out_of_bounds {T} (elem : Schema T) lo hi p l :
  ¬ (lo ≤ length l ≤ hi)%nat →
  is_success (z_array elem lo (Some hi) p (Some (JArr l))) = false.
Proof.
  intros H. destruct (z_array _ _ _ _ _) eqn:E; [|done].
  apply z_array_success in E as (l0 & Hl & Hlen & _). injection Hl as <-.
  by apply length_issues_nil in Hlen.
Qed.

Lemma parse_entries_strings n p (l : list (string * jsval)) l' :
  parse_entries (z_string_min n) p l = success l' ↔
  l = prod_map id JStr <$> l' ∧
  Forall (λ kv, (n ≤ String.length kv.2)%nat) l'.
Proof.
  revert l'. induction l as [|[k x] r IH]; intros l'; simpl.
  - split.
    + intros H. injection H as <-. done.
    + intros [H _]. by destruct l'.
  - rewrite sp_ap_success. split.
    + intros (g & a & Hg & Ha & ->).
      apply sp_map_success in Hg as (s & Hs & ->).
      apply z_string_min_success in Hs as [Hs Hn]. injection Hs as ->.
      apply IH in Ha as [-> Hall]. split; [done | by constructor].
    + intros [Hl Hall]. destruct l' as [|[k' s] t]; [done|].
      injection Hl as -> -> ->. inversion Hall; subst.
      eexists _, t. split; [|split; [|done]].
      * apply sp_map_success. exists s. split; [|done].
        by apply z_string_min_success.
      * by apply IH.
Qed.

(** A record schema over non-empty strings accepts an object exactly when
    all its values are such strings, and returns them under their keys,
    [__proto__] left out. *)
Lemma z_record_strings n p v (ans : gmap string string) :
  z_record (z_string_min n) p v = success ans ↔
  ∃ sent : gmap string string,
    v = Some (JObj (JStr <$> sent)) ∧
    (∀ k s, sent !! k = Some s → (n ≤ String.length s)%nat) ∧
    ans = delete "__proto__" sent.
Proof.
  unfold z_record. split.
  - destruct v as [[]|]; try done.
    intros H. apply sp_map_success in H as (l' & Hl' & ->).
    apply parse_entries_strings in Hl' as [Hm Hall].
    assert (NoDup l'.*1) as Hnd.
    { pose proof (NoDup_fst_map_to_list m) as Hn. rewrite Hm in Hn.
      rewrite <- list_fmap_compose in Hn.
      erewrite list_fmap_ext in Hn; [exact Hn|]. by intros ? []. }
    exists (list_to_map l'). split; [|split; [|done]].
    + f_equal. f_equal. rewrite <- (list_to_map_to_list m), Hm.
      by rewrite list_to_map_fmap.
    + intros k s Hk. apply elem_of_list_to_map in Hk; [|done].
      rewrite Forall_forall in Hall. by apply (Hall (k, s)).
  - intros (sent & -> & Hall & ->). apply sp_map_success.
    exists (map_to_list sent). split; [|by rewrite list_to_map_to_list].
    apply parse_entries_strings. split.
    + by rewrite map_to_list_fmap.
    + apply Forall_forall. intros [k s] Hin.
      apply elem_of_map_to_list in Hin. by apply (Hall k s).
Qed.

(** *** The declared output schemas *)






(** ** The AI endpoints *)

Lemma get_ai_portfolio_endpoint env JSON_parse :
  get_ai_portfolio env JSON_parse = ai_endpoint portfolio_slot env JSON_parse.
Proof. reflexivity. Qed.

Lemma get_ai_career_roadmap_endpoint env JSON_parse :
  get_ai_career_roadmap env JSON_parse = ai_endpoint roadmap_slot env JSON_parse.
Proof. reflexivity. Qed.

Lemma portfolio_slot_laws : SlotLaws portfolio_slot.
Proof. split; reflexivity. Qed.

Lemma roadmap_slot_laws : SlotLaws roadmap_slot.
Proof. split; reflexivity. Qed.

(** *** Prerequisite gates *)

Lemma generation_attempt_bypass {T} (s : Slot T) req u :
  generation_attempt s req u →
  (if bool_decide (qString (query req !! "refresh") = Some "1")
   then None else ai u ≫= slot_get s) = None.
Proof. intros [H|H]; case_bool_decide; done. Qed.

Lemma getOpenAIClient_inl env msg :
  getOpenAIClient env = inl msg → msg = "OpenAI API key not configured".
Proof.
  unfold getOpenAIClient.
  destruct (OPENAI_API_KEY env) as [k|]; [destruct (truthy k)|]; congruence.
Qed.

Lemma getOpenAIClient_truthy env :
  truthy_opt (OPENAI_API_KEY env) = bool_decide (is_Some (
    match getOpenAIClient env with inr k => Some k | inl _ => None end)).
Proof.
  unfold getOpenAIClient, truthy_opt.
  destruct (OPENAI_API_KEY env) as [k|]; [destruct (truthy k)|]; done.
Qed.

Lemma ai_endpoint_gates {T} (s : Slot T) env JSON_parse now completion req w u :
  findOne_id (userId req) (users w) = Some u →
  generation_attempt s req u →
  gate_outcome env u w (ai_endpoint s env JSON_parse now completion req w).
Proof.
  intros Hu Hgen. unfold gate_outcome, first_failing_gate, ai_endpoint.
  rewrite Hu. cbv zeta. rewrite (generation_attempt_bypass _ _ _ Hgen).
  simpl. rewrite getOpenAIClient_truthy.
  destruct (profile u) eqn:Hpr; simpl; [|done].
  destruct (psychometric u) eqn:Hps; simpl; [|done].
  destruct (ai u ≫= analysis) eqn:Han; simpl; [|done].
  destruct (getOpenAIClient env) as [msg|k] eqn:E; simpl.
  { by rewrite (getOpenAIClient_inl _ _ E). }
  split.
  { intros []; cbn [gate_passes];
      rewrite ?Hpr, ?Hps, ?Han, ?getOpenAIClient_truthy, ?E;
      by apply bool_decide_eq_true_2. }
  destruct completion as [|[c|]]; [by eexists| |by eexists].
  destruct (negb (truthy c)); [by eexists|].
  destruct (JSON_parse c) as [j|]; [|by eexists].
  destruct (slot_schema s j); [|by eexists].
  destruct (updateOne _ _ _). by eexists.
Qed.

(** *** Cache reads *)

Lemma ai_endpoint_cached {T} (s : Slot T) env JSON_parse now completion req w u c :
  findOne_id (userId req) (users w) = Some u →
  qString (query req !! "refresh") ≠ Some "1" →
  ai u ≫= slot_get s = Some c →
  ai_endpoint s env JSON_parse now completion req w =
    (json 200 (slot_body s (model c) (cached_createdAt c) (data c)), w).
Proof.
  intros Hu Hr Hc. unfold ai_endpoint. rewrite Hu. cbv zeta.
  rewrite bool_decide_eq_false_2 by done. by rewrite Hc.
Qed.

(** *** The completion and its classification *)

Lemma first_failing_gate_None env u :
  first_failing_gate env u = None →
  ∃ pr ps an k, profile u = Some pr ∧ psychometric u = Some ps ∧
    ai u ≫= analysis = Some an ∧ getOpenAIClient env = inr k.
Proof.
  unfold first_failing_gate. simpl. rewrite getOpenAIClient_truthy.
  destruct (profile u) as [pr|]; simpl; [|done].
  destruct (psychometric u) as [ps|]; simpl; [|done].
  destruct (ai u ≫= analysis) as [an|]; simpl; [|done].
  destruct (getOpenAIClient env) as [|k]; simpl; [done|]. eauto 10.
Qed.

Ltac open_endpoint Hu Hgen Hg :=
  apply first_failing_gate_None in Hg as (pr & ps & an & k & Hpr & Hps & Han & Hk);
  unfold ai_endpoint; rewrite Hu; cbv zeta;
  rewrite (generation_attempt_bypass _ _ _ Hgen), Hpr, Hps, Han, Hk.


(** *** Writes to the slot *)

Lemma ai_endpoint_overwrites {T} (s : Slot T) env JSON_parse now completion
    req w u p :
  SlotLaws s →
  findOne_id (userId req) (users w) = Some u →
  generation_attempt s req u →
  first_failing_gate env u = None →
  accepted (slot_schema s) JSON_parse completion p →
  overwritten s req now p (ai_endpoint s env JSON_parse now completion req w).
Proof.
  intros [Hid _ Hget] Hu Hgen Hg (c & j & -> & Hc & Hp & Hs).
  pose proof (findOne_id_Some _ _ _ Hu) as [Hidu _].
  open_endpoint Hu Hgen Hg.
  apply truthy_nonempty in Hc. rewrite Hc, Hp, Hs. simpl.
  destruct (updateOne_found (userId req)
              (slot_set s {| data := p; cached_createdAt := now;
                             model := AI_MODEL |} now) (users w) u Hu)
    as (us' & Hup & Hf & _); [by rewrite Hid|].
  rewrite Hidu, Hup. split; [done|]. simpl. rewrite Hf. simpl. apply Hget.
Qed.

(** Whatever is not a successful generation leaves [users] as it was. *)
Lemma ai_endpoint_users {T} (s : Slot T) env JSON_parse now completion req w :
  let result := ai_endpoint s env JSON_parse now completion req w in
  users result.2 = users w ∨
  ∃ u p, findOne_id (userId req) (users w) = Some u ∧
         generation_attempt s req u ∧
         first_failing_gate env u = None ∧
         accepted (slot_schema s) JSON_parse completion p ∧
         status result.1 = 200.
Proof.
  unfold ai_endpoint. cbv zeta.
  destruct (findOne_id (userId req) (users w)) as [u|] eqn:Hu; [|by left].
  destruct (if bool_decide _ then None else ai u ≫= slot_get s) eqn:Hb;
    [by left|].
  assert (generation_attempt s req u) as Hgen.
  { unfold generation_attempt. case_bool_decide; [by left | by right]. }
  destruct (first_failing_gate env u) as [g|] eqn:Hg.
  { pose proof (ai_endpoint_gates s env JSON_parse now completion req w u Hu Hgen)
      as Hout.
    unfold gate_outcome in Hout. rewrite Hg in Hout.
    unfold ai_endpoint in Hout. rewrite Hu in Hout. cbv zeta in Hout.
    rewrite Hb in Hout. rewrite Hout. by left. }
  pose proof Hg as Hg'.
  apply first_failing_gate_None in Hg' as (pr & ps & an & k & -> & -> & -> & ->).
  destruct completion as [|[c|]]; [by left| |by left].
  destruct (truthy c) eqn:Hc; simpl; [|by left].
  destruct (JSON_parse c) as [j|] eqn:Hp; [|by left].
  destruct (slot_schema s j) as [p|] eqn:Hs; [|by left].
  right. exists u, p. split; [done|]. split; [done|]. split; [done|]. split.
  - exists c, j. by rewrite <- truthy_nonempty.
  - by destruct (updateOne _ _ _).
Qed.

Lemma ai_endpoint_failure_unchanged {T} (s : Slot T) env JSON_parse now
    completion req w :
  let result := ai_endpoint s env JSON_parse now completion req w in
  status result.1 ≠ 200 → users result.2 = users w.
Proof.
  intros result Hst.
  destruct (ai_endpoint_users s env JSON_parse now completion req w)
    as [H|(u & p & _ & _ & _ & _ & H)]; done.
Qed.


Lemma overwritten_served {T} (s : Slot T) env JSON_parse req now p w' :
  (findOne_id (userId req) (users w') ≫= ai) ≫= slot_get s =
    Some {| data := p; cached_createdAt := now; model := AI_MODEL |} →
  ∀ now' completion' req',
    userId req' = userId req →
    qString (query req' !! "refresh") ≠ Some "1" →
    ai_endpoint s env JSON_parse now' completion' req' w' =
      (json 200 (slot_body s AI_MODEL now p), w').
Proof.
  intros Hslot now' completion' req' Hid Hr.
  destruct (findOne_id (userId req) (users w')) as [u'|] eqn:Hu'; [|done].
  simpl in Hslot. rewrite <- Hid in Hu'.
  by rewrite (ai_endpoint_cached s env JSON_parse now' completion' req' w' u' _
                Hu' Hr Hslot).
Qed.



Lemma ai_endpoint_written_on_success_only {T} (s : Slot T) env JSON_parse now
    completion req w :
  SlotLaws s →
  written_on_success_only s env JSON_parse (ai_endpoint s env JSON_parse)
    now completion req w.
Proof.
  intros Hlaws. unfold written_on_success_only. cbv zeta. split; [|split].
  - apply ai_endpoint_failure_unchanged.
  - intros Hne.
    destruct (ai_endpoint_users s env JSON_parse now completion req w)
      as [H|(u & p & Hu & Hgen & Hg & Hp & _)]; [done|]. eauto 10.
  - intros u p Hu Hgen Hg Hp.
    pose proof (ai_endpoint_overwrites s env JSON_parse now completion req w u p
                  Hlaws Hu Hgen Hg Hp) as Hov.
    split; [done|]. destruct Hov as [_ Hslot].
    by apply overwritten_served with (req := req).
Qed.

(** ** Accounts *)

Lemma ai_endpoint_emails {T} (s : Slot T) env JSON_parse now completion req w :
  SlotLaws s →
  email <$> users (ai_endpoint s env JSON_parse now completion req w).2 =
  email <$> users w.
Proof.
  intros Hlaws. unfold ai_endpoint. cbv zeta.
  destruct (findOne_id _ _) as [u|]; [|done].
  destruct (if bool_decide _ then None else _); [done|].
  destruct (profile u); [|done]. destruct (psychometric u); [|done].
  destruct (ai u ≫= analysis); [|done].
  destruct (getOpenAIClient env); [done|].
  destruct completion as [|[c|]]; [done| |done].
  destruct (negb (truthy c)); [done|].
  destruct (JSON_parse c) as [j|]; [|done].
  destruct (slot_schema s j) as [parsed|]; [|done].
  pose proof (updateOne_emails (_id u)
                (slot_set s {| data := parsed; cached_createdAt := now;
                               model := AI_MODEL |} now) (users w)
                (set_email s Hlaws _ _)) as He.
  simpl. by destruct (updateOne _ _ _).
Qed.

Section Accounts.

Variable env : Env.
Variable bcrypt_hash : string → nat → string → string.
Variable bcrypt_compare : string → string → bool.
Variable jwt_sign : string → string → string → string → string.
Variable JSON_parse : string → option jsval.
Variable is_email : string → bool.
Variable parser_message : jsval → string.

#[local] Abbreviation signup := (post_auth_signup env bcrypt_hash jwt_sign is_email).
#[local] Abbreviation serve_all :=
  (serve env bcrypt_hash bcrypt_compare jwt_sign JSON_parse is_email
     parser_message).
#[local] Abbreviation handle_one :=
  (handle env bcrypt_hash bcrypt_compare jwt_sign JSON_parse is_email
     parser_message).

Lemma signup_valid salt now body w c :
  signupSchema is_email body = success c →
  signup salt now body w =
    let e := toLowerCase (cred_email c) in
    let id := new_ObjectId (users w) in
    if bool_decide (findOne_email e (users w) = None)
    then (json 201 (AuthBody (signToken env jwt_sign id e) (toHexString id) e),
          with_users
            (users w ++
             [new_account id e (bcrypt_hash (cred_password c) 10 salt) now])
            w)
    else (json 409 (ErrorBody "Email already exists"), w).
Proof.
  intros Hc. unfold post_auth_signup. rewrite Hc. cbv zeta.
  rewrite insertOne_new by done. simpl.
  case_bool_decide; [done|]. by rewrite includes_E11000.
Qed.

(** No handler removes an account or changes its e-mail. *)
Lemma handle_keeps_emails r w e :
  In e (email <$> users w) → In e (email <$> users (handle_one r w).2).
Proof.
  intros Hin. unfold handle.
  destruct (strict (request_body r)); [|done]. destruct r; simpl.
  - unfold post_auth_signup.
    destruct (signupSchema is_email body0); [|done]. cbv zeta.
    destruct (insertOne _ _) as [msg|us] eqn:Hins.
    + by destruct (includes "E11000" msg).
    + unfold insertOne in Hins. destruct (existsb _ _); [done|].
      injection Hins as <-. simpl. rewrite fmap_app. apply in_or_app. by left.
  - unfold post_auth_login. destruct (loginSchema is_email body0); [|done].
    destruct (findOne_email _ _); [|done]. by destruct (negb _).
  - unfold get_me. by destruct (_ <$> findOne_id _ _).
  - unfold post_user_profile. destruct (profileSchema _) as [p|]; [|done].
    pose proof (updateOne_emails (userId req) (set_profile p now) (users w)
                  (λ _, eq_refl)) as He.
    destruct (updateOne _ _ _) as [n us]. simpl in He.
    destruct (n =? 0)%nat; simpl; by rewrite He.
  - unfold post_user_psychometric.
    destruct (psychometricSchema _) as [p|]; [|done].
    pose proof (updateOne_emails (userId req)
                  (set_psychometric {| answers := p; submittedAt := now |} now)
                  (users w) (λ _, eq_refl)) as He.
    destruct (updateOne _ _ _) as [n us]. simpl in He.
    destruct (n =? 0)%nat; simpl; by rewrite He.
  - rewrite get_ai_portfolio_endpoint.
    by rewrite ai_endpoint_emails by apply portfolio_slot_laws.
  - rewrite get_ai_career_roadmap_endpoint.
    by rewrite ai_endpoint_emails by apply roadmap_slot_laws.
  - unfold get_ai_job_roles. destruct (findOne_id _ _); [|done].
    by destruct (_ && _).
  - unfold get_scholarships. destruct (findOne_id _ _) as [u|]; [|done].
    cbv zeta. destruct (match qString _ with Some _ => _ | None => _ end)
      as [l|]; [|done].
    by destruct (negb (truthy l)).
Qed.

Lemma serve_keeps_emails rs w e :
  In e (email <$> users w) → In e (email <$> users (serve_all rs w)).
Proof.
  unfold serve. revert w. induction rs as [|r rs IH]; intros w Hin; [done|].
  simpl. apply IH. by apply handle_keeps_emails.
Qed.

End Accounts.

(** ** The JSON parser *)

Lemma strict_object_or_array v : strict v = true ↔ object_or_array v.
Proof.
  unfold object_or_array. destruct v; simpl; split; try done;
    try (by intros [[? [=]]|[? [=]]]); intros _; [right | left]; by eexists.
Qed.

Lemma handle_refused
    env bcrypt_hash bcrypt_compare jwt_sign JSON_parse is_email parser_message
    r w :
  ¬ object_or_array (request_body r) →
  handle env bcrypt_hash bcrypt_compare jwt_sign JSON_parse is_email
    parser_message r w
  = (json 500 (ErrorBody (parser_message (request_body r))), w).
Proof.
  intros Hno. unfold handle.
  destruct (strict (request_body r)) eqn:Es; [|done].
  by apply strict_object_or_array in Es.
Qed.

Lemma handle_routed
    env bcrypt_hash bcrypt_compare jwt_sign JSON_parse is_email parser_message
    r w :
  object_or_array (request_body r) →
  handle env bcrypt_hash bcrypt_compare jwt_sign JSON_parse is_email
    parser_message r w
  = route env bcrypt_hash bcrypt_compare jwt_sign JSON_parse is_email r w.
Proof.
  intros Hs%strict_object_or_array. unfold handle. by rewrite Hs.
Qed.

(** ** The psychometric submission *)

Lemma psychometricSchema_contract body ans :
  psychometricSchema body = success ans ↔ psychometric_contract body ans.
Proof.
  unfold psychometricSchema, psychometric_contract. split.
  - destruct body; try done.
    destruct (z_record _ _ _) as [ans0|] eqn:Hrec; [|done].
    apply z_record_strings in Hrec as (sent & Hm & Hall & ->). cbv zeta.
    destruct (Nat.ltb_spec (size (delete "__proto__" sent)) 8); [done|].
    destruct (Nat.ltb_spec 10 (size (delete "__proto__" sent))); [done|].
    simpl. intros Heq. injection Heq as <-. exists m, sent.
    split; [done|]. split; [done|]. split; [|split; [done | lia]].
    intros k s Hk. apply length_nonempty. by apply (Hall k).
  - intros (m & sent & -> & Hm & Hall & -> & Hsize).
    assert (z_record (z_string_min 1) [key "answers"] (m !! "answers")
            = success (delete "__proto__" sent)) as ->.
    { apply z_record_strings. exists sent. split; [done|]. split; [|done].
      intros k s Hk. apply length_nonempty. by apply (Hall k). }
    cbv zeta.
    destruct (Nat.ltb_spec (size (delete "__proto__" sent)) 8); [lia|].
    destruct (Nat.ltb_spec 10 (size (delete "__proto__" sent))); [lia|]. done.
Qed.

Lemma post_user_psychometric_invalid now req w :
  (∀ ans, ¬ psychometric_contract (body req) ans) →
  ∃ i, post_user_psychometric now req w
       = (json 400 (ErrorDetails "Invalid input" i), w).
Proof.
  intros Hno. unfold post_user_psychometric.
  destruct (psychometricSchema (body req)) as [ans|i] eqn:Hs; [|by eexists].
  apply psychometricSchema_contract in Hs. by destruct (Hno ans).
Qed.

Lemma post_user_psychometric_valid now req w u ans :
  findOne_id (userId req) (users w) = Some u →
  psychometric_contract (body req) ans →
  ∃ us, post_user_psychometric now req w = (json 200 OkBody, with_users us w) ∧
        findOne_id (userId req) us =
          Some (set_psychometric {| answers := ans; submittedAt := now |} now u).
Proof.
  intros Hu Hc. apply psychometricSchema_contract in Hc.
  unfold post_user_psychometric. rewrite Hc.
  destruct (updateOne_found (userId req)
              (set_psychometric {| answers := ans; submittedAt := now |} now)
              (users w) u Hu eq_refl) as (us & -> & Hf & _).
  exists us. done.
Qed.

(** ** The catalogues *)

Lemma mem_elem_of t l : mem t l = true ↔ t ∈ l.
Proof.
  unfold mem. rewrite existsb_exists, list_elem_of_In. split.
  - intros (x & Hin & Hx). apply String.eqb_eq in Hx. by subst.
  - intros Hin. exists t. split; [done | by apply String.eqb_eq].
Qed.

Lemma any_tag_elem_of ts tags :
  existsb (λ t, mem t tags) ts = true ↔ ∃ t, t ∈ ts ∧ t ∈ tags.
Proof.
  rewrite existsb_exists. split.
  - intros (t & Hin & Hm). exists t. by rewrite list_elem_of_In, <- mem_elem_of.
  - intros (t & Hin & Hm). exists t. by rewrite <- list_elem_of_In, mem_elem_of.
Qed.

Lemma filter_sublist {D} (f : D → bool) l : sublist (List.filter f l) l.
Proof.
  induction l as [|x l IH]; simpl; [constructor|].
  destruct (f x); by constructor.
Qed.

Lemma find_limit_page {D} (matches : D → bool) (P : D → Prop) n col :
  (∀ x, matches x = true ↔ P x) →
  page_of P n col (find_limit matches n col).
Proof.
  intros HP. unfold page_of, find_limit. repeat split.
  - rewrite length_take. lia.
  - etrans; [apply sublist_take | apply filter_sublist].
  - intros x Hin.
    pose proof (elem_of_sublist _ _ _ Hin (sublist_take _ n)) as Hf.
    apply list_elem_of_In, filter_In in Hf. apply HP, Hf.
  - rewrite length_take. intros Hlt x Hin Hx.
    rewrite take_ge by lia. apply list_elem_of_In, filter_In.
    rewrite <- list_elem_of_In. split; [done | by apply HP].
Qed.

Lemma qString_truthy v s : qString v = Some s → truthy s = true.
Proof.
  unfold qString. destruct v as [[]|]; try done.
  destruct (truthy (trim s0)) eqn:E; [|done]. by intros [= <-].
Qed.

Lemma filter_Boolean_filter o l :
  filter_Boolean (o :: (Some <$> l)) = List.filter truthy (option_list o ++ l).
Proof.
  assert (filter_Boolean (Some <$> l) = List.filter truthy l) as Hl.
  { induction l as [|x l IH]; [done|].
    rewrite fmap_cons. cbn [filter_Boolean List.filter]. by rewrite IH. }
  destruct o as [s|]; cbn [filter_Boolean option_list app List.filter];
    by rewrite Hl.
Qed.

Lemma role_matches_satisfies dom tags r :
  role_matches (job_roles_filter dom tags) r = true ↔
  role_satisfies (nonempty dom) tags r.
Proof.
  unfold role_matches, job_roles_filter, role_satisfies, nonempty. simpl.
  rewrite andb_true_iff.
  assert (match (if truthy_opt dom then dom else None) with
          | Some d => (domain r =? d)%string
          | None => true
          end = true ↔
          ∀ d, (if truthy_opt dom then dom else None) = Some d → domain r = d)
    as ->.
  { destruct (if truthy_opt dom then dom else None) as [d|].
    - rewrite String.eqb_eq. split; [by intros -> ? [= <-] | eauto].
    - split; done. }
  assert (match (if (0 <? length tags)%nat then Some tags else None) with
          | Some tags0 =>
              match role_courseTags r with
              | Some ts => existsb (λ t, mem t tags0) ts
              | None => false
              end
          | None => true
          end = true ↔
          (tags ≠ [] → ∃ ts t, role_courseTags r = Some ts ∧ t ∈ ts ∧ t ∈ tags))
    as ->; [|done].
  destruct tags as [|t0 tags]; [split; done|].
  change (0 <? length (t0 :: tags))%nat with true. cbv iota.
  destruct (role_courseTags r) as [ts|].
  - rewrite any_tag_elem_of. split.
    + intros (t & ? & ?) _. eauto.
    + intros H. destruct H as (ts' & t & [= <-] & ? & ?); [done|]. eauto.
  - split; [done|]. intros H. by destruct H as (? & ? & ? & _).
Qed.

Lemma scholarship_matches_satisfies level cat crs s :
  (∀ c, cat = Some c → truthy c = true) →
  scholarship_matches (scholarships_filter level cat crs) s = true ↔
  scholarship_satisfies level cat (nonempty crs) s.
Proof.
  intros Hcat.
  unfold scholarship_matches, scholarships_filter, scholarship_satisfies,
    nonempty. simpl.
  rewrite !andb_true_iff, String.eqb_eq.
  assert (match (if truthy_opt cat then cat else None) with
          | Some c =>
              match category s with
              | Some c' => (c' =? c)%string
              | None => false
              end
          | None => true
          end = true ↔ ∀ c, cat = Some c → category s = Some c) as ->.
  { destruct cat as [c|]; cbn [truthy_opt]; [|done]. rewrite (Hcat c eq_refl).
    destruct (category s) as [c'|].
    - rewrite String.eqb_eq. split; [by intros -> ? [= <-] |].
      intros H. by injection (H c eq_refl).
    - split; [done|]. intros H. by specialize (H c eq_refl). }
  assert (match
            match crs with
            | Some c => if truthy c then Some [normalizeTag c] else None
            | None => None
            end
          with
          | Some tags => existsb (λ t, mem t tags) (courseTags s)
          | None => true
          end = true ↔
          ∀ c, (if truthy_opt crs then crs else None) = Some c →
               normalizeTag c ∈ courseTags s) as ->; [|tauto].
  destruct crs as [c|]; cbn [truthy_opt]; [|done].
  destruct (truthy c); [|done].
  rewrite any_tag_elem_of. split.
  - intros (t & Hin & Ht) ? [= <-]. apply list_elem_of_singleton in Ht.
    by subst.
  - intros H. exists (normalizeTag c). split; [by apply H|].
    by apply list_elem_of_singleton.
Qed.

Lemma EducationLevel_str_truthy e : truthy (EducationLevel_str e) = true.
Proof. by destruct e. Qed.

Lemma job_roles_tags explicitCourse an :
  normalizeTag <$>
    filter_Boolean
      (explicitCourse ::
       match an with
       | Some a => (λ x, Some (course x)) <$> recommendedCourses a
       | None => []
       end)
  = effective_course_tags explicitCourse an.
Proof.
  unfold effective_course_tags. f_equal.
  rewrite <- filter_Boolean_filter. f_equal. f_equal.
  destruct an as [a|]; simpl; [|done]. by rewrite <- list_fmap_compose.
Qed.

Lemma truthy_opt_qString v :
  truthy_opt (qString v) = bool_decide (is_Some (qString v)).
Proof.
  destruct (qString v) as [s|] eqn:E; simpl; [|done].
  by rewrite (qString_truthy _ _ E).
Qed.

Lemma get_ai_job_roles_found req w u :
  findOne_id (userId req) (users w) = Some u →
  get_ai_job_roles req w =
    let explicitDomain := qString (query req !! "domain") in
    let explicitCourse := qString (query req !! "course") in
    let an := ai u ≫= analysis in
    if bool_decide (explicitDomain = None ∧ explicitCourse = None ∧ an = None)
    then
      (json 400
         (ErrorBody
            "AI analysis missing. Run POST /ai/analyze or pass ?domain= / ?course=."),
       w)
    else
      let dom := effective_domain explicitDomain an in
      let roles :=
        find_limit
          (role_matches
             (job_roles_filter dom (effective_course_tags explicitCourse an)))
          30 (job_roles w) in
      (json 200 (JobRolesBody dom (length roles) (job_role_view <$> roles)), w).
Proof.
  intros Hu. unfold get_ai_job_roles. rewrite Hu. cbv zeta.
  rewrite job_roles_tags, !truthy_opt_qString.
  destruct (ai u ≫= analysis) as [a|], (qString (query req !! "domain")) as [d|],
    (qString (query req !! "course")) as [c|]; simpl;
    first [ done
          | by rewrite bool_decide_eq_false_2 by (intros (? & ? & ?); done)
          | by rewrite bool_decide_eq_true_2 ].
Qed.

Lemma get_scholarships_found req w u :
  findOne_id (userId req) (users w) = Some u →
  get_scholarships req w =
    let explicitCourse := qString (query req !! "course") in
    let explicitCategory := qString (query req !! "category") in
    let crs := effective_course explicitCourse (ai u ≫= analysis) in
    match effective_level (qString (query req !! "academicLevel")) (profile u)
    with
    | None =>
        (json 400
           (ErrorBody
              "Academic level missing. Save /user/profile or pass ?academicLevel=."),
         w)
    | Some level =>
        let items :=
          find_limit
            (scholarship_matches
               (scholarships_filter level explicitCategory crs))
            50 (scholarships_col w) in
        (json 200
           (ScholarshipsBody
              {| filters_course := crs; filters_category := explicitCategory;
                 filters_academicLevel := level |}
              (length items) (scholarship_view <$> items)),
         w)
    end.
Proof.
  intros Hu. unfold get_scholarships. rewrite Hu. cbv zeta.
  unfold effective_level, effective_course.
  destruct (qString (query req !! "academicLevel")) as [l|] eqn:El.
  - by rewrite (qString_truthy _ _ El).
  - destruct (profile u) as [p|]; simpl; [|done].
    by rewrite EducationLevel_str_truthy.
Qed.

(** ** Examples *)

Example normalizeTag_trims_and_lowers : normalizeTag "  Civil Eng " = "civil eng".
Proof. reflexivity. Qed.

Example qString_blank : qString (Some (QString "   ")) = None.
Proof. reflexivity. Qed.

Example qString_repeated : qString (Some (QArray ["1"; "1"])) = None.
Proof. reflexivity. Qed.

Example seven_answers_rejected :
  is_success
    (psychometricSchema
       (body (Sample.answers_request 2 (delete "q8" Sample.eight_answers))))
  = false.
Proof. vm_compute. reflexivity. Qed.

Example eleven_answers_rejected :
  is_success
    (psychometricSchema
       (body
          (Sample.answers_request 2
             (<["q9" := "a"]> (<["q10" := "b"]> (<["q11" := "c"]>
                Sample.eight_answers))))))
  = false.
Proof. vm_compute. reflexivity. Qed.

Example empty_answer_rejected :
  is_success
    (psychometricSchema
       (body (Sample.answers_request 2 (<["q8" := ""]> Sample.eight_answers))))
  = false.
Proof. vm_compute. reflexivity. Qed.

Example login_succeeds :
  (post_auth_login Sample.env Sample.bcrypt_compare Sample.jwt_sign
     Sample.is_email (Sample.credentials "Asha@X.com" "secret1")
     Sample.world).1
  = json 200
      (AuthBody "000000000000000000000001.asha@x.com"
         "000000000000000000000001" "asha@x.com").
Proof. vm_compute. reflexivity. Qed.

Example roadmap_with_two_stages_rejected :
  is_success
    (aiRoadmapSchema
       (JObj (list_to_map
                [("primaryDomain", JStr "Engineering");
                 ("stages", JArr [JObj ∅; JObj ∅]);
                 ("notes", JStr "Revise.")])))
  = false.
Proof. vm_compute. reflexivity. Qed.

(** ** Claims *)



(** C2.  On both AI endpoints a generation attempt (the slot is empty or a
    refresh was asked for) checks its prerequisites in the order profile,
    psychometric submission, analysis, provider credential.  The first one
    that fails answers alone, with its own error (400 for each of the three
    missing steps, 500 for the credential), and leaves the world as it was;
    the completion service is called only when all four pass. *)
Theorem gates_checked_in_order env JSON_parse now completion req w u :
  findOne_id (userId req) (users w) = Some u →
  (generation_attempt portfolio_slot req u →
   gate_outcome env u w (get_ai_portfolio env JSON_parse now completion req w)) ∧
  (generation_attempt roadmap_slot req u →
   gate_outcome env u w
     (get_ai_career_roadmap env JSON_parse now completion req w)) ∧
  NoDup (gate_error <$> gate_order) ∧
  status ∘ gate_error <$> gate_order = [400; 400; 400; 500]%nat.
Proof.
  intros Hu. split; [|split; [|split]].
  - rewrite get_ai_portfolio_endpoint. by apply ai_endpoint_gates.
  - rewrite get_ai_career_roadmap_endpoint. by apply ai_endpoint_gates.
  - simpl.
    repeat (apply NoDup_cons; split;
            [rewrite ?not_elem_of_cons; repeat split;
             (discriminate || apply not_elem_of_nil)|]).
    apply NoDup_nil. done.
  - reflexivity.
Qed.

Lemma gates_checked_in_order_witness :
  findOne_id 2 (users Sample.world) = Some Sample.ravi ∧
  get_ai_portfolio Sample.env Sample.parse 2000 (resolved None)
    (Sample.request 2 []) Sample.world
  = (gate_error PsychometricGate, Sample.world).
Proof.
  split; [reflexivity|].
  apply (gates_checked_in_order Sample.env Sample.parse 2000 (resolved None)
           (Sample.request 2 []) Sample.world Sample.ravi eq_refl).
  right. reflexivity.
Defined.





(** C4.  On both AI endpoints the slot is written only by a successful
    generation: the validated result with the time of creation and the model
    identifier goes into the user's slot and is what later reads without a
    refresh return; every other path (a failed gate, an unconfigured
    provider, an empty, malformed or schema-violating completion, a
    rejection) leaves the stored user documents as they were. *)
Theorem slot_written_on_success_only env JSON_parse now completion req w :
  written_on_success_only portfolio_slot env JSON_parse
    (get_ai_portfolio env JSON_parse) now completion req w ∧
  written_on_success_only roadmap_slot env JSON_parse
    (get_ai_career_roadmap env JSON_parse) now completion req w.
Proof.
  split.
  - rewrite get_ai_portfolio_endpoint.
    apply ai_endpoint_written_on_success_only, portfolio_slot_laws.
  - rewrite get_ai_career_roadmap_endpoint.
    apply ai_endpoint_written_on_success_only, roadmap_slot_laws.
Qed.

Lemma slot_written_on_success_only_witness :
  overwritten portfolio_slot Sample.refresh_request 2000 Sample.new_portfolio
    (get_ai_portfolio Sample.env Sample.parse 2000
       (resolved (Some "{new portfolio}")) Sample.refresh_request Sample.world) ∧
  get_ai_portfolio Sample.env Sample.parse 3000 (rejected OtherValue)
    (Sample.request 1 [])
    (get_ai_portfolio Sample.env Sample.parse 2000
       (resolved (Some "{new portfolio}")) Sample.refresh_request
       Sample.world).2
  = (json 200 (PortfolioBody AI_MODEL 2000 Sample.new_portfolio),
     (get_ai_portfolio Sample.env Sample.parse 2000
        (resolved (Some "{new portfolio}")) Sample.refresh_request
        Sample.world).2).
Proof.
  destruct (slot_written_on_success_only Sample.env Sample.parse 2000
              (resolved (Some "{new portfolio}")) Sample.refresh_request
              Sample.world)
    as [(_ & _ & Hw) _].
  destruct (Hw Sample.asha Sample.new_portfolio eq_refl (or_introl eq_refl)
              eq_refl) as [Hov Hlater].
  { exists "{new portfolio}", (Sample.portfolio_json Sample.new_portfolio).
    repeat split; (reflexivity || discriminate). }
  split; [exact Hov|]. apply Hlater; [reflexivity | discriminate].
Defined.

(** C5.  A sign-up with a valid body stores the lower-cased e-mail and
    compares it, lower-cased, with the stored ones; of the password only the
    bcrypt hash is stored, so two passwords with the same hash leave the same
    world behind.  The first sign-up for an e-mail succeeds with 201; from
    then on, whatever requests are served in between, a sign-up with any
    casing of that e-mail fails with 409. *)
Theorem signup_lowercases_hashes_and_rejects_duplicates
    env bcrypt_hash bcrypt_compare jwt_sign JSON_parse is_email parser_message
    salt now body w c :
  signupSchema is_email body = success c →
  let e := toLowerCase (cred_email c) in
  let id := new_ObjectId (users w) in
  let result := post_auth_signup env bcrypt_hash jwt_sign is_email salt now body w in
  (findOne_email e (users w) = None →
   result.1 = json 201 (AuthBody (signToken env jwt_sign id e) (toHexString id) e) ∧
   users result.2 =
     users w ++ [new_account id e (bcrypt_hash (cred_password c) 10 salt) now] ∧
   ∀ rs salt' now' body' c',
     signupSchema is_email body' = success c' →
     toLowerCase (cred_email c') = e →
     let later :=
       serve env bcrypt_hash bcrypt_compare jwt_sign JSON_parse is_email
         parser_message rs result.2 in
     post_auth_signup env bcrypt_hash jwt_sign is_email salt' now' body' later
     = (json 409 (ErrorBody "Email already exists"), later)) ∧
  (findOne_email e (users w) ≠ None →
   result = (json 409 (ErrorBody "Email already exists"), w)) ∧
  (∀ body' c',
     signupSchema is_email body' = success c' →
     cred_email c' = cred_email c →
     bcrypt_hash (cred_password c') 10 salt = bcrypt_hash (cred_password c) 10 salt →
     post_auth_signup env bcrypt_hash jwt_sign is_email salt now body' w = result).
Proof.
  intros Hc e id result. subst result.
  rewrite (signup_valid _ _ _ _ _ _ _ _ _ Hc). cbv zeta. fold e id.
  split; [|split].
  - intros Hnone. rewrite bool_decide_eq_true_2 by done.
    split; [done|]. split; [done|].
    intros rs salt' now' body' c' Hc' He.
    rewrite (signup_valid _ _ _ _ _ _ _ _ _ Hc'). cbv zeta. rewrite He.
    rewrite bool_decide_eq_false_2; [done|].
    rewrite findOne_email_None. intros Hn. apply Hn.
    apply serve_keeps_emails. simpl. rewrite fmap_app.
    apply in_or_app. right. by left.
  - intros Hsome. by rewrite bool_decide_eq_false_2.
  - intros body' c' Hc' He Hh.
    rewrite (signup_valid _ _ _ _ _ _ _ _ _ Hc'). cbv zeta.
    by rewrite He, Hh.
Qed.

Lemma signup_lowercases_hashes_and_rejects_duplicates_witness :
  signupSchema Sample.is_email (Sample.credentials "Meera@X.com" "secret1")
  = success {| cred_email := "Meera@X.com"; cred_password := "secret1" |} ∧
  (post_auth_signup Sample.env Sample.bcrypt_hash Sample.jwt_sign
     Sample.is_email "salt" 3000
     (Sample.credentials "Meera@X.com" "secret1") Sample.world).1
  = json 201
      (AuthBody "000000000000000000000004.meera@x.com"
         "000000000000000000000004" "meera@x.com").
Proof.
  split; [reflexivity|].
  destruct (signup_lowercases_hashes_and_rejects_duplicates
              Sample.env Sample.bcrypt_hash Sample.bcrypt_compare
              Sample.jwt_sign Sample.parse Sample.is_email
              Sample.parser_message "salt" 3000
              (Sample.credentials "Meera@X.com" "secret1") Sample.world
              {| cred_email := "Meera@X.com"; cred_password := "secret1" |}
              eq_refl) as [Hfirst _].
  destruct (Hfirst eq_refl) as [Hresp _]. exact Hresp.
Defined.

(** C6.  A login with a valid body fails in the same way for an e-mail that
    no account has and for an account given the wrong password: status 401
    and the one body [Invalid email or password], the world unchanged. *)
Theorem login_failures_indistinguishable
    env bcrypt_compare jwt_sign is_email body1 w1 c1 body2 w2 c2 u2 :
  loginSchema is_email body1 = success c1 →
  loginSchema is_email body2 = success c2 →
  findOne_email (toLowerCase (cred_email c1)) (users w1) = None →
  findOne_email (toLowerCase (cred_email c2)) (users w2) = Some u2 →
  bcrypt_compare (cred_password c2) (passwordHash u2) = false →
  post_auth_login env bcrypt_compare jwt_sign is_email body1 w1
    = (json 401 (ErrorBody "Invalid email or password"), w1) ∧
  post_auth_login env bcrypt_compare jwt_sign is_email body2 w2
    = (json 401 (ErrorBody "Invalid email or password"), w2) ∧
  (post_auth_login env bcrypt_compare jwt_sign is_email body1 w1).1
    = (post_auth_login env bcrypt_compare jwt_sign is_email body2 w2).1.
Proof.
  intros Hc1 Hc2 Hnone Hsome Hwrong.
  assert (post_auth_login env bcrypt_compare jwt_sign is_email body1 w1
          = (json 401 (ErrorBody "Invalid email or password"), w1)) as H1.
  { unfold post_auth_login. by rewrite Hc1, Hnone. }
  assert (post_auth_login env bcrypt_compare jwt_sign is_email body2 w2
          = (json 401 (ErrorBody "Invalid email or password"), w2)) as H2.
  { unfold post_auth_login. by rewrite Hc2, Hsome, Hwrong. }
  by rewrite H1, H2.
Qed.

Lemma login_failures_indistinguishable_witness :
  (post_auth_login Sample.env Sample.bcrypt_compare Sample.jwt_sign
     Sample.is_email (Sample.credentials "nobody@x.com" "secret1")
     Sample.world).1
  = (post_auth_login Sample.env Sample.bcrypt_compare Sample.jwt_sign
       Sample.is_email (Sample.credentials "Asha@X.com" "guess12")
       Sample.world).1.
Proof.
  apply (login_failures_indistinguishable Sample.env Sample.bcrypt_compare
           Sample.jwt_sign Sample.is_email
           (Sample.credentials "nobody@x.com" "secret1") Sample.world
           {| cred_email := "nobody@x.com"; cred_password := "secret1" |}
           (Sample.credentials "Asha@X.com" "guess12") Sample.world
           {| cred_email := "Asha@X.com"; cred_password := "guess12" |}
           Sample.asha);
    reflexivity.
Defined.

(** C7, as stated, fails on a map with an entry keyed [__proto__]: zod
    checks the entry but leaves it out of what it returns, so that it is
    neither counted nor stored.  Eleven entries, that one among them, are
    accepted and ten are stored; eight entries, that one among them, are
    refused. *)
Lemma proto_entry_is_not_counted :
  size Sample.eleven_with_proto = 11%nat ∧
  map_Forall (λ _ s, s ≠ "") Sample.eleven_with_proto ∧
  (handle Sample.env Sample.bcrypt_hash Sample.bcrypt_compare Sample.jwt_sign
     Sample.parse Sample.is_email Sample.parser_message
     (PostPsychometric 4000
        (Sample.answers_request 2 Sample.eleven_with_proto))
     Sample.world).1
  = json 200 OkBody ∧
  size Sample.eight_with_proto = 8%nat ∧
  map_Forall (λ _ s, s ≠ "") Sample.eight_with_proto ∧
  handle Sample.env Sample.bcrypt_hash Sample.bcrypt_compare Sample.jwt_sign
    Sample.parse Sample.is_email Sample.parser_message
    (PostPsychometric 4000 (Sample.answers_request 2 Sample.eight_with_proto))
    Sample.world
  = (json 400
       (ErrorDetails "Invalid input"
          [issue (custom "answers must contain 8–10 entries")
             [key "answers"]]),
     Sample.world).
Proof.
  split; [by vm_compute|]. split.
  { apply map_Forall_to_list. vm_compute.
    repeat (constructor; [discriminate|]). constructor. }
  split; [by vm_compute|]. split; [by vm_compute|]. split.
  { apply map_Forall_to_list. vm_compute.
    repeat (constructor; [discriminate|]). constructor. }
  by vm_compute.
Qed.

(** C7, amended.  A psychometric save by a user whose account exists, with
    a body the JSON parser accepts, is accepted exactly when every value of
    [answers] is a non-empty string and [answers], an entry keyed
    [__proto__] not counted, has 8 to 10 entries.  It is then answered
    [{ok: true}] and the answers, without such an entry, are stored under
    the time of submission, the rest of the document staying as it was.
    Anything else, a map of 7 or of 11 counted entries in particular, is
    answered 400 and changes nothing; a body that is no object and no array
    is refused by the parser with 500 and changes nothing either. *)
Theorem psychometric_saved_iff_valid
    env bcrypt_hash bcrypt_compare jwt_sign JSON_parse is_email parser_message
    now req w u :
  findOne_id (userId req) (users w) = Some u →
  let result :=
    handle env bcrypt_hash bcrypt_compare jwt_sign JSON_parse is_email
      parser_message (PostPsychometric now req) w in
  (∀ ans, psychometric_contract (body req) ans →
     result.1 = json 200 OkBody ∧
     findOne_id (userId req) (users result.2) =
       Some {| _id := _id u; email := email u;
               passwordHash := passwordHash u; createdAt := createdAt u;
               updatedAt := now; profile := profile u;
               psychometric := Some {| answers := ans; submittedAt := now |};
               ai := ai u |}) ∧
  (result.1 = json 200 OkBody ↔
   ∃ ans, psychometric_contract (body req) ans) ∧
  ((∀ ans, ¬ psychometric_contract (body req) ans) →
     result.2 = w ∧
     (object_or_array (body req) → status result.1 = 400%nat) ∧
     (¬ object_or_array (body req) →
      result.1 = json 500 (ErrorBody (parser_message (body req))))) ∧
  (∀ m entries,
     body req = JObj m → m !! "answers" = Some (JObj entries) →
     size (delete "__proto__" entries) = 7%nat ∨
     size (delete "__proto__" entries) = 11%nat →
     status result.1 = 400%nat ∧ result.2 = w).
Proof.
  intros Hu result.
  assert (∀ ans, psychometric_contract (body req) ans →
     result = post_user_psychometric now req w) as Hroute.
  { intros ans (m & sent & Hb & _). unfold result, handle.
    cbn [request_body]. by rewrite Hb. }
  assert (∀ ans, psychometric_contract (body req) ans →
     result.1 = json 200 OkBody ∧
     findOne_id (userId req) (users result.2) =
       Some {| _id := _id u; email := email u;
               passwordHash := passwordHash u; createdAt := createdAt u;
               updatedAt := now; profile := profile u;
               psychometric := Some {| answers := ans; submittedAt := now |};
               ai := ai u |}) as Hvalid.
  { intros ans Hc. rewrite (Hroute ans Hc).
    destruct (post_user_psychometric_valid now req w u ans Hu Hc)
      as (us & -> & Hf). done. }
  assert ((∀ ans, ¬ psychometric_contract (body req) ans) →
     result.2 = w ∧
     (object_or_array (body req) → status result.1 = 400%nat) ∧
     (¬ object_or_array (body req) →
      result.1 = json 500 (ErrorBody (parser_message (body req))))) as Hinvalid.
  { intros Hno. unfold result, handle. cbn [request_body].
    destruct (strict (body req)) eqn:Es.
    - cbn [route].
      destruct (post_user_psychometric_invalid now req w Hno) as [i ->].
      split; [done|]. split; [done|].
      intros Hn. by apply strict_object_or_array in Es.
    - split; [done|]. split; [|done].
      intros Ho%strict_object_or_array. congruence. }
  split; [done|]. split; [|split; [done|]].
  - split.
    + intros Hok. unfold result, handle in Hok. cbn [request_body] in Hok.
      destruct (strict (body req)); [|done]. cbn [route] in Hok.
      destruct (psychometricSchema (body req)) as [ans|i] eqn:Hs.
      * exists ans. by apply psychometricSchema_contract.
      * unfold post_user_psychometric in Hok. by rewrite Hs in Hok.
    + intros [ans Hc]. by apply (Hvalid ans).
  - intros m entries Hb Hm Hsize.
    destruct Hinvalid as (Hw & Hst & _);
      [|split; [apply Hst; left; by exists m | done]].
    intros ans (m' & sent & Hb' & Hm' & _ & -> & Hn). rewrite Hb in Hb'.
    injection Hb' as <-. rewrite Hm in Hm'. injection Hm' as ->.
    rewrite <- fmap_delete, map_size_fmap in Hsize. lia.
Qed.

Lemma psychometric_saved_iff_valid_witness :
  findOne_id 2 (users Sample.world) = Some Sample.ravi ∧
  (handle Sample.env Sample.bcrypt_hash Sample.bcrypt_compare Sample.jwt_sign
     Sample.parse Sample.is_email Sample.parser_message
     (PostPsychometric 4000 (Sample.answers_request 2 Sample.eight_answers))
     Sample.world).1
  = json 200 OkBody.
Proof.
  split; [reflexivity|].
  destruct (psychometric_saved_iff_valid Sample.env Sample.bcrypt_hash
              Sample.bcrypt_compare Sample.jwt_sign Sample.parse
              Sample.is_email Sample.parser_message 4000
              (Sample.answers_request 2 Sample.eight_answers) Sample.world
              Sample.ravi eq_refl) as [Hvalid _].
  apply (Hvalid Sample.eight_answers).
  exists {[ "answers" := JObj (JStr <$> Sample.eight_answers) ]},
    Sample.eight_answers.
  split; [reflexivity|]. split; [reflexivity|]. split.
  { apply (map_Forall_to_list (λ _ s, s ≠ "")). vm_compute.
    repeat (constructor; [discriminate|]). constructor. }
  split; [by vm_compute | vm_compute; lia].
Defined.

(** C8, as stated, fails on an analysis with an empty course name: the
    claimed tag set is then [[""]], not empty, yet the handler drops the
    empty name, filters by domain alone and returns a role that carries no
    tag of the claimed set. *)
Lemma job_roles_ignore_empty_course_names :
  findOne_id 3 (users Sample.world) = Some Sample.kiran ∧
  qString (query (Sample.request 3 []) !! "course") = None ∧
  claimed_course_tags None (ai Sample.kiran ≫= analysis) = [""] ∧
  get_ai_job_roles (Sample.request 3 []) Sample.world
  = (json 200
       (JobRolesBody (Some "Engineering") 2
          (job_role_view <$>
             [Sample.mechanical_engineer; Sample.site_supervisor])),
     Sample.world) ∧
  ¬ role_satisfies (Some "Engineering")
      (claimed_course_tags None (ai Sample.kiran ≫= analysis))
      Sample.mechanical_engineer.
Proof.
  repeat split; try reflexivity.
  intros [_ Htag]. destruct Htag as (ts & t & Hts & Ht & Hin); [discriminate|].
  injection Hts as <-.
  apply list_elem_of_singleton in Ht. apply list_elem_of_singleton in Hin.
  subst t. discriminate Hin.
Qed.

(** C8, amended.  [GET /ai/job-roles] for a user it finds answers 400 when
    there is neither a domain parameter, nor a course parameter, nor an
    analysis.  Otherwise the domain it reports is the parameter, else the
    analysis's primary domain; its course tags are the course parameter and
    every non-empty course name of the analysis, trimmed and lower-cased;
    and it returns at most 30 roles, in the order of the collection, each of
    that domain when the domain is not empty and each carrying one of the
    tags when there are tags. *)
Theorem job_roles_filtered req w u :
  findOne_id (userId req) (users w) = Some u →
  let explicitDomain := qString (query req !! "domain") in
  let explicitCourse := qString (query req !! "course") in
  let an := ai u ≫= analysis in
  let dom := effective_domain explicitDomain an in
  let tags := effective_course_tags explicitCourse an in
  (explicitDomain = None ∧ explicitCourse = None ∧ an = None →
   get_ai_job_roles req w =
     (json 400
        (ErrorBody
           "AI analysis missing. Run POST /ai/analyze or pass ?domain= / ?course=."),
      w)) ∧
  (¬ (explicitDomain = None ∧ explicitCourse = None ∧ an = None) →
   ∃ roles,
     get_ai_job_roles req w =
       (json 200 (JobRolesBody dom (length roles) (job_role_view <$> roles)), w) ∧
     page_of (role_satisfies (nonempty dom) tags) 30 (job_roles w) roles) ∧
  (∀ t, t ∈ tags ↔
        ∃ c, (explicitCourse = Some c ∨ c ∈ analysis_courses an) ∧
             c ≠ "" ∧ t = toLowerCase (trim c)).
Proof.
  intros Hu explicitDomain explicitCourse an dom tags.
  rewrite (get_ai_job_roles_found req w u Hu). cbv zeta.
  fold explicitDomain explicitCourse an. split; [|split].
  - intros H. by rewrite bool_decide_eq_true_2.
  - intros H. rewrite bool_decide_eq_false_2 by done.
    eexists. split; [reflexivity|].
    apply find_limit_page. intros r. apply role_matches_satisfies.
  - intros t. unfold tags, effective_course_tags.
    rewrite list_elem_of_fmap. split.
    + intros (c & -> & Hc). apply list_elem_of_In, filter_In in Hc as [Hin Hc].
      apply truthy_nonempty in Hc. exists c. split; [|done].
      apply in_app_or in Hin as [Hin|Hin].
      * left. destruct explicitCourse as [c'|]; simpl in Hin; [|done].
        destruct Hin as [->|[]]. done.
      * right. by apply list_elem_of_In.
    + intros (c & Hc & Hne & ->). exists c. split; [done|].
      apply list_elem_of_In, filter_In. split; [|by apply truthy_nonempty].
      apply in_or_app. destruct Hc as [->|Hc]; [left; by left|].
      right. by apply list_elem_of_In.
Qed.

Lemma job_roles_filtered_witness :
  findOne_id 1 (users Sample.world) = Some Sample.asha ∧
  ∃ roles,
    get_ai_job_roles (Sample.request 1 []) Sample.world
    = (json 200
         (JobRolesBody (Some "Engineering") (length roles)
            (job_role_view <$> roles)),
       Sample.world) ∧
    page_of (role_satisfies (Some "Engineering") ["mechanical"; "civil"]) 30
      (job_roles Sample.world) roles.
Proof.
  split; [reflexivity|].
  destruct (job_roles_filtered (Sample.request 1 []) Sample.world Sample.asha
              eq_refl) as (_ & Hsome & _).
  destruct Hsome as (roles & Hresp & Hpage).
  { intros (_ & _ & Han). discriminate Han. }
  exists roles. split; [exact Hresp | exact Hpage].
Defined.

(** C9, as stated, fails on an analysis whose first course name is empty:
    the course resolves, to the empty string, and is reported as such, yet
    no course filter is applied and a scholarship without that tag is
    returned. *)
Lemma scholarships_ignore_empty_course :
  findOne_id 3 (users Sample.world) = Some Sample.kiran ∧
  effective_course (qString (query (Sample.request 3 []) !! "course"))
    (ai Sample.kiran ≫= analysis) = Some "" ∧
  get_scholarships (Sample.request 3 []) Sample.world
  = (json 200
       (ScholarshipsBody
          {| filters_course := Some ""; filters_category := None;
             filters_academicLevel := "Undergraduate" |} 2
          (scholarship_view <$> [Sample.merit_grant; Sample.arts_grant])),
     Sample.world) ∧
  ¬ scholarship_satisfies "Undergraduate" None
      (effective_course (qString (query (Sample.request 3 []) !! "course"))
         (ai Sample.kiran ≫= analysis))
      Sample.merit_grant.
Proof.
  repeat split; try reflexivity.
  intros (_ & _ & Htag). specialize (Htag "" eq_refl).
  apply list_elem_of_singleton in Htag. discriminate Htag.
Qed.

(** C9, amended.  [GET /scholarships] for a user it finds takes as academic
    level the parameter, else the education level of the profile, and
    answers 400 when there is neither; as course the parameter, else the
    first course name of the analysis, else none.  It returns at most 50
    scholarships, in the order of the collection, each of that academic
    level, of the category when one is given, and tagged with the trimmed,
    lower-cased course when the course is a non-empty string. *)
Theorem scholarships_filtered req w u :
  findOne_id (userId req) (users w) = Some u →
  let explicitCourse := qString (query req !! "course") in
  let explicitCategory := qString (query req !! "category") in
  let level :=
    effective_level (qString (query req !! "academicLevel")) (profile u) in
  let crs := effective_course explicitCourse (ai u ≫= analysis) in
  (level = None →
   get_scholarships req w =
     (json 400
        (ErrorBody
           "Academic level missing. Save /user/profile or pass ?academicLevel=."),
      w)) ∧
  (∀ l, level = Some l →
   ∃ items,
     get_scholarships req w =
       (json 200
          (ScholarshipsBody
             {| filters_course := crs; filters_category := explicitCategory;
                filters_academicLevel := l |}
             (length items) (scholarship_view <$> items)),
        w) ∧
     page_of (scholarship_satisfies l explicitCategory (nonempty crs)) 50
       (scholarships_col w) items).
Proof.
  intros Hu explicitCourse explicitCategory level crs.
  rewrite (get_scholarships_found req w u Hu). cbv zeta.
  fold explicitCourse explicitCategory level crs. split.
  - by intros ->.
  - intros l ->. eexists. split; [reflexivity|].
    apply find_limit_page. intros s. apply scholarship_matches_satisfies.
    intros c Hc. by apply qString_truthy in Hc.
Qed.

Lemma scholarships_filtered_witness :
  findOne_id 1 (users Sample.world) = Some Sample.asha ∧
  ∃ items,
    get_scholarships (Sample.request 1 [("category", QString " Merit ")])
      Sample.world
    = (json 200
         (ScholarshipsBody
            {| filters_course := Some "Mechanical";
               filters_category := Some "Merit";
               filters_academicLevel := "Undergraduate" |}
            (length items) (scholarship_view <$> items)),
       Sample.world) ∧
    page_of
      (scholarship_satisfies "Undergraduate" (Some "Merit") (Some "Mechanical"))
      50 (scholarships_col Sample.world) items.
Proof.
  split; [reflexivity|].
  destruct (scholarships_filtered
              (Sample.request 1 [("category", QString " Merit ")])
              Sample.world Sample.asha eq_refl) as (_ & Hsome).
  destruct (Hsome "Undergraduate" eq_refl) as (items & Hresp & Hpage).
  exists items. split; [exact Hresp | exact Hpage].
Defined.

(** C10.  [GET /me] for a user it finds reads the document with
    [passwordHash] projected out and answers with the identifier, the
    e-mail, the profile or [null] and the time of the psychometric
    submission or [null]: two documents that agree on these four get the
    same answer, whatever their password hashes and psychometric answers. *)
Theorem me_exposes_neither_hash_nor_answers req w u :
  findOne_id (userId req) (users w) = Some u →
  get_me req w =
    (json 200
       (MeBody (toHexString (_id u)) (email u) (profile u)
          (submittedAt <$> psychometric u)),
     w) ∧
  (∀ h, project_passwordHash_0 (with_passwordHash h u) = project_passwordHash_0 u) ∧
  (∀ w' u',
     findOne_id (userId req) (users w') = Some u' →
     email u' = email u → profile u' = profile u →
     submittedAt <$> psychometric u' = submittedAt <$> psychometric u →
     (get_me req w').1 = (get_me req w).1).
Proof.
  intros Hu. split; [|split].
  - unfold get_me. by rewrite Hu.
  - done.
  - intros w' u' Hu' He Hp Hs. unfold get_me. rewrite Hu, Hu'. simpl.
    apply findOne_id_Some in Hu as [Hid _].
    apply findOne_id_Some in Hu' as [Hid' _].
    by rewrite Hid, Hid', He, Hp, Hs.
Qed.

Lemma me_exposes_neither_hash_nor_answers_witness :
  findOne_id 1 (users Sample.world) = Some Sample.asha ∧
  get_me (Sample.request 1 []) Sample.world =
    (json 200
       (MeBody "000000000000000000000001" "asha@x.com"
          (Some Sample.asha_profile) (Some 500%Z)),
     Sample.world).
Proof.
  split; [reflexivity|].
  apply (me_exposes_neither_hash_nor_answers (Sample.request 1 [])
           Sample.world Sample.asha eq_refl).
Defined.

(** * Further properties *)

(** ** The [auth] middleware *)

Lemma prefix_app (p s : string) : String.prefix p (p +:+ s) = true.
Proof.
  induction p as [|c p IH]; simpl; [by destruct s|].
  destruct (ascii_dec c c); [done | congruence].
Qed.

Lemma prefix_inv (p s : string) :
  String.prefix p s = true → ∃ t, s = p +:+ t.
Proof.
  revert s. induction p as [|c p IH]; intros s; simpl; [by exists s|].
  destruct s as [|d s]; simpl; [done|].
  destruct (ascii_dec c d) as [->|]; [|done].
  intros H. destruct (IH s H) as [t ->]. by exists t.
Qed.

Lemma substring_all (s : string) : String.substring 0 (String.length s) s = s.
Proof. induction s as [|c s IH]; simpl; [done | by rewrite IH]. Qed.

Lemma slice_app (p s : string) : slice (String.length p) (p +:+ s) = s.
Proof.
  unfold slice. induction p as [|c p IH]; simpl.
  - rewrite Nat.sub_0_r. apply substring_all.
  - apply IH.
Qed.

(** X1.  [auth] answers 401 [Missing Authorization header] exactly when the
    header is absent or does not begin with [Bearer] and one space, in that
    casing.  Otherwise it verifies the header's text after that prefix, all
    of it and nothing else: a verified token with a non-empty string subject
    passes with that subject as [userId], everything else is 401
    [Invalid token]. *)
Theorem auth_verifies_the_bearer_token env jwt_verify h :
  (auth env jwt_verify h = inl (json 401 (ErrorBody "Missing Authorization header"))
   ↔ ∀ t, h ≠ Some ("Bearer " +:+ t)) ∧
  (∀ t, h = Some ("Bearer " +:+ t) →
     auth env jwt_verify h =
       match jwt_verify t (JWT_SECRET env) with
       | Some (Some sub) =>
           if bool_decide (sub = "") then inl (json 401 (ErrorBody "Invalid token"))
           else inr sub
       | _ => inl (json 401 (ErrorBody "Invalid token"))
       end).
Proof.
  assert (∀ t, auth env jwt_verify (Some ("Bearer " +:+ t)) =
       match jwt_verify t (JWT_SECRET env) with
       | Some (Some sub) =>
           if bool_decide (sub = "") then inl (json 401 (ErrorBody "Invalid token"))
           else inr sub
       | _ => inl (json 401 (ErrorBody "Invalid token"))
       end) as Hbearer.
  { intros t. unfold auth, startsWith. rewrite prefix_app. cbv zeta.
    rewrite slice_app.
    destruct (jwt_verify t (JWT_SECRET env)) as [[sub|]|]; try done.
    by destruct sub. }
  split.
  - split.
    + intros Hmiss t ->. rewrite Hbearer in Hmiss.
      destruct (jwt_verify t (JWT_SECRET env)) as [[sub|]|]; try done.
      by case_bool_decide.
    + intros Hno. destruct h as [h|]; [|done]. unfold auth.
      destruct (startsWith "Bearer " h) eqn:E; [|done].
      apply prefix_inv in E as [t ->]. by destruct (Hno t).
  - intros t ->. apply Hbearer.
Qed.

(** ** Hexadecimal identifiers *)

Lemma hex_value_digit d : (d < 16)%N → hex_value (hex_digit d) = Some d.
Proof.
  intros Hd.
  assert (d ∈ [0;1;2;3;4;5;6;7;8;9;10;11;12;13;14;15]%N) as Hin.
  { rewrite !elem_of_cons. lia. }
  repeat (apply elem_of_cons in Hin as [->|Hin]; [reflexivity|]).
  by apply elem_of_nil in Hin.
Qed.

Lemma hex_digits_length k n acc :
  String.length (hex_digits k n acc) = (k + String.length acc)%nat.
Proof.
  revert n acc. induction k as [|k IH]; intros n acc; simpl; [done|].
  rewrite IH. simpl. lia.
Qed.

Lemma hex_number_digits k n acc a :
  hex_number (hex_digits k n acc) a =
  hex_number acc (a * 16 ^ N.of_nat k + n mod 16 ^ N.of_nat k)%N.
Proof.
  revert n acc a. induction k as [|k IH]; intros n acc a.
  - simpl. rewrite N.mod_1_r. f_equal. lia.
  - cbn [hex_digits]. rewrite IH. cbn [hex_number].
    rewrite hex_value_digit by (apply N.mod_lt; lia). f_equal.
    rewrite Nat2N.inj_succ, N.pow_succ_r', (N.Div0.mod_mul_r n 16). lia.
Qed.

Lemma ObjectId_hex_digits (i : ObjectId) :
  (i < 2 ^ 96)%N →
  String.length (toHexString i) = 24%nat ∧
  ObjectId_of_hex (toHexString i) = Some i.
Proof.
  intros Hi. unfold ObjectId_of_hex, toHexString.
  rewrite hex_digits_length. simpl String.length. split; [done|].
  rewrite hex_number_digits. simpl hex_number. f_equal.
  change (16 ^ N.of_nat 24)%N with (2 ^ 96)%N.
  rewrite N.mod_small by done. lia.
Qed.

(** X2.  An identifier below 2^96 survives the trip through its hexadecimal
    form: [toHexString] writes 24 digits that [new ObjectId] reads back as
    the same identifier; so two such identifiers never share a form. *)
Theorem ObjectId_hex_round_trip (id : ObjectId) :
  (id < 2 ^ 96)%N →
  String.length (toHexString id) = 24%nat ∧
  ObjectId_of_hex (toHexString id) = Some id ∧
  ∀ id' : ObjectId, (id' < 2 ^ 96)%N →
    toHexString id' = toHexString id → id' = id.
Proof.
  intros Hid. destruct (ObjectId_hex_digits id Hid) as [Hlen Hrt].
  split; [done|]. split; [done|].
  intros id' Hid' Heq. apply ObjectId_hex_digits in Hid' as [_ Hrt'].
  rewrite Heq, Hrt in Hrt'. by injection Hrt'.
Qed.

Lemma ObjectId_hex_round_trip_witness :
  (4 < 2 ^ 96)%N ∧
  ObjectId_of_hex (toHexString 4) = Some 4%N.
Proof.
  split; [reflexivity|].
  apply (ObjectId_hex_round_trip 4 eq_refl).
Defined.

(** ** Accounts over time *)

Lemma updateOne_projection {A} (f : UserDoc → A) id set us :
  (∀ u, f (set u) = f u) →
  f <$> (updateOne id set us).2 = f <$> us.
Proof.
  intros Hset. induction us as [|v r IH]; simpl; [done|].
  destruct (N.eqb (_id v) id); simpl.
  - by rewrite Hset.
  - destruct (updateOne id set r) as [n r']. simpl in *. by f_equal.
Qed.

Lemma ai_endpoint_projection {T A} (s : Slot T) (f : UserDoc → A)
    env JSON_parse now completion req w :
  (∀ c t u, f (slot_set s c t u) = f u) →
  f <$> users (ai_endpoint s env JSON_parse now completion req w).2 =
  f <$> users w.
Proof.
  intros Hset. unfold ai_endpoint. cbv zeta.
  destruct (findOne_id _ _) as [u|]; [|done].
  destruct (if bool_decide _ then None else _); [done|].
  destruct (profile u); [|done]. destruct (psychometric u); [|done].
  destruct (ai u ≫= analysis); [|done].
  destruct (getOpenAIClient env); [done|].
  destruct completion as [|[c|]]; [done| |done].
  destruct (negb (truthy c)); [done|].
  destruct (JSON_parse c) as [j|]; [|done].
  destruct (slot_schema s j) as [parsed|]; [|done].
  pose proof (updateOne_projection f (_id u)
                (slot_set s {| data := parsed; cached_createdAt := now;
                               model := AI_MODEL |} now) (users w)
                (Hset _ _)) as He.
  simpl. by destruct (updateOne _ _ _).
Qed.

(** A search by a key of the identity finds the same account in a
    collection that extends the identities of another. *)
Lemma find_identity_prefix (P : ObjectId * string * string * Date → bool)
    us us' ext u :
  identity <$> us' = (identity <$> us) ++ ext →
  List.find (λ v, P (identity v)) us = Some u →
  ∃ u', List.find (λ v, P (identity v)) us' = Some u' ∧
        identity u' = identity u.
Proof.
  revert us'. induction us as [|v r IH]; intros us' Hpre Hf; [done|].
  destruct us' as [|v' r']; [done|].
  assert (identity v' = identity v ∧
          identity <$> r' = (identity <$> r) ++ ext) as [Hv Hr].
  { split; [apply (f_equal (hd (identity v))) in Hpre
           | apply (f_equal tail) in Hpre]; exact Hpre. }
  cbn [List.find] in *. rewrite Hv.
  destruct (P (identity v)).
  - injection Hf as <-. eauto.
  - by apply IH.
Qed.

Section AccountsOverTime.

Variable env : Env.
Variable bcrypt_hash : string → nat → string → string.
Variable bcrypt_compare : string → string → bool.
Variable jwt_sign : string → string → string → string → string.
Variable JSON_parse : string → option jsval.
Variable is_email : string → bool.
Variable parser_message : jsval → string.

#[local] Abbreviation handle' :=
  (handle env bcrypt_hash bcrypt_compare jwt_sign JSON_parse is_email
     parser_message).
#[local] Abbreviation serve' :=
  (serve env bcrypt_hash bcrypt_compare jwt_sign JSON_parse is_email
     parser_message).

(** A request leaves the identities as they are or adds one account, under
    a new identifier and an e-mail that no account has. *)
Lemma handle_identities r w :
  identity <$> users (handle' r w).2 = identity <$> users w ∨
  ∃ e h now,
    identity <$> users (handle' r w).2 =
      (identity <$> users w) ++ [(new_ObjectId (users w), e, h, now)] ∧
    ¬ In e (email <$> users w).
Proof.
  unfold handle. destruct (strict (request_body r)); [|by left].
  destruct r; simpl.
  - unfold post_auth_signup.
    destruct (signupSchema is_email body0) as [c|]; [|by left]. cbv zeta.
    rewrite insertOne_new by done. simpl.
    case_bool_decide as Hnone.
    + right. eexists _, _, _. split.
      * unfold with_users. cbn [snd users]. by rewrite fmap_app.
      * by apply findOne_email_None.
    + left. by rewrite includes_E11000.
  - left. unfold post_auth_login. destruct (loginSchema is_email body0); [|done].
    destruct (findOne_email _ _); [|done]. by destruct (negb _).
  - left. unfold get_me. by destruct (_ <$> findOne_id _ _).
  - left. unfold post_user_profile. destruct (profileSchema _) as [p|]; [|done].
    pose proof (updateOne_projection identity (userId req) (set_profile p now)
                  (users w) (λ _, eq_refl)) as He.
    destruct (updateOne _ _ _) as [n us]. simpl in He.
    by destruct (n =? 0)%nat.
  - left. unfold post_user_psychometric.
    destruct (psychometricSchema _) as [p|]; [|done].
    pose proof (updateOne_projection identity (userId req)
                  (set_psychometric {| answers := p; submittedAt := now |} now)
                  (users w) (λ _, eq_refl)) as He.
    destruct (updateOne _ _ _) as [n us]. simpl in He.
    by destruct (n =? 0)%nat.
  - left. rewrite get_ai_portfolio_endpoint.
    by apply ai_endpoint_projection.
  - left. rewrite get_ai_career_roadmap_endpoint.
    by apply ai_endpoint_projection.
  - left. unfold get_ai_job_roles. destruct (findOne_id _ _); [|done].
    by destruct (_ && _).
  - left. unfold get_scholarships. destruct (findOne_id _ _) as [u|]; [|done].
    cbv zeta. destruct (match qString _ with Some _ => _ | None => _ end)
      as [l|]; [|done].
    by destruct (negb (truthy l)).
Qed.

Lemma serve_identities rs w :
  ∃ ext, identity <$> users (serve' rs w) = (identity <$> users w) ++ ext.
Proof.
  unfold serve. revert w. induction rs as [|r rs IH]; intros w; simpl.
  - exists []. by rewrite app_nil_r.
  - destruct (IH (handle' r w).2) as [ext Hext]. rewrite Hext.
    destruct (handle_identities r w) as [->|(e & h & now & -> & _)]; [eauto|].
    rewrite <- app_assoc. eauto.
Qed.

Lemma identity_ids (us : list UserDoc) : _id <$> us = (λ i, i.1.1.1) <$> (identity <$> us).
Proof. by rewrite <- list_fmap_compose. Qed.

Lemma identity_emails (us : list UserDoc) : email <$> us = (λ i, i.1.1.2) <$> (identity <$> us).
Proof. by rewrite <- list_fmap_compose. Qed.

Lemma handle_unique r w :
  NoDup (_id <$> users w) → NoDup (email <$> users w) →
  NoDup (_id <$> users (handle' r w).2) ∧
  NoDup (email <$> users (handle' r w).2).
Proof.
  intros Hid Hem. rewrite !identity_ids, !identity_emails in *.
  destruct (handle_identities r w) as [->|(e & h & now & -> & Hfresh)]; [done|].
  rewrite !fmap_app. simpl. split.
  - apply NoDup_app. split; [done|]. split; [|apply NoDup_singleton].
    intros i Hi Hi'. apply list_elem_of_singleton in Hi'. subst i.
    rewrite <- identity_ids in Hi. apply list_elem_of_fmap in Hi as (u & Hu & Hin).
    apply list_elem_of_In in Hin.
    pose proof (new_ObjectId_above (users w) u Hin). lia.
  - apply NoDup_app. split; [done|]. split; [|apply NoDup_singleton].
    intros x Hx Hx'. apply list_elem_of_singleton in Hx'. subst x.
    apply Hfresh. rewrite identity_emails. by apply list_elem_of_In.
Qed.

Lemma serve_unique rs w :
  NoDup (_id <$> users w) → NoDup (email <$> users w) →
  NoDup (_id <$> users (serve' rs w)) ∧ NoDup (email <$> users (serve' rs w)).
Proof.
  unfold serve. revert w. induction rs as [|r rs IH]; intros w Hid Hem; [done|].
  simpl. destruct (handle_unique r w Hid Hem). by apply IH.
Qed.

End AccountsOverTime.

(** X3.  No sequence of requests removes an account or changes its
    identifier, e-mail, password hash or creation date: an account found
    under an identifier, or under an e-mail, before the requests is found
    under it afterwards with the same four. *)
Theorem accounts_persist
    env bcrypt_hash bcrypt_compare jwt_sign JSON_parse is_email
      parser_message rs w :
  let w' :=
    serve env bcrypt_hash bcrypt_compare jwt_sign JSON_parse is_email
      parser_message rs w in
  (∃ ext, identity <$> users w' = (identity <$> users w) ++ ext) ∧
  (∀ id u, findOne_id id (users w) = Some u →
     ∃ u', findOne_id id (users w') = Some u' ∧ identity u' = identity u) ∧
  (∀ e u, findOne_email e (users w) = Some u →
     ∃ u', findOne_email e (users w') = Some u' ∧ identity u' = identity u).
Proof.
  intros w'.
  destruct (serve_identities env bcrypt_hash bcrypt_compare jwt_sign JSON_parse
              is_email parser_message rs w) as [ext Hext].
  split; [eauto|]. split.
  - intros id u Hu.
    apply (find_identity_prefix (λ i, N.eqb i.1.1.1 id) _ _ ext u Hext Hu).
  - intros e u Hu.
    apply (find_identity_prefix (λ i, String.eqb i.1.1.2 e) _ _ ext u Hext Hu).
Qed.

(** X4.  The unique indexes hold over time: if no two stored accounts share
    an identifier or an e-mail, none do after any sequence of requests. *)
Theorem identifiers_and_emails_stay_unique
    env bcrypt_hash bcrypt_compare jwt_sign JSON_parse is_email
      parser_message rs w :
  NoDup (_id <$> users w) → NoDup (email <$> users w) →
  let w' :=
    serve env bcrypt_hash bcrypt_compare jwt_sign JSON_parse is_email
      parser_message rs w in
  NoDup (_id <$> users w') ∧ NoDup (email <$> users w').
Proof. intros Hid Hem w'. by apply serve_unique. Qed.

Lemma identifiers_and_emails_stay_unique_witness :
  NoDup (_id <$> users Sample.world) ∧ NoDup (email <$> users Sample.world) ∧
  NoDup
    (email <$>
     users
       (serve Sample.env Sample.bcrypt_hash Sample.bcrypt_compare
          Sample.jwt_sign Sample.parse Sample.is_email Sample.parser_message
          [PostSignup "salt" 3000 (Sample.credentials "Meera@X.com" "secret1");
           PostSignup "salt" 3001 (Sample.credentials "MEERA@x.com" "secret2")]
          Sample.world)).
Proof.
  assert (NoDup (_id <$> users Sample.world)) as Hid.
  { apply (bool_decide_unpack _). vm_compute. exact I. }
  assert (NoDup (email <$> users Sample.world)) as Hem.
  { apply (bool_decide_unpack _). vm_compute. exact I. }
  split; [exact Hid|]. split; [exact Hem|].
  apply (identifiers_and_emails_stay_unique Sample.env Sample.bcrypt_hash
           Sample.bcrypt_compare Sample.jwt_sign Sample.parse Sample.is_email
           Sample.parser_message _ Sample.world Hid Hem).
Defined.

Lemma findOne_email_app_new e us d :
  findOne_email e us = None → email d = e →
  findOne_email e (us ++ [d]) = Some d.
Proof.
  unfold findOne_email. intros Hnone He.
  induction us as [|u r IH]; simpl in *.
  - rewrite He. by rewrite String.eqb_refl.
  - destruct (String.eqb (email u) e); [done|]. by apply IH.
Qed.

(** X5.  Sign-up and login compose: after a sign-up that succeeded, and
    whatever requests were served since, a login with any casing of the
    e-mail and a password that bcrypt accepts against the hash made at
    sign-up answers 200 with the identifier and the lower-cased e-mail that
    sign-up answered with, and a token signed for them. *)
Theorem login_after_signup
    env bcrypt_hash bcrypt_compare jwt_sign JSON_parse is_email parser_message
    salt now body w c rs body' c' :
  signupSchema is_email body = success c →
  findOne_email (toLowerCase (cred_email c)) (users w) = None →
  loginSchema is_email body' = success c' →
  toLowerCase (cred_email c') = toLowerCase (cred_email c) →
  bcrypt_compare (cred_password c') (bcrypt_hash (cred_password c) 10 salt)
    = true →
  let e := toLowerCase (cred_email c) in
  let id := new_ObjectId (users w) in
  let signed_up :=
    post_auth_signup env bcrypt_hash jwt_sign is_email salt now body w in
  let later :=
    serve env bcrypt_hash bcrypt_compare jwt_sign JSON_parse is_email
      parser_message rs
      signed_up.2 in
  signed_up.1 =
    json 201 (AuthBody (signToken env jwt_sign id e) (toHexString id) e) ∧
  post_auth_login env bcrypt_compare jwt_sign is_email body' later =
    (json 200 (AuthBody (signToken env jwt_sign id e) (toHexString id) e),
     later).
Proof.
  intros Hc Hnone Hc' He Hpw e id signed_up later.
  assert (signed_up =
          (json 201 (AuthBody (signToken env jwt_sign id e) (toHexString id) e),
           with_users
             (users w ++
              [new_account id e (bcrypt_hash (cred_password c) 10 salt) now])
             w)) as Hs.
  { unfold signed_up. rewrite (signup_valid _ _ _ _ _ _ _ _ _ Hc). cbv zeta.
    by rewrite bool_decide_eq_true_2. }
  split; [by rewrite Hs|].
  assert (findOne_email e (users signed_up.2) =
          Some (new_account id e (bcrypt_hash (cred_password c) 10 salt) now))
    as Hnew.
  { rewrite Hs. simpl. by apply findOne_email_app_new. }
  destruct (serve_identities env bcrypt_hash bcrypt_compare jwt_sign JSON_parse
              is_email parser_message rs signed_up.2) as [ext Hext].
  destruct (find_identity_prefix (λ i, String.eqb i.1.1.2 e) _ _ ext _
              Hext Hnew) as (u' & Hu' & Hid).
  fold later in Hu'. unfold identity in Hid. simpl in Hid.
  injection Hid as Hi Hm Hh _.
  unfold post_auth_login. rewrite Hc', He. fold e.
  change (findOne_email e (users later)) with
    (List.find (λ v, String.eqb (identity v).1.1.2 e) (users later)).
  rewrite Hu', Hh, Hpw. simpl. by rewrite Hi, Hm.
Qed.

Lemma login_after_signup_witness :
  (post_auth_login Sample.env Sample.bcrypt_compare Sample.jwt_sign
     Sample.is_email (Sample.credentials "MEERA@x.com" "secret1")
     (serve Sample.env Sample.bcrypt_hash Sample.bcrypt_compare
        Sample.jwt_sign Sample.parse Sample.is_email Sample.parser_message
        [GetMe (Sample.request 1 [])]
        (post_auth_signup Sample.env Sample.bcrypt_hash Sample.jwt_sign
           Sample.is_email "saltsaltsalt" 3000
           (Sample.credentials "Meera@X.com" "secret1") Sample.world).2)).1
  = json 200
      (AuthBody "000000000000000000000004.meera@x.com"
         "000000000000000000000004" "meera@x.com").
Proof.
  destruct (login_after_signup Sample.env Sample.bcrypt_hash
              Sample.bcrypt_compare Sample.jwt_sign Sample.parse
              Sample.is_email Sample.parser_message "saltsaltsalt" 3000
              (Sample.credentials "Meera@X.com" "secret1") Sample.world
              {| cred_email := "Meera@X.com"; cred_password := "secret1" |}
              [GetMe (Sample.request 1 [])]
              (Sample.credentials "MEERA@x.com" "secret1")
              {| cred_email := "MEERA@x.com"; cred_password := "secret1" |}
              eq_refl eq_refl eq_refl eq_refl eq_refl) as [_ Hlogin].
  rewrite Hlogin. reflexivity.
Defined.

Lemma findOne_id_app_new id us d :
  (∀ u, In u us → _id u ≠ id) → _id d = id →
  findOne_id id (us ++ [d]) = Some d.
Proof.
  unfold findOne_id. intros Hfresh Hd.
  induction us as [|u r IH]; simpl.
  - rewrite Hd. by rewrite N.eqb_refl.
  - destruct (N.eqb_spec (_id u) id) as [Heq|_].
    + destruct (Hfresh u); [by left | done].
    + apply IH. intros v Hv. apply Hfresh. by right.
Qed.

(** X6.  The token of a successful sign-up authenticates as the new account:
    when jsonwebtoken verifies the token it signed, [auth] passes the
    [Bearer] header made of that token with the hexadecimal identifier of
    the account as [userId], that identifier reads back as the account's
    [ObjectId], and under it the account is found, with the lower-cased
    e-mail, after any sequence of requests. *)
Theorem signup_token_authenticates
    env bcrypt_hash bcrypt_compare jwt_sign jwt_verify JSON_parse is_email
      parser_message
    salt now body w c :
  signupSchema is_email body = success c →
  findOne_email (toLowerCase (cred_email c)) (users w) = None →
  (new_ObjectId (users w) < 2 ^ 96)%N →
  let e := toLowerCase (cred_email c) in
  let id := new_ObjectId (users w) in
  jwt_verify (signToken env jwt_sign id e) (JWT_SECRET env)
    = Some (Some (toHexString id)) →
  let signed_up :=
    post_auth_signup env bcrypt_hash jwt_sign is_email salt now body w in
  ∃ token,
    signed_up.1 = json 201 (AuthBody token (toHexString id) e) ∧
    auth env jwt_verify (Some ("Bearer " +:+ token)) = inr (toHexString id) ∧
    ObjectId_of_hex (toHexString id) = Some id ∧
    ∀ rs, ∃ u,
      findOne_id id
        (users
           (serve env bcrypt_hash bcrypt_compare jwt_sign JSON_parse is_email
             parser_message
              rs signed_up.2))
      = Some u ∧
      email u = e.
Proof.
  intros Hc Hnone Hbound e id Hjwt signed_up.
  assert (signed_up =
          (json 201 (AuthBody (signToken env jwt_sign id e) (toHexString id) e),
           with_users
             (users w ++
              [new_account id e (bcrypt_hash (cred_password c) 10 salt) now])
             w)) as Hs.
  { unfold signed_up. rewrite (signup_valid _ _ _ _ _ _ _ _ _ Hc). cbv zeta.
    by rewrite bool_decide_eq_true_2. }
  destruct (ObjectId_hex_digits id Hbound) as [Hlen Hread].
  exists (signToken env jwt_sign id e). split; [by rewrite Hs|]. split; [|split].
  - unfold auth, startsWith. rewrite prefix_app. cbv zeta.
    rewrite slice_app, Hjwt.
    destruct (toHexString id); [done | done].
  - done.
  - intros rs.
    assert (findOne_id id (users signed_up.2) =
            Some (new_account id e (bcrypt_hash (cred_password c) 10 salt) now))
      as Hnew.
    { rewrite Hs. simpl. apply findOne_id_app_new; [|done].
      intros u Hu Heq. pose proof (new_ObjectId_above (users w) u Hu).
      unfold id in Heq. lia. }
    destruct (serve_identities env bcrypt_hash bcrypt_compare jwt_sign
                JSON_parse is_email parser_message rs signed_up.2) as [ext Hext].
    destruct (find_identity_prefix (λ i, N.eqb i.1.1.1 id) _ _ ext _
                Hext Hnew) as (u' & Hu' & Hid).
    exists u'. split; [exact Hu'|].
    unfold identity in Hid. simpl in Hid. by injection Hid.
Qed.

Lemma signup_token_authenticates_witness :
  ∃ token,
    (post_auth_signup Sample.env Sample.bcrypt_hash Sample.jwt_sign
       Sample.is_email "saltsaltsalt" 3000
       (Sample.credentials "Meera@X.com" "secret1") Sample.world).1
    = json 201 (AuthBody token "000000000000000000000004" "meera@x.com") ∧
    auth Sample.env Demo.jwt_verify (Some ("Bearer " +:+ token))
    = inr "000000000000000000000004".
Proof.
  destruct (signup_token_authenticates Sample.env Sample.bcrypt_hash
              Sample.bcrypt_compare Sample.jwt_sign Demo.jwt_verify
              Sample.parse Sample.is_email Sample.parser_message
              "saltsaltsalt" 3000
              (Sample.credentials "Meera@X.com" "secret1") Sample.world
              {| cred_email := "Meera@X.com"; cred_password := "secret1" |}
              eq_refl eq_refl eq_refl eq_refl)
    as (token & Hresp & Hauth & _).
  exists token. split; [exact Hresp | exact Hauth].
Defined.

(** ** The request bodies the schemas accept *)

Lemma credentials_schema_contract is_email m c :
  Build_Credentials
    <$> z_string_email is_email [key "email"] (m !! "email")
    <*> z_string_min 6 [key "password"] (m !! "password") = success c ↔
  credentials_contract is_email (JObj m) c.
Proof.
  unfold credentials_contract. split.
  - intros H. apply sp_ap_success in H as (g & pw & H & Hpw & ->).
    apply sp_map_success in H as (e & He & ->).
    apply z_string_min_success in Hpw as [Hpw Hlen].
    unfold z_string_email in He.
    destruct (m !! "email") as [[| | |s| |]|] eqn:Hm; try done.
    destruct (is_email s) eqn:Hs; [|done]. injection He as <-.
    exists m. done.
  - intros (m' & [= <-] & He & Hv & Hpw & Hlen).
    unfold z_string_email. rewrite He, Hv.
    assert (z_string_min 6 [key "password"] (m !! "password")
            = success (cred_password c)) as ->.
    { by apply z_string_min_success. }
    by destruct c.
Qed.


Lemma z_string_trim_min_success n p v s :
  z_string_trim_min n p v = success s ↔
  ∃ raw, v = Some (JStr raw) ∧ s = trim raw ∧ (n ≤ String.length (trim raw))%nat.
Proof.
  unfold z_string_trim_min. split.
  - destruct v as [[| | |raw| |]|]; try done.
    destruct (Nat.leb_spec n (String.length (trim raw))) as [Hle|]; [|done].
    intros [= <-]. eauto.
  - intros (raw & -> & -> & Hle). apply Nat.leb_le in Hle. by rewrite Hle.
Qed.

Arguments z_string_trim_min : simpl never.

Lemma parse_items_trimmed n p i l l' :
  parse_items (z_string_trim_min n) p i l = success l' ↔
  ∃ raw, l = JStr <$> raw ∧ l' = trim <$> raw ∧
         Forall (λ s, (n ≤ String.length (trim s))%nat) raw.
Proof.
  revert i l'. induction l as [|x r IH]; intros i l'; simpl.
  - split.
    + intros [= <-]. by exists [].
    + intros (raw & Hl & -> & _). by destruct raw.
  - rewrite sp_ap_success. split.
    + intros (g & a & Hg & Ha & ->).
      apply sp_map_success in Hg as (s & Hs & ->).
      apply z_string_trim_min_success in Hs as (x0 & [= ->] & -> & Hn).
      apply IH in Ha as (raw & -> & -> & Hall).
      exists (x0 :: raw). split; [done|]. split; [done | by constructor].
    + intros (raw & Hl & -> & Hall). destruct raw as [|s t]; [done|].
      injection Hl as -> ->. inversion Hall; subst.
      exists (cons (trim s)), (trim <$> t). split; [|split; [|done]].
      * apply sp_map_success. exists (trim s). split; [|done].
        apply z_string_trim_min_success. eauto.
      * apply IH. eauto.
Qed.

Lemma z_educationLevel_success p v e :
  z_educationLevel p v = success e ↔ v = Some (JStr (EducationLevel_str e)).
Proof.
  unfold z_educationLevel. split.
  - destruct v as [[| | |s| |]|]; try done.
    destruct (List.find _ _) as [e'|] eqn:Hf; [|done]. intros [= <-].
    apply find_some in Hf as [_ Hf]. apply String.eqb_eq in Hf. by subst.
  - intros ->. by destruct e.
Qed.

Lemma z_int_range_success lo hi p v n :
  z_int_range lo hi p v = success n ↔ v = Some (JNum n) ∧ (lo ≤ n ≤ hi)%Z.
Proof.
  unfold z_int_range. split.
  - destruct v as [[| |k| | |]|]; try done.
    destruct (Z.ltb_spec k lo); [done|]. destruct (Z.ltb_spec hi k); [done|].
    intros [= <-]. split; [done | lia].
  - intros [-> [Hlo Hhi]].
    destruct (Z.ltb_spec n lo); [lia|]. destruct (Z.ltb_spec hi n); [lia|]. done.
Qed.

Arguments z_educationLevel : simpl never.
Arguments z_int_range : simpl never.

Lemma profileSchema_contract body p :
  profileSchema body = success p ↔ profile_contract body p.
Proof.
  unfold profileSchema, profile_contract. split.
  - destruct body; try done. intros H.
    apply sp_ap_success in H as (g3 & ints & H & Hints & ->).
    apply sp_ap_success in H as (g2 & lvl & H & Hlvl & ->).
    apply sp_ap_success in H as (g1 & a & H & Ha & ->).
    apply sp_map_success in H as (nm & Hnm & ->).
    apply z_string_trim_min_success in Hnm as (name & Hname & -> & Hlen).
    apply z_int_range_success in Ha as [Ha Hage].
    apply z_educationLevel_success in Hlvl.
    apply z_array_success in Hints as (l & Hl & Hli & Hit).
    apply parse_items_trimmed in Hit as (raw & -> & -> & Hall).
    apply length_issues_nil_unbounded in Hli. rewrite length_fmap in Hli.
    exists m, name, raw. simpl. repeat split; try done; try lia.
    + intros ->. simpl in Hli. lia.
    + eapply Forall_impl; [exact Hall|]. intros s. apply length_nonempty.
  - intros (m & name & raw & -> & Hname & Hfn & Hlen & Ha & Hage & Hlvl
            & Hints & Hne & Hall & Hi).
    assert (z_string_trim_min 2 [key "fullName"] (m !! "fullName")
            = success (fullName p)) as ->.
    { apply z_string_trim_min_success. eauto. }
    assert (z_int_range 12 100 [key "age"] (m !! "age") = success (age p)) as ->.
    { by apply z_int_range_success. }
    assert (z_educationLevel [key "educationLevel"] (m !! "educationLevel")
            = success (educationLevel p)) as ->.
    { by apply z_educationLevel_success. }
    assert (z_array (z_string_trim_min 1) 1 None [key "interests"]
              (m !! "interests") = success (interests p)) as ->.
    { apply z_array_success. eexists. split; [exact Hints|]. split.
      - apply length_issues_nil_unbounded. rewrite length_fmap.
        destruct raw; [done | simpl; lia].
      - apply parse_items_trimmed. exists raw. split; [done|]. split; [done|].
        eapply Forall_impl; [exact Hall|]. intros s. apply length_nonempty. }
    by destruct p.
Qed.



(** ** Reads after writes *)

Lemma get_me_found req w u :
  findOne_id (userId req) (users w) = Some u →
  get_me req w =
    (json 200
       (MeBody (toHexString (_id u)) (email u) (profile u)
          (submittedAt <$> psychometric u)),
     w).
Proof. intros Hu. unfold get_me. by rewrite Hu. Qed.

(** X9.  [GET /me] shows what was just saved: after an accepted profile
    save it answers with the parsed profile (name and interests trimmed),
    after an accepted psychometric save with the time of that save as
    [submittedAt]; the identifier, the e-mail and the other of the two are
    as before. *)
Theorem me_shows_the_last_save
    env bcrypt_hash bcrypt_compare jwt_sign JSON_parse is_email parser_message
    now req w u req' :
  findOne_id (userId req) (users w) = Some u →
  userId req' = userId req →
  object_or_array (body req') →
  let app :=
    handle env bcrypt_hash bcrypt_compare jwt_sign JSON_parse is_email
      parser_message in
  (∀ p, profile_contract (body req) p →
     (app (GetMe req') (app (PostProfile now req) w).2).1 =
       json 200
         (MeBody (toHexString (_id u)) (email u) (Some p)
            (submittedAt <$> psychometric u))) ∧
  (∀ ans, psychometric_contract (body req) ans →
     (app (GetMe req') (app (PostPsychometric now req) w).2).1 =
       json 200
         (MeBody (toHexString (_id u)) (email u) (profile u) (Some now))).
Proof.
  intros Hu Hid Hstrict%strict_object_or_array app.
  unfold app, handle. cbn [request_body].
  rewrite Hstrict. split.
  - intros p Hp.
    assert (strict (body req) = true) as ->.
    { destruct Hp as (m & ? & ? & -> & _). done. }
    cbn [route]. apply profileSchema_contract in Hp.
    unfold post_user_profile. rewrite Hp.
    destruct (updateOne_found (userId req) (set_profile p now) (users w) u Hu
                eq_refl) as (us & -> & Hf & _).
    rewrite <- Hid in Hf. simpl.
    by rewrite (get_me_found req' (with_users us w) _ Hf).
  - intros ans Ha.
    assert (strict (body req) = true) as ->.
    { destruct Ha as (m & ? & -> & _). done. }
    cbn [route].
    destruct (post_user_psychometric_valid now req w u ans Hu Ha)
      as (us & -> & Hf).
    rewrite <- Hid in Hf. simpl.
    by rewrite (get_me_found req' (with_users us w) _ Hf).
Qed.

Lemma me_shows_the_last_save_witness :
  findOne_id 2 (users Sample.world) = Some Sample.ravi ∧
  (handle Sample.env Sample.bcrypt_hash Sample.bcrypt_compare Sample.jwt_sign
     Sample.parse Sample.is_email Sample.parser_message
     (GetMe (Sample.request 2 []))
     (handle Sample.env Sample.bcrypt_hash Sample.bcrypt_compare
        Sample.jwt_sign Sample.parse Sample.is_email Sample.parser_message
        (PostPsychometric 4000
           (Sample.answers_request 2 Sample.eight_answers))
        Sample.world).2).1
  = json 200
      (MeBody "000000000000000000000002" "ravi@x.com"
         (Some Sample.asha_profile) (Some 4000%Z)).
Proof.
  split; [reflexivity|].
  destruct (me_shows_the_last_save Sample.env Sample.bcrypt_hash
              Sample.bcrypt_compare Sample.jwt_sign Sample.parse
              Sample.is_email Sample.parser_message 4000
              (Sample.answers_request 2 Sample.eight_answers) Sample.world
              Sample.ravi (Sample.request 2 []) eq_refl eq_refl
              (or_introl (ex_intro _ _ eq_refl)))
    as [_ Hpsy].
  apply (Hpsy Sample.eight_answers).
  exists {[ "answers" := JObj (JStr <$> Sample.eight_answers) ]},
    Sample.eight_answers.
  split; [reflexivity|]. split; [reflexivity|]. split.
  { apply (map_Forall_to_list (λ _ s, s ≠ "")). vm_compute.
    repeat (constructor; [discriminate|]). constructor. }
  split; [by vm_compute | vm_compute; lia].
Defined.

(** ** Isolation *)

Lemma updateOne_other id id' set us :
  id' ≠ id → (∀ u, _id (set u) = _id u) →
  findOne_id id' (updateOne id set us).2 = findOne_id id' us.
Proof.
  intros Hne Hset. unfold findOne_id.
  induction us as [|v r IH]; simpl; [done|].
  destruct (N.eqb_spec (_id v) id) as [Hv|Hv]; simpl.
  - rewrite Hset, Hv. by destruct (N.eqb_spec id id').
  - destruct (updateOne id set r) as [n r']. simpl in *. by rewrite IH.
Qed.

Lemma findOne_id_app id us d u :
  findOne_id id us = Some u → findOne_id id (us ++ [d]) = Some u.
Proof.
  unfold findOne_id. intros Hf. induction us as [|v r IH]; simpl in *; [done|].
  destruct (N.eqb (_id v) id); [done|]. by apply IH.
Qed.

Lemma ai_endpoint_other {T} (s : Slot T) env JSON_parse now completion req w id :
  SlotLaws s → id ≠ userId req →
  findOne_id id (users (ai_endpoint s env JSON_parse now completion req w).2) =
  findOne_id id (users w).
Proof.
  intros Hlaws Hne. unfold ai_endpoint. cbv zeta.
  destruct (findOne_id (userId req) (users w)) as [u|] eqn:Hu; [|done].
  apply findOne_id_Some in Hu as [Hid _].
  destruct (if bool_decide _ then None else _); [done|].
  destruct (profile u); [|done]. destruct (psychometric u); [|done].
  destruct (ai u ≫= analysis); [|done].
  destruct (getOpenAIClient env); [done|].
  destruct completion as [|[c|]]; [done| |done].
  destruct (negb (truthy c)); [done|].
  destruct (JSON_parse c) as [j|]; [|done].
  destruct (slot_schema s j) as [parsed|]; [|done].
  pose proof (updateOne_other (_id u) id
                (slot_set s {| data := parsed; cached_createdAt := now;
                               model := AI_MODEL |} now) (users w)) as Ho.
  simpl. destruct (updateOne _ _ _). simpl in *. apply Ho; [by rewrite Hid|].
  intros v. apply (set_id s Hlaws).
Qed.

Lemma ai_endpoint_catalogues {T} (s : Slot T) env JSON_parse now completion
    req w :
  let w' := (ai_endpoint s env JSON_parse now completion req w).2 in
  job_roles w' = job_roles w ∧ scholarships_col w' = scholarships_col w.
Proof.
  unfold ai_endpoint. cbv zeta.
  destruct (findOne_id (userId req) (users w)) as [u|]; [|done].
  destruct (if bool_decide _ then None else _); [done|].
  destruct (profile u); [|done]. destruct (psychometric u); [|done].
  destruct (ai u ≫= analysis); [|done].
  destruct (getOpenAIClient env); [done|].
  destruct completion as [|[c|]]; [done| |done].
  destruct (negb (truthy c)); [done|].
  destruct (JSON_parse c) as [j|]; [|done].
  destruct (slot_schema s j) as [parsed|]; [|done].
  by destruct (updateOne _ _ _).
Qed.

(** X10.  A request touches no account but the caller's: the document of
    any other account is found unchanged after it, whatever the request and
    its outcome; sign-up and login touch no existing account at all.  No
    request changes the catalogues of job roles and scholarships. *)
Theorem requests_leave_other_accounts_alone
    env bcrypt_hash bcrypt_compare jwt_sign JSON_parse is_email parser_message
    r w :
  let w' :=
    (handle env bcrypt_hash bcrypt_compare jwt_sign JSON_parse is_email
       parser_message r w).2 in
  (∀ id u, findOne_id id (users w) = Some u → caller r ≠ Some id →
           findOne_id id (users w') = Some u) ∧
  job_roles w' = job_roles w ∧
  scholarships_col w' = scholarships_col w.
Proof.
  unfold handle. destruct (strict (request_body r)); [|done].
  destruct r; cbn [route caller]; cbv zeta.
  - unfold post_auth_signup.
    destruct (signupSchema is_email body0) as [c|]; [|done]. cbv zeta.
    destruct (insertOne _ _) as [msg|us] eqn:Hins.
    + by destruct (includes "E11000" msg).
    + unfold insertOne in Hins. destruct (existsb _ _); [done|].
      injection Hins as <-. split; [|done].
      intros id u Hu _. by apply findOne_id_app.
  - unfold post_auth_login. destruct (loginSchema is_email body0); [|done].
    destruct (findOne_email _ _); [|done]. by destruct (negb _).
  - unfold get_me. by destruct (_ <$> findOne_id _ _).
  - unfold post_user_profile. destruct (profileSchema _) as [p|]; [|done].
    pose proof (updateOne_other (userId req)) as Ho.
    specialize (Ho) with (set := set_profile p now) (us := users w).
    destruct (updateOne _ _ _) as [n us]. simpl in Ho.
    split; [|by destruct (n =? 0)%nat].
    intros id u Hu Hne.
    assert (findOne_id id us = Some u) as Hf.
    { rewrite Ho; [done | congruence | done]. }
    by destruct (n =? 0)%nat.
  - unfold post_user_psychometric.
    destruct (psychometricSchema _) as [p|]; [|done].
    pose proof (updateOne_other (userId req)) as Ho.
    specialize (Ho) with
      (set := set_psychometric {| answers := p; submittedAt := now |} now)
      (us := users w).
    destruct (updateOne _ _ _) as [n us]. simpl in Ho.
    split; [|by destruct (n =? 0)%nat].
    intros id u Hu Hne.
    assert (findOne_id id us = Some u) as Hf.
    { rewrite Ho; [done | congruence | done]. }
    by destruct (n =? 0)%nat.
  - rewrite get_ai_portfolio_endpoint. split.
    + intros id u Hu Hne.
      rewrite ai_endpoint_other;
        [done | apply portfolio_slot_laws | congruence].
    + apply ai_endpoint_catalogues.
  - rewrite get_ai_career_roadmap_endpoint. split.
    + intros id u Hu Hne.
      rewrite ai_endpoint_other; [done | apply roadmap_slot_laws | congruence].
    + apply ai_endpoint_catalogues.
  - unfold get_ai_job_roles. destruct (findOne_id _ _); [|done].
    by destruct (_ && _).
  - unfold get_scholarships. destruct (findOne_id _ _) as [u|]; [|done].
    cbv zeta. destruct (match qString _ with Some _ => _ | None => _ end)
      as [l|]; [|done].
    by destruct (negb (truthy l)).
Qed.

(** ** The cache and the saves *)

Lemma saved_keeps_ai now req w u :
  findOne_id (userId req) (users w) = Some u →
  (∃ u', findOne_id (userId req) (users (post_user_profile now req w).2)
         = Some u' ∧ ai u' = ai u) ∧
  (∃ u', findOne_id (userId req) (users (post_user_psychometric now req w).2)
         = Some u' ∧ ai u' = ai u).
Proof.
  intros Hu. split.
  - unfold post_user_profile. destruct (profileSchema _) as [p|]; [|by eauto].
    destruct (updateOne_found (userId req) (set_profile p now) (users w) u Hu
                eq_refl) as (us & -> & Hf & _).
    simpl. eauto.
  - unfold post_user_psychometric.
    destruct (psychometricSchema _) as [p|]; [|by eauto].
    destruct (updateOne_found (userId req)
                (set_psychometric {| answers := p; submittedAt := now |} now)
                (users w) u Hu eq_refl) as (us & -> & Hf & _).
    simpl. eauto.
Qed.

(** X11.  Saving a new profile or new psychometric answers does not
    invalidate the cache: a portfolio (resp. a roadmap) cached before the
    save is what the next read without [refresh=1] returns, with its old
    date, although it was generated from the old profile and answers. *)
Theorem saves_keep_the_cached_results
    env JSON_parse now req w u now' completion req' :
  findOne_id (userId req) (users w) = Some u →
  userId req' = userId req →
  qString (query req' !! "refresh") ≠ Some "1" →
  (∀ c, ai u ≫= portfolio = Some c →
     (get_ai_portfolio env JSON_parse now' completion req'
        (post_user_profile now req w).2).1
     = json 200 (PortfolioBody (model c) (cached_createdAt c) (data c)) ∧
     (get_ai_portfolio env JSON_parse now' completion req'
        (post_user_psychometric now req w).2).1
     = json 200 (PortfolioBody (model c) (cached_createdAt c) (data c))) ∧
  (∀ c, ai u ≫= roadmap = Some c →
     (get_ai_career_roadmap env JSON_parse now' completion req'
        (post_user_profile now req w).2).1
     = json 200 (RoadmapBody (model c) (cached_createdAt c) (data c)) ∧
     (get_ai_career_roadmap env JSON_parse now' completion req'
        (post_user_psychometric now req w).2).1
     = json 200 (RoadmapBody (model c) (cached_createdAt c) (data c))).
Proof.
  intros Hu Hid Hr.
  destruct (saved_keeps_ai now req w u Hu)
    as [(u1 & Hu1 & Hai1) (u2 & Hu2 & Hai2)].
  rewrite <- Hid in Hu1, Hu2.
  split; intros c Hc; split.
  - rewrite get_ai_portfolio_endpoint.
    rewrite (ai_endpoint_cached portfolio_slot env JSON_parse now' completion
               req' _ u1 c Hu1 Hr); [done | by rewrite Hai1].
  - rewrite get_ai_portfolio_endpoint.
    rewrite (ai_endpoint_cached portfolio_slot env JSON_parse now' completion
               req' _ u2 c Hu2 Hr); [done | by rewrite Hai2].
  - rewrite get_ai_career_roadmap_endpoint.
    rewrite (ai_endpoint_cached roadmap_slot env JSON_parse now' completion
               req' _ u1 c Hu1 Hr); [done | by rewrite Hai1].
  - rewrite get_ai_career_roadmap_endpoint.
    rewrite (ai_endpoint_cached roadmap_slot env JSON_parse now' completion
               req' _ u2 c Hu2 Hr); [done | by rewrite Hai2].
Qed.

Lemma saves_keep_the_cached_results_witness :
  findOne_id 1 (users Sample.world) = Some Sample.asha ∧
  (get_ai_portfolio Sample.env Sample.parse 6000 (rejected OtherValue)
     (Sample.request 1 [])
     (post_user_profile 5000
        (Demo.profile_request 1
           (Demo.profile_body "Asha R" 20 "Postgraduate" ["law"]))
        Sample.world).2).1
  = json 200 (PortfolioBody "gpt-4-turbo-preview" 1000 Sample.old_portfolio).
Proof.
  split; [reflexivity|].
  destruct (saves_keep_the_cached_results Sample.env Sample.parse 5000
              (Demo.profile_request 1
                 (Demo.profile_body "Asha R" 20 "Postgraduate" ["law"]))
              Sample.world Sample.asha 6000 (rejected OtherValue)
              (Sample.request 1 []) eq_refl eq_refl) as [Hp _];
    [discriminate|].
  destruct (Hp _ eq_refl) as [Hprofile _]. exact Hprofile.
Defined.

(** ** Normalisation *)

Lemma lower_char_idemp c : lower_char (lower_char c) = lower_char c.
Proof. by destruct c as [[] [] [] [] [] [] [] []]. Qed.

Lemma is_white_lower c : is_white (lower_char c) = is_white c.
Proof. by destruct c as [[] [] [] [] [] [] [] []]. Qed.

Lemma toLowerCase_idemp s : toLowerCase (toLowerCase s) = toLowerCase s.
Proof.
  induction s as [|c s IH]; simpl; [done|]. by rewrite lower_char_idemp, IH.
Qed.

Lemma trimStart_lower s : trimStart (toLowerCase s) = toLowerCase (trimStart s).
Proof.
  induction s as [|c s IH]; simpl; [done|]. rewrite is_white_lower.
  by destruct (is_white c).
Qed.

Lemma trimEnd_lower s : trimEnd (toLowerCase s) = toLowerCase (trimEnd s).
Proof.
  induction s as [|c s IH]; simpl; [done|]. rewrite IH, is_white_lower.
  destruct (trimEnd s); simpl; [by destruct (is_white c) | done].
Qed.

Lemma trim_lower s : trim (toLowerCase s) = toLowerCase (trim s).
Proof. unfold trim. by rewrite trimStart_lower, trimEnd_lower. Qed.

Lemma trimStart_black s : starts_black (trimStart s).
Proof.
  induction s as [|c s IH]; simpl; [done|].
  destruct (is_white c) eqn:E; [done | by simpl].
Qed.

Lemma trimStart_fixed s : starts_black s → trimStart s = s.
Proof. destruct s as [|c s]; simpl; [done|]. by intros ->. Qed.

Lemma trimEnd_black s : starts_black s → starts_black (trimEnd s).
Proof.
  destruct s as [|c s]; simpl; [done|]. intros Hc.
  destruct (trimEnd s); simpl; [by rewrite Hc | done].
Qed.

Lemma trimEnd_idemp s : trimEnd (trimEnd s) = trimEnd s.
Proof.
  induction s as [|c s IH]; simpl; [done|].
  destruct (trimEnd s) as [|d t] eqn:E.
  - destruct (is_white c) eqn:Hc; simpl; [done | by rewrite Hc].
  - cbn [trimEnd] in *. by rewrite IH.
Qed.

Lemma trim_idemp s : trim (trim s) = trim s.
Proof.
  unfold trim.
  rewrite (trimStart_fixed (trimEnd (trimStart s)))
    by apply trimEnd_black, trimStart_black.
  apply trimEnd_idemp.
Qed.

Lemma normalizeTag_idemp s : normalizeTag (normalizeTag s) = normalizeTag s.
Proof.
  unfold normalizeTag. by rewrite trim_lower, toLowerCase_idemp, trim_idemp.
Qed.

Lemma lower_char_seven_bit c :
  (nat_of_ascii (lower_char c) <? 128)%nat = (nat_of_ascii c <? 128)%nat.
Proof. by destruct c as [[] [] [] [] [] [] [] []]. Qed.

Lemma toLowerCase_seven_bit s : seven_bit (toLowerCase s) = seven_bit s.
Proof.
  induction s as [|c s IH]; simpl; [done|].
  by rewrite lower_char_seven_bit, IH.
Qed.

Lemma trimStart_seven_bit s :
  seven_bit s = true → seven_bit (trimStart s) = true.
Proof.
  induction s as [|c s IH]; simpl; [done|].
  intros [Hc Hs]%andb_true_iff. destruct (is_white c); [by apply IH|].
  simpl. by rewrite Hc, Hs.
Qed.

Lemma trimEnd_seven_bit s : seven_bit s = true → seven_bit (trimEnd s) = true.
Proof.
  induction s as [|c s IH]; simpl; [done|].
  intros [Hc Hs]%andb_true_iff. specialize (IH Hs).
  destruct (trimEnd s) as [|d t].
  - destruct (is_white c); simpl; [done | by rewrite Hc].
  - cbn [seven_bit] in *. by rewrite Hc, IH.
Qed.

Lemma trim_seven_bit s : seven_bit s = true → seven_bit (trim s) = true.
Proof. intros Hs. by apply trimEnd_seven_bit, trimStart_seven_bit. Qed.

Lemma normalizeTag_seven_bit s :
  seven_bit s = true → seven_bit (normalizeTag s) = true.
Proof.
  intros Hs. unfold normalizeTag. by rewrite toLowerCase_seven_bit, trim_seven_bit.
Qed.

(** X12.  On strings of 7-bit characters, where [trim] and [toLowerCase]
    are the built-ins, what the handlers read of a query string is
    normalised once and for all: [qString] yields only trimmed, non-empty
    strings of 7-bit characters (a blank or repeated parameter counts as
    absent), trimming and lower-casing commute, and [normalizeTag] makes a
    tag of 7-bit characters in which it changes nothing. *)
Theorem query_values_are_normalised :
  (∀ raw s, seven_bit raw = true → qString (Some (QString raw)) = Some s →
     s ≠ "" ∧ trim s = s ∧ seven_bit s = true ∧
     qString (Some (QString s)) = Some s) ∧
  (∀ l, qString (Some (QArray l)) = None) ∧
  (∀ s, seven_bit s = true → trim s = "" →
     qString (Some (QString s)) = None) ∧
  (∀ s, seven_bit s = true → trim (toLowerCase s) = toLowerCase (trim s)) ∧
  (∀ s, seven_bit s = true →
     seven_bit (normalizeTag s) = true ∧
     normalizeTag (normalizeTag s) = normalizeTag s).
Proof.
  split; [|split; [|split; [|split]]].
  - intros raw s Hraw Hq. pose proof (qString_truthy _ _ Hq) as Ht.
    unfold qString in Hq.
    destruct (truthy (trim raw)); [|done]. injection Hq as <-.
    split; [by apply truthy_nonempty|]. split; [apply trim_idemp|].
    split; [by apply trim_seven_bit|].
    unfold qString. by rewrite trim_idemp, Ht.
  - done.
  - intros s _ Hs. unfold qString. by rewrite Hs.
  - intros s _. apply trim_lower.
  - intros s Hs. split; [by apply normalizeTag_seven_bit|].
    apply normalizeTag_idemp.
Qed.

Lemma qString_seven_bit (q : gmap string qval) k s :
  seven_bit_query q → qString (q !! k) = Some s → seven_bit s = true.
Proof.
  intros Hq Hs. unfold qString in Hs.
  destruct (q !! k) as [[raw| |]|] eqn:Ek; try done.
  destruct (truthy (trim raw)); [|done]. injection Hs as <-.
  apply trim_seven_bit. by apply (Hq k).
Qed.

Lemma effective_course_tags_normalised explicitCourse an t :
  (∀ c, explicitCourse = Some c → seven_bit c = true) →
  (∀ c, c ∈ analysis_courses an → seven_bit c = true) →
  t ∈ effective_course_tags explicitCourse an →
  seven_bit t = true ∧ normalizeTag t = t.
Proof.
  unfold effective_course_tags. intros Hq Han Ht.
  apply list_elem_of_fmap in Ht as (c & -> & Hc).
  split; [|apply normalizeTag_idemp]. apply normalizeTag_seven_bit.
  apply list_elem_of_In, filter_In in Hc as [Hc _].
  apply in_app_or in Hc as [Hc|Hc].
  - apply Hq. destruct explicitCourse as [c'|]; simpl in Hc; [|done].
    by destruct Hc as [->|[]].
  - by apply Han, list_elem_of_In.
Qed.

(** X13.  The course filters compare normalised tags with the stored tags
    as they are.  For a query and an analysis whose strings are of 7-bit
    characters, where [trim] and [toLowerCase] are the built-ins: when
    [GET /ai/job-roles] filters by course, every role it returns carries a
    tag of 7-bit characters that is already trimmed and lower-case, and the
    same holds for [GET /scholarships] and the course it filters by.  A
    catalogue entry whose tags all have an upper-case letter or outer white
    space is therefore never returned under such a course filter. *)
Theorem course_filters_match_normalised_tags_only req w u :
  findOne_id (userId req) (users w) = Some u →
  seven_bit_query (query req) →
  (∀ c, c ∈ analysis_courses (ai u ≫= analysis) → seven_bit c = true) →
  let explicitCourse := qString (query req !! "course") in
  let an := ai u ≫= analysis in
  (effective_course_tags explicitCourse an ≠ [] →
   ∃ roles n dom,
     get_ai_job_roles req w =
       (json 200 (JobRolesBody dom n (job_role_view <$> roles)), w) ∧
     sublist roles (job_roles w) ∧
     ∀ r, r ∈ roles →
       ∃ ts t, role_courseTags r = Some ts ∧ t ∈ ts ∧
               seven_bit t = true ∧ normalizeTag t = t) ∧
  (∀ c l, effective_course explicitCourse an = Some c → c ≠ "" →
     effective_level (qString (query req !! "academicLevel")) (profile u)
       = Some l →
   ∃ items n f,
     get_scholarships req w =
       (json 200 (ScholarshipsBody f n (scholarship_view <$> items)), w) ∧
     sublist items (scholarships_col w) ∧
     ∀ s, s ∈ items →
       ∃ t, t ∈ courseTags s ∧ seven_bit t = true ∧ normalizeTag t = t).
Proof.
  intros Hu Hquery Han explicitCourse an.
  assert (∀ c, explicitCourse = Some c → seven_bit c = true) as Hexp.
  { intros c Hc. by apply (qString_seven_bit (query req) "course"). }
  split.
  - intros Htags. rewrite (get_ai_job_roles_found req w u Hu). cbv zeta.
    fold explicitCourse an.
    rewrite bool_decide_eq_false_2.
    2:{ intros (_ & Hc & Ha). apply Htags. unfold effective_course_tags.
        by rewrite Hc, Ha. }
    eexists _, _, _. split; [reflexivity|].
    pose proof (find_limit_page _ _ 30 (job_roles w)
                  (λ r, role_matches_satisfies
                          (effective_domain (qString (query req !! "domain")) an)
                          (effective_course_tags explicitCourse an) r))
      as (_ & Hsub & Hall & _).
    split; [exact Hsub|]. intros r Hr.
    destruct (Hall r Hr) as [_ Htag].
    destruct (Htag Htags) as (ts & t & Hts & Ht & Hin).
    exists ts, t. split; [done|]. split; [done|].
    by apply (effective_course_tags_normalised explicitCourse an).
  - intros c l Hc Hne Hl. rewrite (get_scholarships_found req w u Hu). cbv zeta.
    fold explicitCourse an. rewrite Hl, Hc.
    eexists _, _, _. split; [reflexivity|].
    pose proof (find_limit_page _ _ 50 (scholarships_col w)
                  (λ s, scholarship_matches_satisfies l
                          (qString (query req !! "category")) (Some c) s
                          (λ c' Hc', qString_truthy _ _ Hc')))
      as (_ & Hsub & Hall & _).
    split; [exact Hsub|]. intros s Hs.
    destruct (Hall s Hs) as (_ & _ & Htag).
    exists (normalizeTag c).
    split; [|split; [|apply normalizeTag_idemp]].
    + apply Htag. unfold nonempty. simpl.
      apply truthy_nonempty in Hne. by rewrite Hne.
    + apply normalizeTag_seven_bit. unfold effective_course in Hc.
      destruct explicitCourse as [c'|] eqn:Ec.
      * injection Hc as <-. by apply Hexp.
      * apply Han. unfold analysis_courses. fold an.
        destruct an as [a|]; [|done]. simpl in Hc.
        destruct (recommendedCourses a) as [|x xs]; [done|].
        injection Hc as <-. simpl. left.
Qed.

Lemma course_filters_match_normalised_tags_only_witness :
  findOne_id 1 (users Sample.world) = Some Sample.asha ∧
  ∃ roles n dom,
    get_ai_job_roles (Sample.request 1 []) Sample.world =
      (json 200 (JobRolesBody dom n (job_role_view <$> roles)), Sample.world) ∧
    ∀ r, r ∈ roles →
      ∃ ts t, role_courseTags r = Some ts ∧ t ∈ ts ∧
              seven_bit t = true ∧ normalizeTag t = t.
Proof.
  split; [reflexivity|].
  destruct (course_filters_match_normalised_tags_only (Sample.request 1 [])
              Sample.world Sample.asha eq_refl) as [Hroles _].
  - intros k raw Hk. discriminate Hk.
  - intros c Hc. vm_compute in Hc.
    repeat (apply elem_of_cons in Hc as [->|Hc]; [reflexivity|]).
    by apply elem_of_nil in Hc.
  - destruct Hroles as (roles & n & dom & Hresp & _ & Hall); [discriminate|].
    exists roles, n, dom. split; [exact Hresp | exact Hall].
Defined.

(** ** The questionnaire page *)

Module Import TestPageFacts.
Import PsychometricTestPage.

Lemma invariant_initial : invariant initial.
Proof.
  unfold invariant. simpl. repeat split; try done.
  - unfold total. simpl. lia.
  - intros j Hj. lia.
Qed.

Lemma q_in_questions st qq : q st = Some qq → id qq ∈ id <$> questions.
Proof.
  unfold q. intros Hq. apply list_elem_of_fmap. exists qq. split; [done|].
  by apply list_elem_of_lookup_2 in Hq.
Qed.

Lemma answered_insert st j k c (st' : State) :
  c ≠ "" → answers st' = <[k := c]> (answers st) →
  answered st j → answered st' j.
Proof.
  intros Hc Ha (qq & v & Hq & Hv & Hne). unfold answered. rewrite Ha.
  destruct (decide (k = id qq)) as [->|Hk].
  - exists qq, c. by rewrite lookup_insert_eq.
  - exists qq, v. by rewrite lookup_insert_ne.
Qed.

Lemma invariant_choose c st : c ≠ "" → invariant st → invariant (choose c st).
Proof.
  intros Hc (Hi & Hbefore & Hdone & Hall). unfold choose.
  destruct (q st) as [qq|] eqn:Hq; [|done].
  unfold invariant. simpl. split; [done|]. split; [|split].
  - intros j Hj. eapply answered_insert; [done | done | by apply Hbefore].
  - intros Hd. destruct (Hdone Hd) as [Hlast Hans]. split; [done|].
    eapply answered_insert; [done | done | done].
  - apply map_Forall_insert_2; [|done]. split; [done|].
    by eapply q_in_questions.
Qed.

Lemma invariant_next st : invariant st → invariant (next st).
Proof.
  intros (Hi & Hbefore & Hdone & Hall). unfold next.
  destruct (q st) as [qq|] eqn:Hq; [|done].
  destruct (answers st !! id qq) as [v|] eqn:Hv; cbn [truthy_opt negb]; [|done].
  destruct (truthy v) eqn:Ht; cbn [negb]; [|done].
  assert (answered st (index st)) as Hnow.
  { exists qq, v. split; [done|]. split; [done|]. by apply truthy_nonempty. }
  destruct (Nat.eqb_spec (index st) (total - 1)) as [Hlast|Hnot].
  - unfold invariant. cbn [index answers done]. done.
  - unfold invariant. cbn [index answers done].
    assert (Nat.min (index st + 1) (total - 1) = S (index st)) as -> by lia.
    split; [lia|]. split; [|split; [|done]].
    + intros j Hj. destruct (decide (j = index st)) as [->|]; [done|].
      destruct (Hbefore j) as (qj & vj & ?); [lia|]. by exists qj, vj.
    + intros Hd. destruct (Hdone Hd) as [Hl _]. lia.
Qed.

Lemma invariant_back st : invariant st → invariant (back st).
Proof.
  intros (Hi & Hbefore & Hdone & Hall). unfold back, invariant. simpl.
  split; [lia|]. split; [|done]. intros j Hj.
  destruct (Hbefore j) as (qq & v & ?); [lia|]. by exists qq, v.
Qed.

Lemma invariant_run es :
  Forall (λ e, chosen e ≠ Some "") es → invariant (run es).
Proof.
  unfold run. intros Hes.
  induction es as [|e es IH] using rev_ind; [apply invariant_initial|].
  rewrite foldl_app. simpl. apply Forall_app in Hes as [Hes He].
  apply Forall_inv in He. specialize (IH Hes).
  destruct e; simpl.
  - apply invariant_choose; [|done]. intros ->. by apply He.
  - by apply invariant_next.
  - by apply invariant_back.
  - apply invariant_initial.
Qed.

Lemma done_answers_all st :
  invariant st → done st = true →
  dom (answers st) = list_to_set (id <$> questions).
Proof.
  intros (Hi & Hbefore & Hdone & Hall) Hd.
  destruct (Hdone Hd) as [Hlast Hans].
  apply set_eq. intros k. rewrite elem_of_dom, elem_of_list_to_set. split.
  - intros [v Hv]. by destruct (Hall k v Hv).
  - intros Hk. apply list_elem_of_fmap in Hk as (qq & -> & Hq).
    apply list_elem_of_lookup_1 in Hq as [j Hj].
    assert (j < total)%nat as Hjt by (by apply lookup_lt_Some in Hj).
    assert (answered st j) as (qq' & v & Hq' & Hv & _).
    { destruct (decide (j = index st)) as [->|]; [done|]. apply Hbefore. lia. }
    rewrite Hj in Hq'. injection Hq' as <-. by exists v.
Qed.

End TestPageFacts.

(** X14.  The questionnaire never gets ahead of its answers.  After any
    sequence of clicks in which no empty choice is made, the page is on one
    of the ten questions, every earlier question has an answer, the answers
    are keyed by question identifiers only, and the page is [done] only
    with all ten questions answered: exactly ten entries, none empty. *)
Theorem questionnaire_done_means_all_answered es :
  Forall (λ e, PsychometricTestPage.chosen e ≠ Some "") es →
  let st := PsychometricTestPage.run es in
  (PsychometricTestPage.index st < 10)%nat ∧
  (∀ j, (j < PsychometricTestPage.index st)%nat →
        PsychometricTestPage.answered st j) ∧
  (size (PsychometricTestPage.answers st) ≤ 10)%nat ∧
  (PsychometricTestPage.done st = true →
   size (PsychometricTestPage.answers st) = 10%nat ∧
   ∀ qq, qq ∈ PsychometricTestPage.questions →
     ∃ v, PsychometricTestPage.answers st !! PsychometricTestPage.id qq = Some v
          ∧ v ≠ "").
Proof.
  intros Hes st. pose proof (invariant_run es Hes) as Hinv. fold st in Hinv.
  pose proof Hinv as (Hi & Hbefore & Hdone & Hall).
  split; [exact Hi|]. split; [exact Hbefore|]. split.
  - rewrite <- size_dom.
    transitivity (size (list_to_set (C := gset string)
                          (PsychometricTestPage.id <$>
                           PsychometricTestPage.questions))).
    + apply subseteq_size. intros k Hk. apply elem_of_dom in Hk as [v Hv].
      apply elem_of_list_to_set. by destruct (Hall k v Hv).
    + by vm_compute.
  - intros Hd. pose proof (done_answers_all st Hinv Hd) as Hdom. split.
    + rewrite <- size_dom, Hdom. by vm_compute.
    + intros qq Hq.
      assert (PsychometricTestPage.id qq ∈ dom (PsychometricTestPage.answers st))
        as Hin.
      { rewrite Hdom. apply elem_of_list_to_set, list_elem_of_fmap. eauto. }
      apply elem_of_dom in Hin as [v Hv]. exists v. split; [done|].
      by destruct (Hall _ v Hv).
Qed.

Lemma questionnaire_done_means_all_answered_witness :
  Forall (λ e, PsychometricTestPage.chosen e ≠ Some "")
    PsychometricTestPage.all_a ∧
  PsychometricTestPage.done
    (PsychometricTestPage.run PsychometricTestPage.all_a) = true ∧
  size (PsychometricTestPage.answers
          (PsychometricTestPage.run PsychometricTestPage.all_a)) = 10%nat.
Proof.
  assert (Forall (λ e, PsychometricTestPage.chosen e ≠ Some "")
            PsychometricTestPage.all_a) as Hes.
  { unfold PsychometricTestPage.all_a.
    repeat (apply Forall_cons; split; [discriminate|]). apply Forall_nil_2. }
  split; [exact Hes|]. split; [reflexivity|].
  destruct (questionnaire_done_means_all_answered _ Hes) as (_ & _ & _ & Hdone).
  apply Hdone. reflexivity.
Defined.

(** X15.  What the finished questionnaire posts is what the server accepts:
    when the page is [done] (no empty choice having been made), the body of
    [apiSavePsychometric] passes [psychometricSchema] with the page's
    answers, all of them, and [POST /user/psychometric] for a caller whose
    account exists answers [{ok: true}]; the stored document then holds
    exactly the page's answers under the time of the save, has that time as
    [updatedAt], and is otherwise as it was. *)
Theorem finished_questionnaire_is_accepted
    env bcrypt_hash bcrypt_compare jwt_sign JSON_parse is_email parser_message
    es now uid w u :
  Forall (λ e, PsychometricTestPage.chosen e ≠ Some "") es →
  PsychometricTestPage.done (PsychometricTestPage.run es) = true →
  findOne_id uid (users w) = Some u →
  let st := PsychometricTestPage.run es in
  let req :=
    {| userId := uid; query := ∅; body := PsychometricTestPage.submission st |} in
  let result :=
    handle env bcrypt_hash bcrypt_compare jwt_sign JSON_parse is_email
      parser_message (PostPsychometric now req) w in
  psychometricSchema (PsychometricTestPage.submission st)
    = success (PsychometricTestPage.answers st) ∧
  result.1 = json 200 OkBody ∧
  findOne_id uid (users result.2) =
    Some {| _id := _id u; email := email u; passwordHash := passwordHash u;
            createdAt := createdAt u; updatedAt := now; profile := profile u;
            psychometric :=
              Some {| answers := PsychometricTestPage.answers st;
                      submittedAt := now |};
            ai := ai u |}.
Proof.
  intros Hes Hd Hu st req result.
  pose proof (invariant_run es Hes) as Hinv. fold st in Hinv.
  pose proof (done_answers_all st Hinv Hd) as Hdom.
  destruct Hinv as (_ & _ & _ & Hall).
  assert (PsychometricTestPage.answers st !! "__proto__" = None) as Hproto.
  { destruct (PsychometricTestPage.answers st !! "__proto__") as [v|] eqn:E;
      [|done].
    destruct (Hall _ _ E) as [_ Hk]. vm_compute in Hk.
    repeat (apply elem_of_cons in Hk as [Hk|Hk]; [discriminate Hk|]).
    by apply elem_of_nil in Hk. }
  assert (psychometric_contract (PsychometricTestPage.submission st)
            (PsychometricTestPage.answers st)) as Hc.
  { eexists _, (PsychometricTestPage.answers st).
    split; [reflexivity|]. split; [apply lookup_singleton_eq|].
    split; [intros k v Hv; by destruct (Hall k v Hv)|].
    split; [by rewrite delete_id|].
    assert (size (PsychometricTestPage.answers st) = 10%nat) as ->; [|lia].
    rewrite <- size_dom, Hdom. by vm_compute. }
  split; [by apply psychometricSchema_contract|].
  unfold result, handle. cbn [request_body body strict req route].
  destruct (post_user_psychometric_valid now req w u _ Hu Hc) as (us & -> & Hf).
  done.
Qed.

Lemma finished_questionnaire_is_accepted_witness :
  PsychometricTestPage.done
    (PsychometricTestPage.run PsychometricTestPage.all_a) = true ∧
  findOne_id 2 (users Sample.world) = Some Sample.ravi ∧
  (handle Sample.env Sample.bcrypt_hash Sample.bcrypt_compare Sample.jwt_sign
     Sample.parse Sample.is_email Sample.parser_message
     (PostPsychometric 7000
        {| userId := 2; query := ∅;
           body :=
             PsychometricTestPage.submission
               (PsychometricTestPage.run PsychometricTestPage.all_a) |})
     Sample.world).1
  = json 200 OkBody.
Proof.
  split; [reflexivity|]. split; [reflexivity|].
  assert (Forall (λ e, PsychometricTestPage.chosen e ≠ Some "")
            PsychometricTestPage.all_a) as Hes.
  { unfold PsychometricTestPage.all_a.
    repeat (apply Forall_cons; split; [discriminate|]). apply Forall_nil_2. }
  destruct (finished_questionnaire_is_accepted Sample.env Sample.bcrypt_hash
              Sample.bcrypt_compare Sample.jwt_sign Sample.parse
              Sample.is_email Sample.parser_message
              PsychometricTestPage.all_a 7000
              2 Sample.world Sample.ravi Hes eq_refl eq_refl)
    as (_ & Hok & _).
  exact Hok.
Defined.

(** ** The client library *)

Lemma fetchJson_requests JSON_parse fetch b path opts r :
  r ∈ (Client.fetchJson JSON_parse fetch b path opts).2 →
  ∃ hs,
    r = {| Client.url :=
             Client.getBaseUrl b +:+
               (if startsWith "/" path then path else "/" +:+ path);
           Client.http_method := Client.method opts;
           Client.http_body := Client.body opts;
           Client.http_headers := hs |} ∧
    (if Client.auth opts
     then ∃ token, Client.getToken b = Some token ∧ token ≠ "" ∧
          hs = <["authorization" := "Bearer " +:+ token]>
                 (<["content-type" := "application/json"]> (Client.headers opts))
     else hs = <["content-type" := "application/json"]> (Client.headers opts)).
Proof.
  unfold Client.fetchJson.
  destruct (Client.auth opts) eqn:Ea.
  - destruct (Client.getToken b) as [token|] eqn:Et; cbn zeta;
      [|by intros ?%elem_of_nil].
    unfold truthy. rewrite negb_involutive.
    destruct (String.eqb_spec token "") as [->|Hne]; [by intros ?%elem_of_nil|].
    cbn zeta. intros Hr. eexists. split; [|by exists token].
    repeat case_match; cbn [snd] in Hr;
      by apply list_elem_of_singleton in Hr.
  - cbn zeta. intros Hr. eexists. split; [|done].
    repeat case_match; cbn [snd] in Hr;
      by apply list_elem_of_singleton in Hr.
Qed.

Lemma auth_bearer env jwt_verify t sub :
  auth env jwt_verify (Some ("Bearer " +:+ t)) = inr sub
  ↔ jwt_verify t (JWT_SECRET env) = Some (Some sub) ∧ sub ≠ "".
Proof.
  unfold auth, startsWith. rewrite prefix_app. cbv zeta. rewrite slice_app.
  destruct (jwt_verify t (JWT_SECRET env)) as [[s|]|];
    [|by split; [|intros [? _]]..].
  destruct s as [|c s]; simpl.
  - split; [done|]. by intros [[= <-] ?].
  - split; [by intros [= <-] | by intros [[= <-] _]].
Qed.

(** X16.  A call that asks for authentication reaches the network only with
    a stored, non-empty token, and then carries it in the [authorization]
    header after [Bearer] and one space; the server's [auth] passes that
    header exactly when jsonwebtoken verifies that same token with a
    non-empty string subject, which becomes the [userId]. *)
Theorem authenticated_calls_carry_the_stored_token
    env jwt_verify JSON_parse fetch b path opts r :
  Client.auth opts = true →
  r ∈ (Client.fetchJson JSON_parse fetch b path opts).2 →
  ∃ token,
    Client.getToken b = Some token ∧ token ≠ "" ∧
    Client.http_headers r !! "authorization" = Some ("Bearer " +:+ token) ∧
    ∀ sub,
      auth env jwt_verify (Client.http_headers r !! "authorization") = inr sub
      ↔ jwt_verify token (JWT_SECRET env) = Some (Some sub) ∧ sub ≠ "".
Proof.
  intros Ha Hr. apply fetchJson_requests in Hr as (hs & -> & Hhs).
  rewrite Ha in Hhs. destruct Hhs as (token & Ht & Hne & ->).
  exists token. cbn [Client.http_headers]. rewrite lookup_insert_eq.
  split; [done|]. split; [done|]. split; [done|].
  intros sub. apply auth_bearer.
Qed.

Lemma authenticated_calls_carry_the_stored_token_witness :
  ∃ token,
    Client.getToken ClientDemo.browser = Some token ∧
    auth Sample.env Demo.jwt_verify (Some ("Bearer " +:+ token))
    = inr "000000000000000000000001".
Proof.
  destruct (authenticated_calls_carry_the_stored_token Sample.env
              Demo.jwt_verify Sample.parse (ClientDemo.answers 200 "[]")
              ClientDemo.browser "/me" ClientDemo.get
              {| Client.url := "https://api.example.org/me";
                 Client.http_method := None; Client.http_body := None;
                 Client.http_headers :=
                   <["authorization" := "Bearer " +:+ ClientDemo.token]>
                     (<["content-type" := "application/json"]> ∅) |}
              eq_refl)
    as (token & Ht & _ & Hh & Hauth).
  - vm_compute. left.
  - exists token. split; [exact Ht|].
    rewrite <- Hh. apply Hauth. split; [|done].
    assert (token = ClientDemo.token) as ->
      by (vm_compute in Ht; by injection Ht as <-).
    reflexivity.
Defined.

(** X17.  Without a usable token a call that asks for authentication makes
    no request at all and throws [Not authenticated]: when nothing is stored,
    when the stored token is empty, where there is no [window], and after
    [clearToken]. *)
Theorem calls_without_a_token_send_nothing JSON_parse fetch b path opts :
  Client.auth opts = true →
  let refused b :=
    Client.fetchJson JSON_parse fetch b path opts
    = (Client.throws (Client.new_Error (JStr "Not authenticated")), []) in
  (Client.getToken b = None ∨ Client.getToken b = Some "" → refused b) ∧
  (Client.localStorage b = None → refused b) ∧
  (∀ b', Client.clearToken b = Some b' → refused b') ∧
  (refused b → Client.getToken b = None ∨ Client.getToken b = Some "").
Proof.
  intros Ha refused.
  assert (∀ b, Client.getToken b = None ∨ Client.getToken b = Some ""
               → refused b) as Hno.
  { intros b0 H. unfold refused, Client.fetchJson. rewrite Ha.
    by destruct H as [-> | ->]. }
  split; [apply Hno|]. split; [|split].
  - intros Hw. apply Hno. left. unfold Client.getToken. by rewrite Hw.
  - intros b' Hc. apply Hno. left. unfold Client.clearToken in Hc.
    destruct (Client.localStorage b) as [storage|] eqn:Es; [|done].
    injection Hc as <-. unfold Client.getToken. cbn [Client.localStorage].
    apply lookup_delete_eq.
  - unfold refused, Client.fetchJson. rewrite Ha.
    destruct (Client.getToken b) as [token|]; [|by left].
    destruct token as [|c token]; [by right|].
    cbn [truthy String.eqb negb]. cbn zeta.
    intros H. by repeat case_match.
Qed.

Lemma calls_without_a_token_send_nothing_witness :
  Client.fetchJson Sample.parse (ClientDemo.answers 200 "[]")
    ClientDemo.server_side "/me" ClientDemo.get
  = (Client.throws (Client.new_Error (JStr "Not authenticated")), []).
Proof.
  exact (proj1 (proj2
    (calls_without_a_token_send_nothing Sample.parse
       (ClientDemo.answers 200 "[]") ClientDemo.server_side "/me"
       ClientDemo.get eq_refl)) eq_refl).
Defined.

(** ** What the server answers and what the client makes of it *)

(** One case for each answer of a handler. *)
Ltac status_cases :=
  repeat case_match; cbn [fst status payload json body_error Client.ok];
  repeat match goal with H : ∀ m c d, body_error _ = None |- _ => rewrite H end;
  (split; [set_solver | split; [by eauto | by intros [? [=]]]]).

Lemma ai_endpoint_statuses {T} (s : Slot T) env JSON_parse now completion
    req w :
  (∀ m c d, body_error (slot_body s m c d) = None) →
  let resp := (ai_endpoint s env JSON_parse now completion req w).1 in
  status resp ∈ [200; 400; 404; 500; 502] ∧
  (Client.ok (status resp) = false ↔ is_Some (body_error (payload resp))).
Proof.
  intros Hbody. unfold ai_endpoint.
  status_cases.
Qed.

Lemma handle_statuses
    env bcrypt_hash bcrypt_compare jwt_sign JSON_parse is_email parser_message
    r w :
  let resp :=
    (handle env bcrypt_hash bcrypt_compare jwt_sign JSON_parse is_email
       parser_message r w).1 in
  status resp ∈ route_statuses r ∧
  (Client.ok (status resp) = false ↔ is_Some (body_error (payload resp))).
Proof.
  unfold handle. destruct (strict (request_body r)).
  2:{ cbn [fst status payload json body_error Client.ok].
      split; [destruct r; cbn [route_statuses]; set_solver|].
      split; [by eauto | done]. }
  destruct r; cbn [route route_statuses].
  - unfold post_auth_signup. status_cases.
  - unfold post_auth_login. status_cases.
  - unfold get_me. status_cases.
  - unfold post_user_profile. status_cases.
  - unfold post_user_psychometric. status_cases.
  - change (get_ai_portfolio env JSON_parse now completion req w)
      with (ai_endpoint portfolio_slot env JSON_parse now completion req w).
    by apply ai_endpoint_statuses.
  - change (get_ai_career_roadmap env JSON_parse now completion req w)
      with (ai_endpoint roadmap_slot env JSON_parse now completion req w).
    by apply ai_endpoint_statuses.
  - unfold get_ai_job_roles. status_cases.
  - unfold get_scholarships. status_cases.
Qed.

(** X18.  Every request is answered with one of the status codes that the
    handler of its route names or with the 500 of the global error handler,
    which is the answer, with the parser's message and no change, to every
    request whose body is no object and no array; [auth] refuses with 401.
    The body of the answer carries an [error] string exactly when the
    status is outside 200 to 299. *)
Theorem failures_carry_an_error
    env bcrypt_hash bcrypt_compare jwt_sign jwt_verify JSON_parse is_email
    parser_message :
  (∀ r w,
     let resp :=
       (handle env bcrypt_hash bcrypt_compare jwt_sign JSON_parse is_email
          parser_message r w).1 in
     status resp ∈ route_statuses r ∧
     (Client.ok (status resp) = false
      ↔ is_Some (body_error (payload resp))) ∧
     (¬ object_or_array (request_body r) →
      handle env bcrypt_hash bcrypt_compare jwt_sign JSON_parse is_email
        parser_message r w
      = (json 500 (ErrorBody (parser_message (request_body r))), w))) ∧
  (∀ h resp,
     auth env jwt_verify h = inl resp →
     status resp = 401%nat ∧ is_Some (body_error (payload resp))).
Proof.
  split.
  { intros r w.
    destruct (handle_statuses env bcrypt_hash bcrypt_compare jwt_sign
                JSON_parse is_email parser_message r w) as [Hin Hok].
    split; [exact Hin|]. split; [exact Hok|]. apply handle_refused. }
  intros h resp. unfold auth.
  repeat case_match; intros [= <-];
    cbn [status payload json body_error]; by eauto.
Qed.

Lemma fetchJson_reaches JSON_parse fetch b path opts :
  Client.reaches_fetch b opts →
  ∃ q,
    Client.fetchJson JSON_parse fetch b path opts =
      (Client.settle JSON_parse (fetch q), [q]).
Proof.
  intros Hr. unfold Client.fetchJson.
  assert (∃ hs,
    (if Client.auth opts
     then match Client.getToken b with
          | Some token =>
              if negb (truthy token) then None
              else Some (<["authorization" := "Bearer " +:+ token]>
                           (<["content-type" := "application/json"]>
                              (Client.headers opts)))
          | None => None
          end
     else Some (<["content-type" := "application/json"]> (Client.headers opts)))
    = Some hs) as [hs ->].
  { destruct Hr as [-> | (token & -> & Hne)]; [by eexists|].
    destruct (Client.auth opts); [|by eexists].
    destruct token; [done | by eexists]. }
  cbn zeta. match goal with |- context [fetch ?x] => exists x end.
  unfold Client.settle.
  destruct (fetch _) as [err|res_status text]; [done|].
  destruct (if truthy text then JSON_parse text else Some JNull); [|done].
  by destruct (Client.ok res_status).
Qed.

(** X19.  The client reports the server's own error.  When a call reaches
    the network and the answer is a response of the server whose text parses
    to the object sent, the call returns that object if the status is from
    200 to 299, and otherwise throws an [Error] whose message is the
    [error] string of the body: the fallback [Request failed (status)] is
    never the message for an answer of a route of this server. *)
Theorem client_reports_the_servers_error
    env bcrypt_hash bcrypt_compare jwt_sign is_email parser_message parse r w
    JSON_parse fetch b path opts text m :
  let resp :=
    (handle env bcrypt_hash bcrypt_compare jwt_sign parse is_email
      parser_message r w).1 in
  Client.reaches_fetch b opts →
  (∀ q, fetch q = Client.responds (status resp) text) →
  text ≠ "" →
  JSON_parse text = Some (JObj m) →
  m !! "error" = JStr <$> body_error (payload resp) →
  (Client.fetchJson JSON_parse fetch b path opts).1 =
    match body_error (payload resp) with
    | Some e => Client.throws (Client.new_Error (JStr e))
    | None => Client.returns (JObj m)
    end.
Proof.
  intros resp Hr Hf Ht Hp Hm.
  destruct (fetchJson_reaches JSON_parse fetch b path opts Hr) as [q ->].
  cbn [fst]. rewrite Hf. unfold Client.settle.
  assert (truthy text = true) as -> by by destruct text.
  rewrite Hp. cbn [Client.data_error]. rewrite Hm.
  destruct (handle_statuses env bcrypt_hash bcrypt_compare jwt_sign parse
              is_email parser_message r w) as [_ Hok].
  fold resp in Hok.
  destruct (body_error (payload resp)) as [e|] eqn:Ee; cbn [fmap option_fmap option_map].
  - assert (Client.ok (status resp) = false) as -> by (apply Hok; eauto).
    done.
  - destruct (Client.ok (status resp)); [done|].
    by destruct (proj1 Hok eq_refl) as [? [=]].
Qed.

Lemma client_reports_the_servers_error_witness :
  (Client.fetchJson ClientDemo.parse
     (ClientDemo.answers 404 "{error: User not found}") ClientDemo.browser
     "/me" ClientDemo.get).1
  = Client.throws (Client.new_Error (JStr "User not found")).
Proof.
  apply (client_reports_the_servers_error Sample.env Sample.bcrypt_hash
           Sample.bcrypt_compare Sample.jwt_sign Sample.is_email
           Sample.parser_message Sample.parse
           (GetMe (Sample.request 99 [])) Sample.world ClientDemo.parse
           (ClientDemo.answers 404 "{error: User not found}")
           ClientDemo.browser "/me" ClientDemo.get
           "{error: User not found}" {[ "error" := JStr "User not found" ]}).
  - right. exists ClientDemo.token. split; [reflexivity | discriminate].
  - intros q. reflexivity.
  - discriminate.
  - reflexivity.
  - reflexivity.
Defined.

(** ** The address of a request *)

Lemma strip_trailing_slashes_ends s :
  Client.ends_with_slash (Client.strip_trailing_slashes s) = false.
Proof.
  induction s as [|c s IH]; [done|]. cbn [Client.strip_trailing_slashes].
  destruct (Client.strip_trailing_slashes s) as [|d r].
  - destruct (Ascii.eqb c "/") eqn:E; [done|]. simpl. exact E.
  - exact IH.
Qed.

Lemma strip_trailing_slashes_app s :
  ∃ k, s = Client.strip_trailing_slashes s +:+ slashes k.
Proof.
  induction s as [|c s [k IH]]; [by exists 0%nat|].
  cbn [Client.strip_trailing_slashes].
  destruct (Client.strip_trailing_slashes s) as [|d r].
  - destruct (Ascii.eqb_spec c "/") as [->|_].
    + exists (S k). by rewrite IH at 1.
    + exists k. by rewrite IH at 1.
  - exists k. by rewrite IH at 1.
Qed.

(** X20.  The address requested is the base, one slash and the path without
    its leading slash if it has one.  The base never ends in a slash: it is
    the configured one without the slashes at its end, all of them and
    nothing else, or [http://localhost:4000] when none is configured or the
    configured one is empty. *)
Theorem request_url_joins_base_and_path JSON_parse fetch b path opts r :
  r ∈ (Client.fetchJson JSON_parse fetch b path opts).2 →
  (∃ rest,
     Client.url r = Client.getBaseUrl b +:+ "/" +:+ rest ∧
     (path = "/" +:+ rest ∨ path = rest ∧ startsWith "/" path = false)) ∧
  Client.ends_with_slash (Client.getBaseUrl b) = false ∧
  match Client.NEXT_PUBLIC_API_BASE_URL b with
  | Some (String c base) =>
      ∃ k, String c base = Client.getBaseUrl b +:+ slashes k
  | _ => Client.getBaseUrl b = "http://localhost:4000"
  end.
Proof.
  intros Hr. apply fetchJson_requests in Hr as (hs & -> & _).
  cbn [Client.url]. split; [|split].
  - destruct (startsWith "/" path) eqn:E.
    + apply prefix_inv in E as [rest ->]. exists rest. by split; [|left].
    + exists path. by split; [|right].
  - unfold Client.getBaseUrl.
    destruct (Client.NEXT_PUBLIC_API_BASE_URL b) as [[|c base]|]; [done| |done].
    apply strip_trailing_slashes_ends.
  - unfold Client.getBaseUrl.
    destruct (Client.NEXT_PUBLIC_API_BASE_URL b) as [[|c base]|]; [done| |done].
    apply strip_trailing_slashes_app.
Qed.

Lemma request_url_joins_base_and_path_witness :
  ∃ rest,
    "https://api.example.org/me" =
      Client.getBaseUrl ClientDemo.browser +:+ "/" +:+ rest ∧
    ("me" = "/" +:+ rest ∨ "me" = rest ∧ startsWith "/" "me" = false).
Proof.
  refine (proj1
    (request_url_joins_base_and_path Sample.parse (ClientDemo.answers 200 "[]")
       ClientDemo.browser "me" ClientDemo.get
       {| Client.url := "https://api.example.org/me";
          Client.http_method := None; Client.http_body := None;
          Client.http_headers :=
            <["authorization" := "Bearer " +:+ ClientDemo.token]>
              (<["content-type" := "application/json"]> ∅) |} _)).
  vm_compute. left.
Defined.

(** ** Regular expressions *)

Lemma append_nil_l (s : string) : "" +:+ s = s.
Proof. done. Qed.

Lemma append_cons c (s t : string) : String c s +:+ t = String c (s +:+ t).
Proof. done. Qed.

Lemma append_nil_r (s : string) : s +:+ "" = s.
Proof.
  induction s as [|c s IH]; [done|]. by rewrite append_cons, IH.
Qed.

Lemma append_assoc (x y z : string) : (x +:+ y) +:+ z = x +:+ (y +:+ z).
Proof.
  induction x as [|c x IH]; [done|]. by rewrite !append_cons, IH.
Qed.

Lemma nullable_Matches r : Regex.nullable r = true ↔ Regex.Matches r "".
Proof.
  split.
  - induction r as [| |p|r IHr s IHs|r IHr s IHs|r IHr]; simpl; try done.
    + intros _. constructor.
    + intros [Hr Hs]%andb_true_iff.
      apply (Regex.MSeq r s "" ""); auto.
    + intros [Hr|Hs]%orb_true_iff; [apply Regex.MAltL | apply Regex.MAltR]; auto.
    + intros _. constructor.
  - intros H. remember "" as e eqn:He.
    induction H as [|p c Hp|r s x y Hx IHx Hy IHy|r s x Hx IHx|r s x Hx IHx
                    |r|r x y Hx IHx Hy IHy]; simpl; try done.
    + destruct x; [|done]. rewrite append_nil_l in He. by rewrite IHx, IHy.
    + by rewrite IHx.
    + rewrite IHx by done. apply orb_true_r.
Qed.

Lemma derive_Matches c r s :
  Regex.Matches (Regex.derive c r) s ↔ Regex.Matches r (String c s).
Proof.
  split.
  - revert s.
    induction r as [| |p|r IHr t IHt|r IHr t IHt|r IHr]; intros s; simpl.
    + inversion 1.
    + inversion 1.
    + destruct (p c) eqn:Hp; inversion 1; subst. by constructor.
    + destruct (Regex.nullable r) eqn:Hn.
      * inversion 1 as [| | | ? ? ? Hl | ? ? ? Hr | |]; subst.
        -- inversion Hl as [| |? ? x y Hx Hy| | | |]; subst.
           apply (Regex.MSeq r t (String c x) y); auto.
        -- apply (Regex.MSeq r t "" (String c s)); [|by auto].
           by apply nullable_Matches.
      * inversion 1 as [| |? ? x y Hx Hy| | | |]; subst.
        apply (Regex.MSeq r t (String c x) y); auto.
    + inversion 1; subst; [apply Regex.MAltL | apply Regex.MAltR]; auto.
    + inversion 1 as [| |? ? x y Hx Hy| | | |]; subst.
      apply (Regex.MStarS r (String c x) y); auto.
  - intros H. remember (String c s) as cs eqn:Hcs. revert s Hcs.
    induction H as [|p d Hp|r t x y Hx IHx Hy IHy|r t x Hx IHx|r t x Hx IHx
                    |r|r x y Hx IHx Hy IHy]; intros s0 Hcs; simpl; try done.
    + injection Hcs as -> <-. rewrite Hp. constructor.
    + destruct x as [|d x]; rewrite ?append_nil_l, ?append_cons in Hcs.
      * subst y. apply nullable_Matches in Hx. rewrite Hx.
        apply Regex.MAltR. by apply IHy.
      * injection Hcs as -> <-.
        assert (Regex.Matches (Regex.Seq (Regex.derive c r) t) (x +:+ y)).
        { constructor; [by apply IHx | done]. }
        destruct (Regex.nullable r); [by apply Regex.MAltL | done].
    + apply Regex.MAltL. by apply IHx.
    + apply Regex.MAltR. by apply IHx.
    + destruct x as [|d x]; rewrite ?append_nil_l, ?append_cons in Hcs.
      * by apply IHy.
      * injection Hcs as -> <-. constructor; [by apply IHx | done].
Qed.

Lemma test_Matches r s : Regex.test r s = true ↔ Regex.Matches r s.
Proof.
  revert r. induction s as [|c s IH]; intros r; simpl.
  - apply nullable_Matches.
  - rewrite IH. apply derive_Matches.
Qed.

Lemma Star_Class p s :
  Regex.Matches (Regex.Star (Regex.Class p)) s ↔ Regex.all_chars p s = true.
Proof.
  split.
  - intros H. remember (Regex.Star (Regex.Class p)) as r eqn:Hr.
    induction H as [| | | | | |r x y Hx _ Hy IHy]; try done.
    injection Hr as ->. inversion Hx as [|? c Hc| | | | |]; subst.
    rewrite append_cons, append_nil_l. simpl.
    rewrite IHy by done. by rewrite Hc.
  - induction s as [|c s IH]; simpl; [constructor|].
    intros [Hc Hs]%andb_true_iff.
    apply (Regex.MStarS _ (String c "") s); [by constructor | auto].
Qed.

Lemma Plus_Class p s :
  Regex.Matches (Regex.Plus (Regex.Class p)) s
  ↔ s ≠ "" ∧ Regex.all_chars p s = true.
Proof.
  split.
  - inversion 1 as [| |? ? x y Hx Hy| | | |]; subst.
    inversion Hx as [|? c Hc| | | | |]; subst. apply Star_Class in Hy.
    rewrite append_cons, append_nil_l. simpl.
    by rewrite Hy, Hc.
  - intros [Hne Hs]. destruct s as [|c s]; [done|]. simpl in Hs.
    apply andb_true_iff in Hs as [Hc Hs].
    apply (Regex.MSeq _ _ (String c "") s);
      [by constructor | by apply Star_Class].
Qed.

(** ** The login page *)

Lemma email_pattern_language (s : string) :
  Regex.Matches LoginPage.email_pattern s ↔ LoginPage.well_formed_address s.
Proof.
  unfold LoginPage.email_pattern, LoginPage.well_formed_address. split.
  - inversion 1 as [| |? ? l r1 Hl H1| | | |]; subst.
    inversion H1 as [| |? ? a r2 Ha H2| | | |]; subst.
    inversion H2 as [| |? ? d r3 Hd H3| | | |]; subst.
    inversion H3 as [| |? ? o t Ho Ht| | | |]; subst.
    inversion Ha as [|? c Hc| | | | |]; subst.
    inversion Ho as [|? c' Hc'| | | | |]; subst.
    apply Ascii.eqb_eq in Hc as <-, Hc' as <-.
    apply Plus_Class in Hl as [? ?], Hd as [? ?], Ht as [? ?].
    by exists l, d, t.
  - intros (l & d & t & -> & Hl & Hd & Ht & Hcl & Hcd & Hct).
    apply Regex.MSeq; [by apply Plus_Class|].
    apply (Regex.MSeq _ _ "@"); [by constructor|].
    apply Regex.MSeq; [by apply Plus_Class|].
    apply (Regex.MSeq _ _ "."); [by constructor|].
    by apply Plus_Class.
Qed.

(** X21.  The page takes an address for valid exactly when, once trimmed,
    it is some characters, an [@], some characters, a dot and some
    characters, none of them white space or another [@], each run at least
    one character long.  So a valid address has no white space inside and
    exactly one [@]. *)
Theorem valid_addresses_are_the_well_formed_ones (email : string) :
  (LoginPage.isValidEmail email = true
   ↔ LoginPage.well_formed_address (trim email)) ∧
  (LoginPage.isValidEmail email = true →
   ∃ l r,
     trim email = l +:+ "@" +:+ r ∧
     Regex.all_chars LoginPage.not_space_or_at l = true ∧
     Regex.all_chars LoginPage.not_space_or_at r = true).
Proof.
  unfold LoginPage.isValidEmail.
  rewrite test_Matches, email_pattern_language.
  split; [done|].
  intros (l & d & t & -> & _ & _ & _ & Hl & Hd & Ht).
  exists l, (d +:+ "." +:+ t). split; [done|]. split; [done|].
  clear Hl. induction d as [|c d IH].
  - by rewrite append_nil_l, append_cons, append_nil_l.
  - rewrite append_cons. simpl in Hd |- *.
    apply andb_true_iff in Hd as [-> Hd]. by apply IH.
Qed.

Lemma login_values_checked values :
  LoginPage.keys (LoginPage.errors values) = []
  ↔ LoginPage.isValidEmail (LoginPage.email values) = true ∧
    (6 ≤ String.length (LoginPage.password values))%nat.
Proof.
  unfold LoginPage.keys, LoginPage.errors.
  cbn [LoginPage.email_error LoginPage.password_error].
  destruct (LoginPage.isValidEmail (LoginPage.email values)) eqn:Ev.
  - assert (truthy (trim (LoginPage.email values)) = true) as ->.
    { unfold LoginPage.isValidEmail in Ev.
      by destruct (trim (LoginPage.email values)). }
    cbn [negb app].
    destruct (LoginPage.password values) as [|c p]; cbn [truthy String.eqb negb].
    + split; [done | simpl; lia].
    + destruct (Nat.ltb_spec (String.length (String c p)) 6);
        (split; [done || lia | done || lia]).
  - split; [|by intros [? _]].
    by destruct (negb (truthy (trim (LoginPage.email values)))).
Qed.

Lemma apiLogin_request JSON_parse JSON_stringify fetch b e p :
  ∃ q,
    Client.url q = Client.getBaseUrl b +:+ "/auth/login" ∧
    Client.http_method q = Some "POST" ∧
    Client.http_body q =
      Some (JSON_stringify (Client.credentials_json e p)) ∧
    Client.http_headers q !! "authorization" = None ∧
    Client.apiLogin JSON_parse JSON_stringify fetch b e p =
      (Client.settle JSON_parse (fetch q), [q]).
Proof.
  unfold Client.apiLogin.
  match goal with |- context [Client.fetchJson _ _ _ ?pa ?o] =>
    destruct (fetchJson_reaches JSON_parse fetch b pa o) as [q Hq];
      [by left|];
    destruct (fetchJson_requests JSON_parse fetch b pa o q)
      as (hs & Hshape & Hhs)
  end.
  { rewrite Hq. cbn [snd]. apply list_elem_of_here. }
  exists q. cbn [Client.auth] in Hhs. subst hs. rewrite Hshape at 1 2 3 4.
  cbn [Client.url Client.http_method Client.http_body Client.http_headers
       Client.method Client.body Client.headers].
  split; [done|]. split; [done|]. split; [done|].
  split; [by rewrite lookup_insert_ne | exact Hq].
Qed.

(** X22.  Submitting the login form posts nothing unless the trimmed address
    is well formed and the password has at least 6 characters; nothing is
    stored then and the page stays.  Otherwise it makes one request: a POST
    to [/auth/login] under the base address, without an [authorization]
    header, whose body is the trimmed address and the password as typed; the
    server's [loginSchema] accepts that body exactly when zod's e-mail
    pattern accepts the address. *)
Theorem login_page_posts_only_checked_credentials
    JSON_parse JSON_stringify fetch String_of engine_message is_email st b :
  let out :=
    LoginPage.onSubmit JSON_parse JSON_stringify fetch String_of
      engine_message st b in
  let e := trim (LoginPage.email (LoginPage.values st)) in
  let p := LoginPage.password (LoginPage.values st) in
  let checked :=
    LoginPage.well_formed_address e ∧ (6 ≤ String.length p)%nat in
  (¬ checked →
   LoginPage.requests out = [] ∧ LoginPage.browser out = b ∧
   LoginPage.location_href out = None) ∧
  (checked →
   ∃ q,
     LoginPage.requests out = [q] ∧
     Client.url q = Client.getBaseUrl b +:+ "/auth/login" ∧
     Client.http_method q = Some "POST" ∧
     Client.http_body q =
       Some (JSON_stringify (Client.credentials_json e p)) ∧
     Client.http_headers q !! "authorization" = None ∧
     is_success (loginSchema is_email (Client.credentials_json e p))
     = is_email e).
Proof.
  intros out e p checked.
  assert (checked ↔ LoginPage.keys (LoginPage.errors (LoginPage.values st)) = [])
    as Hc.
  { unfold checked. rewrite login_values_checked.
    unfold LoginPage.isValidEmail.
    by rewrite test_Matches, email_pattern_language. }
  unfold out, LoginPage.onSubmit. cbn [LoginPage.values].
  split.
  - intros Hn.
    destruct (LoginPage.keys (LoginPage.errors (LoginPage.values st)))
      as [|k ks] eqn:Ek; [by destruct Hn; apply Hc|].
    done.
  - intros Hch. pose proof Hch as [_ Hlen].
    apply Hc in Hch as ->. cbn [length Nat.ltb Nat.leb].
    pose proof (apiLogin_request JSON_parse JSON_stringify fetch b e p)
      as (q & Hu & Hm & Hb & Hh & Hq).
    fold e p. rewrite Hq.
    exists q. split.
    { by repeat case_match. }
    split; [done|]. split; [done|]. split; [done|]. split; [done|].
    unfold loginSchema, Client.credentials_json, z_string_email.
    rewrite lookup_insert_eq.
    rewrite lookup_insert_ne, lookup_singleton_eq by done.
    assert (z_string_min 6 [key "password"] (Some (JStr p)) = success p) as ->.
    { by apply z_string_min_success. }
    by destruct (is_email e).
Qed.

Lemma post_auth_login_response env bcrypt_compare jwt_sign is_email e p w :
  let resp :=
    (post_auth_login env bcrypt_compare jwt_sign is_email
       (Client.credentials_json e p) w).1 in
  (∃ u,
     findOne_email (toLowerCase e) (users w) = Some u ∧
     resp = json 200 (AuthBody (signToken env jwt_sign (_id u) (email u))
                        (toHexString (_id u)) (email u))) ∨
  (∃ msg,
     body_error (payload resp) = Some msg ∧
     Client.ok (status resp) = false ∧ body_token (payload resp) = None).
Proof.
  unfold post_auth_login.
  destruct (loginSchema is_email (Client.credentials_json e p)) as [c|i] eqn:Ec;
    [|right; by eexists].
  assert (cred_email c = e) as ->.
  { apply credentials_schema_contract in Ec as (m & [= <-] & He & _).
    rewrite lookup_insert_eq in He. by injection He. }
  destruct (findOne_email (toLowerCase e) (users w)) as [u|];
    [|right; by eexists].
  destruct (bcrypt_compare (cred_password c) (passwordHash u));
    [left; by exists u | right; by eexists].
Qed.

(** X23.  A login through the page ends with the server's own answer.  When
    the form passes the page's checks, the browser has a storage, and the
    network brings back the response of [POST /auth/login] to the posted
    credentials, then either the server found the account and the page
    stores the very token the server signed for it and goes to [/test],
    after which every call that asks for authentication carries that token;
    or the page stays, stores nothing and shows the server's [error]. *)
Theorem login_page_stores_the_servers_token
    env bcrypt_compare jwt_sign is_email w
    JSON_parse JSON_stringify fetch String_of engine_message st b text m :
  let e := trim (LoginPage.email (LoginPage.values st)) in
  let p := LoginPage.password (LoginPage.values st) in
  let resp :=
    (post_auth_login env bcrypt_compare jwt_sign is_email
       (Client.credentials_json e p) w).1 in
  let out :=
    LoginPage.onSubmit JSON_parse JSON_stringify fetch String_of
      engine_message st b in
  LoginPage.keys (LoginPage.errors (LoginPage.values st)) = [] →
  is_Some (Client.localStorage b) →
  (∀ q, fetch q = Client.responds (status resp) text) →
  text ≠ "" →
  JSON_parse text = Some (JObj m) →
  m !! "error" = JStr <$> body_error (payload resp) →
  m !! "token" = JStr <$> body_token (payload resp) →
  LoginPage.loading (LoginPage.state out) = false ∧
  ((∃ u,
      findOne_email (toLowerCase e) (users w) = Some u ∧
      Client.getToken (LoginPage.browser out)
      = Some (signToken env jwt_sign (_id u) (email u)) ∧
      LoginPage.location_href out = Some "/test" ∧
      LoginPage.apiError (LoginPage.state out) = None ∧
      ∀ fetch' path opts r,
        Client.auth opts = true →
        r ∈ (Client.fetchJson JSON_parse fetch' (LoginPage.browser out)
               path opts).2 →
        Client.http_headers r !! "authorization"
        = Some ("Bearer " +:+ signToken env jwt_sign (_id u) (email u))) ∨
   (∃ msg,
      body_error (payload resp) = Some msg ∧
      LoginPage.apiError (LoginPage.state out) = Some msg ∧
      LoginPage.browser out = b ∧
      LoginPage.location_href out = None)).
Proof.
  intros e p resp out Hkeys [storage Hst] Hfetch Htext Hparse Herr Htok.
  unfold out, LoginPage.onSubmit. cbn [LoginPage.values].
  rewrite Hkeys. cbn [length Nat.ltb Nat.leb].
  pose proof (apiLogin_request JSON_parse JSON_stringify fetch b e p)
    as (q & _ & _ & _ & _ & Hq).
  fold e p. rewrite Hq, Hfetch. unfold Client.settle.
  assert (truthy text = true) as -> by by destruct text.
  rewrite Hparse. cbn [Client.data_error]. rewrite Herr.
  destruct (post_auth_login_response env bcrypt_compare jwt_sign is_email e p w)
    as [(u & Hu & Hresp) | (msg & Hmsg & Hok & Hnone)];
    fold resp in Hresp || fold resp in Hmsg, Hok, Hnone.
  - rewrite Hresp in Htok |- *. cbn [status json Client.ok Nat.leb andb].
    cbn [payload json body_token fmap option_fmap option_map] in Htok.
    rewrite Htok. cbn [Client.to_String].
    unfold Client.setToken. rewrite Hst.
    cbn [LoginPage.state LoginPage.loading LoginPage.browser
         LoginPage.location_href LoginPage.apiError].
    split; [done|]. left. exists u.
    assert (Client.getToken
              {| Client.NEXT_PUBLIC_API_BASE_URL :=
                   Client.NEXT_PUBLIC_API_BASE_URL b;
                 Client.localStorage :=
                   Some (<[Client.TOKEN_KEY :=
                             signToken env jwt_sign (_id u) (email u)]> storage) |}
            = Some (signToken env jwt_sign (_id u) (email u))) as Hget.
    { unfold Client.getToken. cbn [Client.localStorage].
      apply lookup_insert_eq. }
    split; [done|]. split; [done|]. split; [done|]. split; [done|].
    intros fetch' path opts r Ha Hr.
    apply fetchJson_requests in Hr as (hs & -> & Hhs).
    rewrite Ha in Hhs. destruct Hhs as (token & Ht & _ & ->).
    rewrite Hget in Ht. injection Ht as <-.
    cbn [Client.http_headers]. apply lookup_insert_eq.
  - rewrite Hok, Hmsg. cbn [fmap option_fmap option_map Client.nullish_or].
    cbn [Client.to_String LoginPage.state LoginPage.loading
         LoginPage.browser LoginPage.location_href LoginPage.apiError].
    split; [done|]. right. by exists msg.
Qed.

Lemma login_page_stores_the_servers_token_witness :
  Client.getToken
    (LoginPage.browser
       (LoginPage.onSubmit ClientDemo.parse ClientDemo.stringify
          (ClientDemo.answers 200 "{token: asha}") ClientDemo.String_of
          ClientDemo.engine_message ClientDemo.form ClientDemo.logged_out))
  = Some ClientDemo.token ∧
  LoginPage.location_href
    (LoginPage.onSubmit ClientDemo.parse ClientDemo.stringify
       (ClientDemo.answers 200 "{token: asha}") ClientDemo.String_of
       ClientDemo.engine_message ClientDemo.form ClientDemo.logged_out)
  = Some "/test".
Proof.
  destruct (login_page_stores_the_servers_token Sample.env
              Sample.bcrypt_compare Sample.jwt_sign Sample.is_email
              Sample.world ClientDemo.parse ClientDemo.stringify
              (ClientDemo.answers 200 "{token: asha}") ClientDemo.String_of
              ClientDemo.engine_message ClientDemo.form ClientDemo.logged_out
              "{token: asha}" {[ "token" := JStr ClientDemo.token ]})
    as [_ [(u & Hu & Hget & Hloc & _) | (msg & Hmsg & _)]].
  - reflexivity.
  - by eexists.
  - intros q. reflexivity.
  - discriminate.
  - reflexivity.
  - reflexivity.
  - reflexivity.
  - vm_compute in Hu. injection Hu as <-. split; [exact Hget | exact Hloc].
  - vm_compute in Hmsg. discriminate.
Defined.

(** ** Leaving the questionnaire *)

Lemma fetchJson_sends JSON_parse fetch b path opts :
  Client.reaches_fetch b opts →
  ∃ q,
    Client.fetchJson JSON_parse fetch b path opts
    = (Client.settle JSON_parse (fetch q), [q]) ∧
    Client.url q =
      Client.getBaseUrl b +:+
        (if startsWith "/" path then path else "/" +:+ path) ∧
    Client.http_method q = Client.method opts ∧
    Client.http_body q = Client.body opts ∧
    (Client.auth opts = true →
     ∃ token, Client.getToken b = Some token ∧
       Client.http_headers q !! "authorization" = Some ("Bearer " +:+ token)).
Proof.
  intros Hr.
  destruct (fetchJson_reaches JSON_parse fetch b path opts Hr) as [q Hq].
  destruct (fetchJson_requests JSON_parse fetch b path opts q)
    as (hs & Hshape & Hhs).
  { rewrite Hq. cbn [snd]. apply list_elem_of_here. }
  exists q. split; [exact Hq|]. clear Hq. subst q.
  cbn [Client.url Client.http_method Client.http_body Client.http_headers].
  split; [done|]. split; [done|]. split; [done|].
  intros Ha. rewrite Ha in Hhs. destruct Hhs as (token & Ht & _ & ->).
  exists token. split; [done|]. apply lookup_insert_eq.
Qed.

Lemma fetchJson_refused JSON_parse fetch b path opts :
  Client.auth opts = true → ¬ Client.has_token b →
  Client.fetchJson JSON_parse fetch b path opts
  = (Client.throws (Client.new_Error (JStr "Not authenticated")), []).
Proof.
  intros Ha Hn. unfold Client.fetchJson. rewrite Ha.
  destruct (Client.getToken b) as [token|] eqn:Et; [|done].
  destruct token as [|c token]; [done|].
  destruct Hn. by exists (String c token).
Qed.

Lemma has_token_dec b : Client.has_token b ∨ ¬ Client.has_token b.
Proof.
  unfold Client.has_token.
  destruct (Client.getToken b) as [[|c token]|].
  - right. by intros (? & [= <-] & ?).
  - left. by eexists.
  - right. by intros (? & [=] & _).
Qed.

(** X24.  Leaving the questionnaire saves before it analyses.  Without a
    stored token [continueToResults] makes no request and shows
    [Not authenticated].  With one it first posts the answers to
    [/user/psychometric]; only when that call has returned does it post to
    [/ai/analyze]; and only when both have returned does it go to
    [/results].  Both requests carry the stored token.  In every other case
    the page stays and shows an error; [submitting] is off at the end. *)
Theorem results_only_after_save_and_analysis
    JSON_parse JSON_stringify fetch String_of engine_message b st :
  let out :=
    PsychometricTestPage.continueToResults JSON_parse JSON_stringify fetch
      String_of engine_message b st in
  let stays :=
    PsychometricTestPage.location_href out = None ∧
    is_Some (PsychometricTestPage.submitError out) in
  let bearer (q : Client.HttpRequest) :=
    ∃ token, Client.getToken b = Some token ∧
      Client.http_headers q !! "authorization" = Some ("Bearer " +:+ token) in
  PsychometricTestPage.submitting out = false ∧
  ((¬ Client.has_token b ∧
    PsychometricTestPage.requests out = [] ∧
    PsychometricTestPage.location_href out = None ∧
    PsychometricTestPage.submitError out = Some "Not authenticated") ∨
   (∃ save,
      Client.url save = Client.getBaseUrl b +:+ "/user/psychometric" ∧
      Client.http_method save = Some "POST" ∧
      Client.http_body save =
        Some (JSON_stringify (PsychometricTestPage.submission st)) ∧
      bearer save ∧
      ((¬ Client.returned JSON_parse fetch save ∧
        PsychometricTestPage.requests out = [save] ∧ stays) ∨
       (Client.returned JSON_parse fetch save ∧
        ∃ analyze,
          Client.url analyze = Client.getBaseUrl b +:+ "/ai/analyze" ∧
          Client.http_method analyze = Some "POST" ∧
          bearer analyze ∧
          PsychometricTestPage.requests out = [save; analyze] ∧
          ((¬ Client.returned JSON_parse fetch analyze ∧ stays) ∨
           (Client.returned JSON_parse fetch analyze ∧
            PsychometricTestPage.location_href out = Some "/results" ∧
            PsychometricTestPage.submitError out = None)))))).
Proof.
  intros out stays bearer. unfold stays, bearer, out. clear out stays bearer.
  unfold PsychometricTestPage.continueToResults.
  unfold Client.apiSavePsychometric, Client.apiAnalyze.
  destruct (has_token_dec b) as [Htok|Hno].
  - match goal with |- context [Client.fetchJson _ _ _ ?pa ?o] =>
      destruct (fetchJson_sends JSON_parse fetch b pa o)
        as (save & -> & Hu & Hm & Hb & Hh); [by right|]
    end.
    cbn [Client.auth Client.method Client.body] in Hu, Hm, Hb, Hh.
    specialize (Hh eq_refl).
    destruct (Client.settle JSON_parse (fetch save)) as [d|err] eqn:Es.
    + match goal with |- context [Client.fetchJson _ _ _ ?pa ?o] =>
        destruct (fetchJson_sends JSON_parse fetch b pa o)
          as (analyze & -> & Hu' & Hm' & _ & Hh'); [by right|]
      end.
      cbn [Client.auth Client.method] in Hu', Hm', Hh'.
      specialize (Hh' eq_refl).
      destruct (Client.settle JSON_parse (fetch analyze)) as [d'|err'] eqn:Ea;
        cbn [PsychometricTestPage.submitting PsychometricTestPage.requests
             PsychometricTestPage.location_href
             PsychometricTestPage.submitError app];
        (split; [done|]); right; exists save;
        (split; [done|]); (split; [done|]); (split; [done|]); (split; [done|]);
        right; (split; [by exists d|]); exists analyze;
        (split; [done|]); (split; [done|]); (split; [done|]); (split; [done|]).
      * right. split; [by exists d'|]. done.
      * left. split; [|by eauto].
        intros [d' Hd']. unfold Client.returned in *. congruence.
    + cbn [PsychometricTestPage.submitting PsychometricTestPage.requests
           PsychometricTestPage.location_href PsychometricTestPage.submitError].
      split; [done|]. right. exists save.
      split; [done|]. split; [done|]. split; [done|]. split; [done|].
      left. split; [|by eauto].
      intros [d Hd]. congruence.
  - rewrite fetchJson_refused by done.
    cbn [PsychometricTestPage.submitting PsychometricTestPage.requests
         PsychometricTestPage.location_href PsychometricTestPage.submitError
         Client.message Client.to_String].
    split; [done|]. by left.
Qed.
